(** * funct0r: a shallow embedding of the daily check-in runner

  The runner is one JavaScript program: a request executor with a selective
  retry policy ([proxyFetch]), a generic retry policy ([withRetry]), the
  loaders of the two input lists ([loadAccounts], [loadProxies],
  [loadData]), the per-account workflow ([loginAndCheckIn]) and the
  scheduler ([main]).  The repository holds it twice; the embedding follows
  the variant with retries, and gives the plainer [index.js] beside it
  (the definitions named [_plain]).

  Conventions of the embedding.
  - JavaScript strings are [string]s of code units below 256.
  - JavaScript numbers are doubles; the model keeps them as rationals
    ([Q]).  The backoff of the retry policies, whose power grows with the
    attempt number, is computed as the source computes it: an operation
    returns its exact result when that is a double and otherwise the double
    the engine rounds it to, which the host supplies ([Number.result]).
    The other arithmetic of the source ([Math.round], [Math.floor], [%],
    sums of whole numbers) is taken exactly.  A result beyond the largest
    double is [Infinity] in JavaScript; the model has no such number, and
    the host's rounding stands for it.  Rendering a number to text is left
    to the host.
  - An awaited timer is recorded with the delay handed to [setTimeout];
    what becomes of the delay is the host's [timer].
  - Values thrown are [Error] objects, but for [undefined], which
    [throw lastError] throws when a retry loop made no attempt.
  - The host (network, file system, clock, random source, timers) is a
    record of state-passing functions over an abstract world.
  - A computation maps a state (world and the trace of observable events
    so far) to a completion (a value or a thrown error) and a new state.
  - [while (true)] and the restart of [main] are unfolded a given number of
    times ([fuel]); what is proved of them holds for every such number. *)

From Stdlib Require Import Znumtheory.
From Stdlib Require Import List String Ascii Bool Arith ZArith QArith Qround Lia.
From Stdlib Require Import DecimalString Lqa Qabs Qpower.
Import ListNotations.
Local Open Scope list_scope.
Local Open Scope string_scope.

(** ** JavaScript strings *)

Module JsString.

(** Code units that [String.prototype.trim] strips: TAB, LF, VT, FF, CR,
    SP and NBSP. *)
Definition isWhiteSpace (c : ascii) : bool :=
  let n := nat_of_ascii c in
  ((9 <=? n) && (n <=? 13))%nat || (n =? 32)%nat || (n =? 160)%nat.

Fixpoint trimStart (s : string) : string :=
  match s with
  | String c rest => if isWhiteSpace c then trimStart rest else s
  | EmptyString => EmptyString
  end.

Fixpoint trimEnd (s : string) : string :=
  match s with
  | String c rest =>
      match trimEnd rest with
      | EmptyString => if isWhiteSpace c then EmptyString else String c EmptyString
      | kept => String c kept
      end
  | EmptyString => EmptyString
  end.

Definition trim (s : string) : string := trimEnd (trimStart s).

(** [s.split(sep)] for a separator of one code unit. *)
Fixpoint split (sep : ascii) (s : string) : list string :=
  match s with
  | EmptyString => [EmptyString]
  | String c rest =>
      if Ascii.eqb c sep then EmptyString :: split sep rest
      else match split sep rest with
           | piece :: pieces => String c piece :: pieces
           | [] => [String c EmptyString]
           end
  end.

Definition startsWith (p s : string) : bool := String.prefix p s.

(** [s.includes(needle)]. *)
Fixpoint includes (needle s : string) : bool :=
  String.prefix needle s ||
  match s with
  | String _ rest => includes needle rest
  | EmptyString => false
  end.

(** Truthiness of a string: the empty string is falsy. *)
Definition truthy (s : string) : bool :=
  match s with EmptyString => false | String _ _ => true end.

(** Whether the code unit [c] occurs in [s]. *)
Fixpoint contains (c : ascii) (s : string) : bool :=
  match s with
  | EmptyString => false
  | String c' rest => Ascii.eqb c' c || contains c rest
  end.

Definition LF : ascii := ascii_of_nat 10.
Definition ESC : string := String (ascii_of_nat 27) EmptyString.

End JsString.

(** ** JavaScript values received from the service *)

Local Set Warnings "-register-all".

(** A parsed JSON value; [JObj] lists the own properties of an object, a
    key at most once. *)
Inductive JSON : Type :=
| JNull
| JBool (b : bool)
| JNum (q : Q)
| JStr (s : string)
| JArr (items : list JSON)
| JObj (props : list (string * JSON)).

(** A value of the language: a parsed value or [undefined]. *)
Definition Value : Type := option JSON.
Definition undefined : Value := None.

Module Js.

Fixpoint lookup (key : string) (props : list (string * JSON)) : Value :=
  match props with
  | [] => undefined
  | (k, v) :: rest => if String.eqb k key then Some v else lookup key rest
  end.

(** [v.key] for the keys the program reads ([accessToken], [id],
    [dipTokenBalance], [tokensToAward]): none of them is a property of a
    prototype, so only own properties of objects answer. *)
Definition get (key : string) (v : JSON) : Value :=
  match v with
  | JObj props => lookup key props
  | _ => undefined
  end.

Definition nonzero (q : Q) : bool := negb (Qeq_bool q 0).

Definition truthyJ (v : JSON) : bool :=
  match v with
  | JNull => false
  | JBool b => b
  | JNum q => nonzero q
  | JStr s => JsString.truthy s
  | JArr _ => true
  | JObj _ => true
  end.

Definition truthy (v : Value) : bool :=
  match v with
  | None => false
  | Some j => truthyJ j
  end.

(** [a && a.key] used as a condition. *)
Definition and_get (v : JSON) (key : string) : Value :=
  if truthyJ v then get key v else Some v.

Fixpoint join (sep : string) (parts : list string) : string :=
  match parts with
  | [] => EmptyString
  | [p] => p
  | p :: rest => p ++ sep ++ join sep rest
  end.

Section ToString.
Variable Number_toString : Q -> string.

(** String conversion of a template literal, [`${v}`]; [None] when the
    conversion throws a [TypeError].  An object is converted by its
    [toString] method and, failing that, by [valueOf].  A parsed object
    inherits a [toString] that gives "[object Object]"; an own property
    named [toString] hides it, and as no parsed value is a function and the
    inherited [valueOf] returns the object itself, the conversion then
    throws.  An array joins the conversions of its items with commas,
    [null] items counting as empty. *)
Fixpoint toStringJ (v : JSON) : option string :=
    match v with
    | JNull => Some "null"
    | JBool true => Some "true"
    | JBool false => Some "false"
    | JNum q => Some (Number_toString q)
    | JStr s => Some s
    | JArr items =>
        option_map (join ",")
          ((fix each (l : list JSON) : option (list string) :=
              match l with
              | [] => Some []
              | x :: rest =>
                  match (match x with
                         | JNull => Some EmptyString
                         | _ => toStringJ x
                         end) with
                  | Some piece => option_map (cons piece) (each rest)
                  | None => None
                  end
              end) items)
    | JObj props =>
        match lookup "toString" props with
        | Some _ => None
        | None => Some "[object Object]"
        end
    end.

Definition toString (v : Value) : option string :=
    match v with
    | None => Some "undefined"
    | Some j => toStringJ j
    end.
End ToString.

End Js.

(** ** Errors, completions and the computation monad *)

(** An [Error] object with the two properties the program attaches to it. *)
Record JsError : Type := {
  message : string;
  status : option Z;
  noRetry : bool
}.

(** [new Error(msg)]: neither [status] nor [noRetry] is set. *)
Definition Error (msg : string) : JsError :=
  {| message := msg; status := None; noRetry := false |}.

(** Reading a property of [undefined]. *)
Definition TypeError_undefined (prop : string) : JsError :=
  Error ("Cannot read properties of undefined (reading '" ++ prop ++ "')").

(** Converting to a string an object that has no usable [toString]. *)
Definition TypeError_primitive : JsError :=
  Error "Cannot convert object to primitive value".

(** How a call ends: with a value, with a thrown [Error] object, or with
    [undefined] thrown (which only [throw lastError] of an empty retry
    loop produces). *)
Inductive Completion (A : Type) : Type :=
| Normal (a : A)
| Thrown (e : JsError)
| ThrownUndefined.
Arguments Normal {A} a.
Arguments Thrown {A} e.
Arguments ThrownUndefined {A}.

Definition M (S A : Type) : Type := S -> Completion A * S.

Definition ret {S A} (a : A) : M S A := fun s => (Normal a, s).

Definition bind {S A B} (m : M S A) (k : A -> M S B) : M S B :=
  fun s =>
    match m s with
    | (Normal a, s') => k a s'
    | (Thrown e, s') => (Thrown e, s')
    | (ThrownUndefined, s') => (ThrownUndefined, s')
    end.

Definition throw {S A} (e : JsError) : M S A := fun s => (Thrown e, s).

(** [throw v] for a variable that holds an error or [undefined]. *)
Definition throw_value {S A} (v : option JsError) : M S A :=
  fun s => match v with
           | Some e => (Thrown e, s)
           | None => (ThrownUndefined, s)
           end.

(** [try { body } catch (error) { handler }], for a handler whose first
    action reads [error.prop]: on [undefined] that read throws. *)
Definition try_catch {S A} (body : M S A) (prop : string)
    (handler : JsError -> M S A) : M S A :=
  fun s =>
    match body s with
    | (Normal a, s') => (Normal a, s')
    | (Thrown e, s') => handler e s'
    | (ThrownUndefined, s') => (Thrown (TypeError_undefined prop), s')
    end.

(** A state change that cannot fail, as a computation. *)
Definition effect {S} (f : S -> S) : M S unit := fun s => (Normal tt, f s).

Declare Scope js_scope.
Delimit Scope js_scope with js.
Notation "x <- m ;; k" := (bind m (fun x => k))
  (at level 61, m at next level, right associativity) : js_scope.
Notation "m ;; k" := (bind m (fun _ => k))
  (at level 61, right associativity) : js_scope.
Local Open Scope js_scope.

(** ** The log and the timers *)

Module Log.
Inductive Level : Type := error | warn | info.
Record Entry : Type := { email : option string; message : string }.
Definition plain (msg : string) : Entry := {| email := None; message := msg |}.
Definition tagged (who msg : string) : Entry :=
  {| email := Some who; message := msg |}.
End Log.

(** ** Numbers *)

Module Number.

(** The odd part of a positive number. *)
Fixpoint odd_part (p : positive) : positive :=
  match p with
  | xO p' => odd_part p'
  | _ => p
  end.

(** Whether the rational [q] is a finite double: in lowest terms its
    denominator is a power of two not above [2^1074], the odd part of its
    numerator is below [2^53], and its size is below [2^1024]. *)
Definition is_double (q : Q) : bool :=
  let r := Qred q in
  match Qnum r with
  | Z0 => true
  | Zpos n | Zneg n =>
      Pos.eqb (odd_part (Qden r)) 1
      && (Z.pos (odd_part n) <? 2 ^ 53)%Z
      && (Z.log2 (Z.pos (Qden r)) <=? 1074)%Z
      && (Z.log2 (Z.pos n) <? 1024)%Z
  end.

Section Arithmetic.
(** The double the engine returns for a result that is not a double. *)
Variable nearest : Q -> Q.

(** The result of an operation whose exact result is [q]: IEEE arithmetic
    returns the exact result when it is a double, and so does [Math.pow]
    of Node for the powers of 1.5 that are doubles. *)
Definition result (q : Q) : Q := if is_double q then q else nearest q.

(** [a * b] and [a / b]. *)
Definition times (a b : Q) : Q := result (a * b).
Definition over (a b : Q) : Q := result (a / b).
End Arithmetic.

End Number.

(** What the retry policies and the rest of the program need from their
    surroundings: the logger, awaiting a timer, number rendering and the
    rounding of results that are not doubles. *)
Class Runtime (S : Type) : Type := {
  logger : Log.Level -> Log.Entry -> S -> S;
  setTimeout : Q -> S -> S;
  Number_toString : Q -> string;
  Number_nearest : Q -> Q
}.

Definition Math_floor (q : Q) : Q := inject_Z (Qfloor q).
Definition Math_round (q : Q) : Q := inject_Z (Qfloor (q + (1 # 2))).

(** [Math.pow(base, exponent)] for a whole exponent. *)
Definition Math_pow (nearest : Q -> Q) (base : Q) (exponent : Z) : Q :=
  Number.result nearest (Qpower base exponent).

(** ** The retry policies *)

(** [delay * Math.pow(1.5, attempt - 1)], as the engine computes it. *)
Definition backoffDelay_of (nearest : Q -> Q) (delay : Q) (attempt : nat) : Q :=
  Number.times nearest delay (Math_pow nearest (3 # 2) (Z.of_nat attempt - 1)).

Section RetryPolicy.
Context {S A : Type} `{Runtime S}.

(** The body of [if (attempt < retries) { ... }] in both policies. *)
Definition backoff (retries : nat) (delay : Q) (attempt : nat)
    (error : JsError) : M S unit :=
  if (attempt <? retries)%nat then
    let backoffDelay := backoffDelay_of Number_nearest delay attempt in
    effect (logger Log.warn (Log.plain
      ("Attempt " ++ Number_toString (inject_Z (Z.of_nat attempt))
       ++ " failed. Retrying in "
       ++ Number_toString
            (Math_round (Number.over Number_nearest backoffDelay 1000))
       ++ "s... Error: " ++ message error))) ;;
    effect (setTimeout backoffDelay)
  else ret tt.

(** The [for] loop of [withRetry], over the attempt numbers still to run. *)
Fixpoint withRetry_loop (fn : M S A) (retries : nat) (delay : Q)
    (attempts : list nat) (lastError : option JsError) : M S A :=
  match attempts with
  | [] => throw_value lastError
  | attempt :: later =>
      fun s =>
        match fn s with
        | (Normal a, s') => (Normal a, s')
        | (Thrown error, s') =>
            (backoff retries delay attempt error ;;
             withRetry_loop fn retries delay later (Some error)) s'
        | (ThrownUndefined, s') =>
            if (attempt <? retries)%nat
            then (Thrown (TypeError_undefined "message"), s')
            else withRetry_loop fn retries delay later None s'
        end
  end.

Definition withRetry (fn : M S A) (retries : nat) (delay : Q) : M S A :=
  withRetry_loop fn retries delay (seq 1 retries) None.

(** The [for] loop of [withSelectiveRetry]. *)
Fixpoint withSelectiveRetry_loop (fn : M S A) (retries : nat) (delay : Q)
    (attempts : list nat) (lastError : option JsError) : M S A :=
  match attempts with
  | [] => throw_value lastError
  | attempt :: later =>
      fun s =>
        match fn s with
        | (Normal a, s') => (Normal a, s')
        | (Thrown error, s') =>
            if noRetry error then (Thrown error, s')
            else
              (backoff retries delay attempt error ;;
               withSelectiveRetry_loop fn retries delay later (Some error)) s'
        | (ThrownUndefined, s') => (Thrown (TypeError_undefined "noRetry"), s')
        end
  end.

Definition withSelectiveRetry (fn : M S A) (retries : nat) (delay : Q) : M S A :=
  withSelectiveRetry_loop fn retries delay (seq 1 retries) None.

End RetryPolicy.

(** ** The host: network, file system, clock, random source *)

(** How a promise of the host settles; a rejection carries the message of
    a plain [Error]. *)
Inductive Settled (A : Type) : Type :=
| Resolved (a : A)
| Rejected (msg : string).
Arguments Resolved {A} a.
Arguments Rejected {A} msg.

Definition settle {A} (r : Settled A) : Completion A :=
  match r with
  | Resolved a => Normal a
  | Rejected msg => Thrown (Error msg)
  end.

(** The arguments of one [fetch(url, options)] call; [agent] is the proxy
    URL the agent was built from. *)
Record Request : Type := {
  url : string;
  method : string;
  headers : list (string * string);
  body : option string;
  agent : option string
}.

Module Response.
Record t : Type := {
  status : Z;
  json : Settled JSON
}.
Definition ok (r : t) : bool := (200 <=? status r)%Z && (status r <? 300)%Z.
End Response.

Record Host : Type := {
  World : Type;
  fetch : Request -> World -> Settled Response.t * World;
  fs_readFile : string -> World -> Settled string * World;
  timer : Q -> World -> World;
  Math_random : World -> Q * World;
  (** [new HttpsProxyAgent(proxyUrl)]: [Some msg] when the constructor throws. *)
  HttpsProxyAgent : string -> option string;
  JSON_stringify : JSON -> string;
  render : Q -> string;
  (** The double an operation returns when its exact result is none. *)
  nearest_double : Q -> Q;
  Date : Type;
  new_Date : World -> Date;
  Date_now : World -> Q;
  getDate : Date -> Q;
  setDate : Date -> Q -> Date;
  setHours : Date -> Q -> Q -> Q -> Date;
  getTime : Date -> Q;
  toLocaleString : Date -> string
}.

(** What an observer of the process sees, in order. *)
Inductive Event : Type :=
| Logged (level : Log.Level) (entry : Log.Entry)
| Slept (ms : Q)
| Fetched (request : Request)
| ReadFile (path : string).

Record State (h : Host) : Type := {
  world : World h;
  trace : list Event
}.
Arguments world {h} s.
Arguments trace {h} s.

Definition record {h} (ev : Event) (s : State h) : State h :=
  {| world := world s; trace := (trace s ++ [ev])%list |}.

#[global] Instance State_Runtime (h : Host) : Runtime (State h) := {
  logger level entry s := record (Logged level entry) s;
  setTimeout ms s :=
    {| world := timer h ms (world s); trace := (trace s ++ [Slept ms])%list |};
  Number_toString := render h;
  Number_nearest := nearest_double h
}.

Module Account.
Record t : Type := { email : option string; password : option string }.
End Account.

Section Program.
Variable h : Host.

Definition Task (A : Type) : Type := M (State h) A.

(** The state after [request] was sent and the host moved to [w]. *)
Definition sent (s : State h) (request : Request) (w : World h) : State h :=
  {| world := w; trace := (trace s ++ [Fetched request])%list |}.

(** The state after one more log entry. *)
Definition logged (level : Log.Level) (who msg : string) (s : State h)
    : State h :=
  record (Logged level (Log.tagged who msg)) s.

Definition log (level : Log.Level) (entry : Log.Entry) : Task unit :=
  effect (logger level entry).

Definition sleep (ms : Q) : Task unit := effect (setTimeout ms).

Definition num (q : Q) : string := render h q.

(** [await fetch(url, options)]. *)
Definition await_fetch (request : Request) : Task Response.t :=
  fun s =>
    let (r, w) := fetch h request (world s) in
    (settle r, {| world := w; trace := (trace s ++ [Fetched request])%list |}).

(** [await fs.readFile(path, 'utf8')]. *)
Definition await_readFile (path : string) : Task string :=
  fun s =>
    let (r, w) := fs_readFile h path (world s) in
    (settle r, {| world := w; trace := (trace s ++ [ReadFile path])%list |}).

Definition random : Task Q :=
  fun s =>
    let (r, w) := Math_random h (world s) in
    (Normal r, {| world := w; trace := trace s |}).

Definition headersTemplate : list (string * string) :=
  [ ("Accept", "application/json, text/plain, */*");
    ("Content-Type", "application/json");
    ("User-Agent", "Mozilla/5.0 (Windows NT 10.0; Win64; x64) AppleWebKit/537.36 (KHTML, like Gecko) Chrome/133.0.0.0 Safari/537.36") ].

(** *** Loading the two lists *)

Definition kept_line (line : string) : bool :=
  JsString.truthy line && negb (JsString.startsWith "#" line).

Definition lines_of (data : string) : list string :=
  filter kept_line (map JsString.trim (JsString.split JsString.LF data)).

Definition loadProxies : Task (list string) :=
  try_catch
    (data <- await_readFile "proxy.txt" ;;
     ret (lines_of data))
    "message"
    (fun error =>
       log Log.error (Log.plain ("Error loading proxies: " ++ message error)) ;;
       ret []).

(** [const [email, password] = line.split(':'); return { email, password }]. *)
Definition parse_account (line : string) : Account.t :=
  let parts := JsString.split ":" line in
  {| Account.email := nth_error parts 0; Account.password := nth_error parts 1 |}.

Definition loadAccounts : Task (list Account.t) :=
  try_catch
    (data <- await_readFile "data.txt" ;;
     ret (map parse_account (lines_of data)))
    "message"
    (fun error =>
       log Log.error (Log.plain ("Error loading accounts: " ++ message error)) ;;
       ret []).

(** The operation [loadData] hands to [withRetry]. *)
Definition loadData_attempt : Task (list Account.t * list string) :=
  accounts <- loadAccounts ;;
  proxies <- loadProxies ;;
  ret (accounts, proxies).

Definition loadData : Task (list Account.t * list string) :=
  withRetry loadData_attempt 5 3000.

(** *** The request executor *)

Definition truthy_status (st : option Z) : bool :=
  match st with
  | Some z => negb (z =? 0)%Z
  | None => false
  end.

(** The [options] object of [executeFetch]; building the agent may throw. *)
Definition fetch_options (url method : string) (payloadData : Value)
    (headers : list (string * string)) (proxy : option string)
    : Completion Request :=
  let options :=
    {| url := url; method := method; headers := headers;
       body := match payloadData with
               | Some p => if Js.truthyJ p then Some (JSON_stringify h p) else None
               | None => None
               end;
       agent := None |} in
  match proxy with
  | Some p =>
      if JsString.truthy p then
        let proxyUrl := "http://" ++ p in
        match HttpsProxyAgent h proxyUrl with
        | Some msg => Thrown (Error msg)
        | None =>
            Normal {| url := url; method := method; headers := headers;
                      body := body options; agent := Some proxyUrl |}
        end
      else Normal options
  | None => Normal options
  end.

(** [if (!response.ok) { ... throw error; }]: the error thrown for a
    response that is not ok. *)
Definition http_error (url : string) (response : Response.t) : JsError :=
  let error :=
    {| message := "HTTP error! Status: "
                  ++ num (inject_Z (Response.status response));
       status := Some (Response.status response);
       noRetry := false |} in
  if JsString.includes "/users/earn/" url
     && (Response.status response =? 400)%Z
  then {| message := message error; status := status error; noRetry := true |}
  else error.

(** The [catch] block of [executeFetch]. *)
Definition enhance (error : JsError) : JsError :=
  {| message := "Request failed: " ++ message error;
     status := if truthy_status (status error) then status error else None;
     noRetry := if noRetry error then true else false |}.

Definition executeFetch (url method : string) (payloadData : Value)
    (headers : list (string * string)) (proxy : option string) : Task JSON :=
  try_catch
    (options <- (fun s => (fetch_options url method payloadData headers proxy, s)) ;;
     response <- await_fetch options ;;
     if negb (Response.ok response) then throw (http_error url response)
     else fun s => (settle (Response.json response), s))
    "message"
    (fun error => throw (enhance error)).

Definition proxyFetch (url method : string) (payloadData : Value)
    (headers : list (string * string)) (proxy : option string) : Task JSON :=
  withSelectiveRetry (executeFetch url method payloadData headers proxy) 3 2000.

(** *** The account workflow *)

Definition signinUrl : string :=
  "https://node.securitylabs.xyz/api/v1/auth/signin-user".
Definition usersUrl : string := "https://node.securitylabs.xyz/api/v1/users".
Definition earnUrl (id : string) : string :=
  "https://node.securitylabs.xyz/api/v1/users/earn/" ++ id.

Definition toString (v : Value) : option string := Js.toString (render h) v.

(** [${v}] in a template literal: the text of [v], or a [TypeError]. *)
Definition template (v : Value) : Task string :=
  match toString v with
  | Some text => ret text
  | None => throw TypeError_primitive
  end.

Definition successMsg (award : string) : string :=
  JsString.ESC ++ "[38;5;46mCheck-in successful! Awarded points: "
  ++ award ++ JsString.ESC ++ "[0m".

Definition alreadyCheckedMsg : string :=
  JsString.ESC ++ "[38;5;220mAlready checked in today" ++ JsString.ESC ++ "[0m".

(** What [loginAndCheckIn] does with the answer of the claim request. *)
Definition report_checkin (email : string) (checkin : JSON) : Task unit :=
  if Js.truthy (Js.and_get checkin "tokensToAward") then
    award <- template (Js.get "tokensToAward" checkin) ;;
    log Log.info (Log.tagged email (successMsg award))
  else
    log Log.warn (Log.tagged email "Check-in not available yet.").

(** [error.status === code]. *)
Definition status_is (error : JsError) (code : Z) : bool :=
  match status error with
  | Some z => (z =? code)%Z
  | None => false
  end.

(** The handler of the inner [try] of [loginAndCheckIn]. *)
Definition report_checkinError (email : string) (checkinError : JsError)
    : Task unit :=
  if status_is checkinError 400 then
    log Log.info (Log.tagged email alreadyCheckedMsg)
  else
    log Log.error
      (Log.tagged email ("Check-in failed: " ++ message checkinError)).

(** The claim request, [await proxyFetch(`.../users/earn/${id}`, 'GET',
    null, headers, proxy)]. *)
Definition claim_request (headers : list (string * string))
    (proxy : option string) (id : Value) : Task JSON :=
  idText <- template id ;;
  proxyFetch (earnUrl idText) "GET" (Some JNull) headers proxy.

(** The inner [try { ... } catch (checkinError) { ... }]. *)
Definition checkin_step (email : string) (headers : list (string * string))
    (proxy : option string) (id : Value) : Task unit :=
  try_catch
    (checkin <- claim_request headers proxy id ;;
     report_checkin email checkin)
    "status"
    (report_checkinError email).

(** What follows the profile request: [const { id, dipTokenBalance } =
    user || {}; if (id) { ... }]. *)
Definition after_profile (email : string) (headers : list (string * string))
    (proxy : option string) (user : JSON) : Task unit :=
  let source := if Js.truthyJ user then user else JObj [] in
  let id := Js.get "id" source in
  let dipTokenBalance := Js.get "dipTokenBalance" source in
  if Js.truthy id then
    idText <- template id ;;
    balance <- template dipTokenBalance ;;
    log Log.info (Log.tagged email
      ("User id: " ++ idText ++ " | Current points: " ++ balance)) ;;
    log Log.info (Log.tagged email "Attempting daily check-in...") ;;
    checkin_step email headers proxy id
  else ret tt.

Definition loginAndCheckIn (email password : string) (proxy : option string)
    : Task unit :=
  log Log.info (Log.tagged email "Attempting login") ;;
  try_catch
    (let signInPayload :=
       JObj [("email", JStr email); ("password", JStr password)] in
     signIn <- proxyFetch signinUrl "POST" (Some signInPayload)
                 headersTemplate proxy ;;
     if Js.truthy (Js.and_get signIn "accessToken") then
       token <- template (Js.get "accessToken" signIn) ;;
       let headers :=
         List.app headersTemplate [("Authorization", "Bearer " ++ token)] in
       log Log.info
         (Log.tagged email "Login succeeded! Fetching user details...") ;;
       user <- proxyFetch usersUrl "GET" (Some JNull) headers proxy ;;
       after_profile email headers proxy user
     else
       log Log.error (Log.tagged email "Login failed"))
    "message"
    (fun error =>
       log Log.error
         (Log.tagged email ("Error during process: " ++ message error))).

(** *** The scheduler *)

(** Whether a call has returned, or is still running when the model stops
    unfolding the endless loop. *)
Inductive Progress : Type := Finished | StillRunning.

(** [a % b] on numbers: the remainder has the sign of the dividend. *)
Definition js_rem (a b : Q) : Q :=
  let q := (a / b)%Q in
  let t := if Qle_bool 0 q then Qfloor q else Qceiling q in
  (a - b * inject_Z t)%Q.

Section Scheduler.
(** [main] is first described for any behaviour of the two functions it
    calls; the program's [main] below uses [loadData] and
    [loginAndCheckIn]. *)
Variable load : Task (list Account.t * list string).
Variable workflow : string -> string -> option string -> Task unit.

(** [proxies.length > 0 ? proxies[i % proxies.length] : null]. *)
Definition proxy_for (proxies : list string) (i : nat) : option string :=
  if (0 <? List.length proxies)%nat
  then nth_error proxies (i mod List.length proxies)
  else None.

(** [email && password] with both defined and non-empty. *)
Definition credentials (account : Account.t) : option (string * string) :=
  match Account.email account, Account.password account with
  | Some email, Some password =>
      if JsString.truthy email && JsString.truthy password
      then Some (email, password)
      else None
  | _, _ => None
  end.

(** The [catch (e)] block around the workflow call at index [i]. *)
Definition after_failure (accounts : list Account.t) (i : nat)
    (email : string) (e : JsError) : Task unit :=
  log Log.error (Log.tagged email ("Process failed: " ++ message e)) ;;
  if (i <? List.length accounts - 1)%nat then
    let retryDelay := 10000%Q in
    log Log.warn (Log.plain
      ("Adding extra cooldown of " ++ num (retryDelay / 1000)
       ++ "s after failure...")) ;;
    sleep retryDelay
  else ret tt.

(** The delay between accounts, after the account at index [i]. *)
Definition pause (accounts : list Account.t) (i : nat) : Task unit :=
  if (i <? List.length accounts - 1)%nat then
    r <- random ;;
    let delay := (3000 + Math_floor (r * 5000))%Q in
    log Log.info (Log.plain
      ("Waiting " ++ num delay ++ "ms before next account...")) ;;
    sleep delay
  else ret tt.

(** The body of the [for] loop at index [i], where [account] is
    [accounts[i]]. *)
Definition visit (accounts : list Account.t) (proxies : list string)
    (i : nat) (account : Account.t) : Task unit :=
  let proxy := proxy_for proxies i in
  match credentials account with
  | Some (email, password) =>
      try_catch
        (workflow email password proxy)
        "message"
        (after_failure accounts i email) ;;
      pause accounts i
  | None => ret tt
  end.

(** The same loop body in [index.js], whose [catch] block only logs. *)
Definition visit_plain (accounts : list Account.t) (proxies : list string)
    (i : nat) (account : Account.t) : Task unit :=
  let proxy := proxy_for proxies i in
  match credentials account with
  | Some (email, password) =>
      try_catch
        (workflow email password proxy)
        "message"
        (fun e =>
           log Log.error
             (Log.tagged email ("Process failed: " ++ message e))) ;;
      pause accounts i
  | None => ret tt
  end.

(** [for (let i = 0; i < accounts.length; i++)], from index [i] on;
    [pending] are the accounts from that index. *)
Fixpoint for_accounts (accounts : list Account.t) (proxies : list string)
    (i : nat) (pending : list Account.t) : Task unit :=
  match pending with
  | [] => ret tt
  | account :: later =>
      visit accounts proxies i account ;;
      for_accounts accounts proxies (Datatypes.S i) later
  end.

(** The [for] loop of [main] in [index.js], from index [i] on. *)
Fixpoint for_accounts_plain (accounts : list Account.t)
    (proxies : list string) (i : nat) (pending : list Account.t)
    : Task unit :=
  match pending with
  | [] => ret tt
  | account :: later =>
      visit_plain accounts proxies i account ;;
      for_accounts_plain accounts proxies (Datatypes.S i) later
  end.

(** One pass of [while (true)] in [index.js]. *)
Definition cycle_plain (accounts : list Account.t) (proxies : list string)
    : Task unit :=
  log Log.info
    (Log.plain "Starting daily check-in process for all accounts...") ;;
  for_accounts_plain accounts proxies 0 accounts ;;
  log Log.info (Log.plain
    "All accounts processed. Waiting 24 hours for the next check-in...") ;;
  sleep (24 * 60 * 60 * 1000).

(** The end of one pass of [while (true)]: the next run is scheduled and
    awaited. *)
Definition await_next_run : Task unit :=
  nextRunTime <- (fun s => (Normal (new_Date h (world s)), s)) ;;
  let nextRunTime := setDate h nextRunTime (getDate h nextRunTime + 1)%Q in
  r1 <- random ;;
  r2 <- random ;;
  let nextRunTime :=
    setHours h nextRunTime 0 (Math_floor (r1 * 60)) (Math_floor (r2 * 60)) in
  now <- (fun s => (Normal (Date_now h (world s)), s)) ;;
  let timeUntilNextRun := (getTime h nextRunTime - now)%Q in
  let hoursUntilNextRun :=
    Math_floor (timeUntilNextRun / (1000 * 60 * 60)) in
  let minutesUntilNextRun :=
    Math_floor (js_rem timeUntilNextRun (1000 * 60 * 60) / (1000 * 60)) in
  log Log.info (Log.plain
    (JsString.ESC ++ "[38;5;51m======== All accounts processed ========"
     ++ JsString.ESC ++ "[0m")) ;;
  log Log.info (Log.plain
    ("Next run scheduled at: " ++ toLocaleString h nextRunTime ++ " (in "
     ++ num hoursUntilNextRun ++ "h " ++ num minutesUntilNextRun ++ "m)")) ;;
  sleep timeUntilNextRun.

Definition startingMsg : string :=
  JsString.ESC ++ "[38;5;51m======== Starting daily check-in process ========"
  ++ JsString.ESC ++ "[0m".

(** One pass of [while (true)]. *)
Definition cycle (accounts : list Account.t) (proxies : list string)
    : Task unit :=
  log Log.info (Log.plain startingMsg) ;;
  for_accounts accounts proxies 0 accounts ;;
  await_next_run.

(** [while (true) { ... }], unfolded [fuel] times. *)
Fixpoint forever (fuel : nat) (pass : Task unit) : Task Progress :=
  match fuel with
  | O => ret StillRunning
  | Datatypes.S fuel' => pass ;; forever fuel' pass
  end.

(** The [try] block of [main] once the lists are loaded. *)
Definition startup (fuel : nat) (data : list Account.t * list string)
    : Task Progress :=
  let accounts := fst data in
  let proxies := snd data in
  if (List.length accounts =? 0)%nat then
    log Log.error (Log.plain "No accounts found in data.txt") ;;
    ret Finished
  else
    (if (List.length proxies =? 0)%nat then
       log Log.warn (Log.plain
         "No proxies found in proxy.txt, will proceed without proxies")
     else
       log Log.info (Log.plain
         ("Loaded " ++ num (inject_Z (Z.of_nat (List.length proxies)))
          ++ " proxies"))) ;;
    log Log.info (Log.plain
      ("Loaded " ++ num (inject_Z (Z.of_nat (List.length accounts)))
       ++ " accounts")) ;;
    forever fuel (cycle accounts proxies).

(** The [try] block of [main]. *)
Definition main_try (fuel : nat) : Task Progress :=
  data <- load ;;
  startup fuel data.

(** The [catch (mainError)] block of [main] up to the restart. *)
Definition recover (mainError : JsError) : Task unit :=
  log Log.error (Log.plain
    ("Critical error in main process: " ++ message mainError)) ;;
  log Log.info (Log.plain "Restarting main process in 60 seconds...") ;;
  sleep 60000.

(** [main]; each pass of the loop and each restart uses one unit of
    [fuel]. *)
Fixpoint main_of (fuel : nat) : Task Progress :=
  match fuel with
  | O => ret StillRunning
  | Datatypes.S fuel' =>
      try_catch
        (main_try fuel')
        "message"
        (fun mainError => recover mainError ;; main_of fuel')
  end.

End Scheduler.

(** *** Describing what a computation adds to the trace *)

(** Whatever the state, [m] only appends events, and each satisfies [P]. *)
Definition emits {A} (P : Event -> Prop) (m : Task A) : Prop :=
  forall s, exists ext,
    trace (snd (m s)) = (trace s ++ ext)%list /\ Forall P ext.

(** The agent [executeFetch] gives a request for [proxy]. *)
Definition agent_for (proxy : option string) : option string :=
  match proxy with
  | Some p => if JsString.truthy p then Some ("http://" ++ p) else None
  | None => None
  end.

(** The events of [proxyFetch] on [target] through [proxy]: requests to
    that URL with that agent, untagged warnings, and waits. *)
Definition of_proxyFetch (target : string) (proxy : option string)
    (ev : Event) : Prop :=
  match ev with
  | Fetched r => url r = target /\ agent r = agent_for proxy
  | Logged Log.warn entry => Log.email entry = None
  | Slept _ => True
  | _ => False
  end.

(** The events of a workflow that stops after the profile request: the two
    progress entries at info level, requests to the sign-in and profile
    URLs, and what the retry policy adds (untagged warnings and waits). *)
Definition routine (email : string) (ev : Event) : Prop :=
  match ev with
  | Logged Log.info entry =>
      entry = Log.tagged email "Attempting login"
      \/ entry = Log.tagged email "Login succeeded! Fetching user details..."
  | Logged Log.warn entry => Log.email entry = None
  | Logged Log.error _ => False
  | Fetched r => url r = signinUrl \/ url r = usersUrl
  | Slept _ => True
  | ReadFile _ => False
  end.

(** The events of a workflow whose requests all use [a] as agent (or no
    agent for [None]); a workflow reads no file. *)
Definition via (a : option string) (ev : Event) : Prop :=
  match ev with
  | Fetched r => agent r = a
  | ReadFile _ => False
  | _ => True
  end.

(** The events of [loadData]: file reads and error entries; no warning of
    a retry, no wait. *)
Definition of_load (ev : Event) : Prop :=
  match ev with
  | ReadFile _ => True
  | Logged Log.error _ => True
  | _ => False
  end.

(** [m] never throws [undefined]. *)
Definition never_undefined {A} (m : Task A) : Prop :=
  forall s, fst (m s) <> ThrownUndefined.

(** [m] always returns a value. *)
Definition always_returns {A} (m : Task A) : Prop :=
  forall s, exists a, fst (m s) = Normal a.

Definition main (fuel : nat) : Task Progress :=
  main_of loadData loginAndCheckIn fuel.

End Program.

(** ** Observing a retry policy

    A probe wraps any state: it counts nothing and changes nothing, it only
    writes down, in order, each call of the operation with its completion,
    each log entry and each awaited timer of the policy that runs on it. *)

Module Probe.
Section Probe.
Context {W A : Type} `{Runtime W}.

Inductive Step : Type :=
| Invoked (outcome : Completion A)
| Logged (level : Log.Level) (entry : Log.Entry)
| Waited (ms : Q).

Record t : Type := { inner : W; steps : list Step }.

Definition note (st : Step) (p : t) (w : W) : t :=
  {| inner := w; steps := (steps p ++ [st])%list |}.

#[global] Instance Probe_Runtime : Runtime t := {
  logger level entry p := note (Logged level entry) p (logger level entry (inner p));
  setTimeout ms p := note (Waited ms) p (setTimeout ms (inner p));
  Number_toString := Number_toString;
  Number_nearest := Number_nearest
}.

(** The operation [fn], with each call written down. *)
Definition probed (fn : M W A) : M t A :=
  fun p => let (r, w) := fn (inner p) in (r, note (Invoked r) p w).

Definition start (w : W) : t := {| inner := w; steps := [] |}.

Definition is_call (st : Step) : bool :=
  match st with Invoked _ => true | _ => false end.

(** Number of calls of the operation among the steps. *)
Definition calls (tr : list Step) : nat := List.length (filter is_call tr).

(** The wait after a failed attempt as a formula, [delay * 1.5^(attempt-1)];
    the policies compute it in doubles ([backoffDelay_of]). *)
Definition backoffDelay (delay : Q) (attempt : nat) : Q :=
  delay * Qpower (3 # 2) (Z.of_nat attempt - 1).

(** The wait the policies compute on the probed runtime. *)
Definition computed (delay : Q) (attempt : nat) : Q :=
  backoffDelay_of (@Number_nearest W _) delay attempt.

(** The runs a retry policy with [retries] attempts may make from attempt
    number [attempt] on, with the completion of the policy; [retryable]
    tells the errors after which the policy goes on. *)
Inductive Run (retries : nat) (delay : Q) (retryable : JsError -> bool)
    : nat -> list Step -> Completion A -> Prop :=
| Run_return attempt a :
    Run retries delay retryable attempt [Invoked (Normal a)] (Normal a)
| Run_undefined attempt r :
    Run retries delay retryable attempt [Invoked ThrownUndefined] r
| Run_halt attempt e :
    retryable e = false ->
    Run retries delay retryable attempt [Invoked (Thrown e)] (Thrown e)
| Run_exhausted e :
    retryable e = true ->
    Run retries delay retryable retries [Invoked (Thrown e)] (Thrown e)
| Run_retry attempt e entry tr r :
    retryable e = true ->
    (attempt < retries)%nat ->
    Run retries delay retryable (Datatypes.S attempt) tr r ->
    Run retries delay retryable attempt
      (Invoked (Thrown e) :: Logged Log.warn entry
       :: Waited (computed delay attempt) :: tr) r.

(** The errors after which [withRetry] goes on: all of them. *)
Definition always (_ : JsError) : bool := true.

(** The errors after which [withSelectiveRetry] goes on. *)
Definition unflagged (e : JsError) : bool := negb (noRetry e).



End Probe.
Arguments t W A : clear implicits.
Arguments Step A : clear implicits.
End Probe.

(** ** A scripted host

    A host to run the model on: the network answers from a script, one
    answer per request, the file system is a fixed table, time and the
    random source are constant, and whole numbers are rendered in decimal.
    No result is rounded on this host: its runs compute doubles only. *)

Module Scripted.

Definition digits (q : Q) : string :=
  NilZero.string_of_int (Z.to_int (Qfloor q)).

Record Script : Type := {
  answers : list (Settled Response.t);
  files : string -> Settled string
}.

Definition host : Host := {|
  World := Script;
  fetch _ w :=
    match answers w with
    | [] => (Rejected "socket hang up", w)
    | a :: rest => (a, {| answers := rest; files := files w |})
    end;
  fs_readFile path w := (files w path, w);
  timer _ w := w;
  Math_random w := (1 # 2, w);
  HttpsProxyAgent _ := None;
  JSON_stringify _ := "{}";
  render := digits;
  nearest_double q := q;
  Date := Q;
  new_Date _ := 0;
  Date_now _ := 0;
  getDate d := d;
  setDate _ q := q;
  setHours d _ _ _ := d;
  getTime d := d;
  toLocaleString := digits
|}.

Definition no_files (path : string) : Settled string :=
  Rejected ("ENOENT: no such file or directory, open '" ++ path ++ "'").

Definition boot (script : list (Settled Response.t))
    (table : string -> Settled string) : State host :=
  Build_State host {| answers := script; files := table |} [].

Definition answer (code : Z) (payload : JSON) : Settled Response.t :=
  Resolved {| Response.status := code; Response.json := Resolved payload |}.

(** A file system with one account and no proxy file. *)
Definition one_account (path : string) : Settled string :=
  if String.eqb path "data.txt" then Resolved "a@x.com:pw1" else no_files path.

(** A loader that fails. *)
Definition broken_load : M (State host) (list Account.t * list string) :=
  throw (Error "lists unavailable").

(** One line of text per event, to read a trace. *)
Definition glimpse (ev : Event) : string :=
  match ev with
  | Logged _ entry => Log.message entry
  | Slept ms => "sleep " ++ digits ms
  | Fetched r => method r ++ " " ++ url r
  | ReadFile path => "read " ++ path
  end.

Definition story {A} (run : Completion A * State host) : list string :=
  map glimpse (trace (snd run)).

(** An operation that always throws an error flagged [noRetry]. *)
Definition refuse : M (State host) JSON :=
  throw {| message := "refused"; status := Some 400%Z; noRetry := true |}.

(** An operation that always throws a plain error. *)
Definition stumble : M (State host) JSON := throw (Error "stumbled").

End Scripted.

(** ** Reading traces *)

Definition requests_of (evs : list Event) : list Request :=
  flat_map (fun ev => match ev with Fetched r => [r] | _ => [] end) evs.

Definition waits_of (evs : list Event) : list Q :=
  flat_map (fun ev => match ev with Slept ms => [ms] | _ => [] end) evs.

Definition reads_of (evs : list Event) : list string :=
  flat_map (fun ev => match ev with ReadFile path => [path] | _ => [] end) evs.

Definition total (waits : list Q) : Q := fold_right Qplus 0 waits.

(** An event other than a request. *)
Definition no_request (ev : Event) : Prop :=
  match ev with
  | Fetched _ => False
  | _ => True
  end.

(** Whatever the state, [m] only appends events, and the requests among
    them are [requests], in that order. *)
Definition sends {h A} (m : Task h A) (requests : list Request) : Prop :=
  forall s, exists ext,
    trace (snd (m s)) = (trace s ++ ext)%list /\ requests_of ext = requests.

(** ** Observing the scheduler's loop

    To see which proxy the loop hands to which account, it is run with a
    workflow that only tells how it was called: it sends one request whose
    URL, method and agent are the email, the password and the proxy it was
    given, and it ends as that request ends. *)

Definition call (email password : string) (proxy : option string) : Request :=
  {| url := email; method := password; headers := []; body := None;
     agent := proxy |}.

Definition telltale (h : Host) (email password : string)
    (proxy : option string) : Task h unit :=
  await_fetch h (call email password proxy) ;; ret tt.

(** The calls one pass over [accounts] is to make: for each index [i] in
    order, if the account at [i] has both credentials, one call with
    [proxies[i mod proxies.length]], or with no proxy when there is none. *)
Definition assigned (accounts : list Account.t) (proxies : list string)
    : list Request :=
  flat_map
    (fun i =>
       match nth_error accounts i with
       | Some account =>
           match credentials account with
           | Some (email, password) =>
               [call email password
                  (match proxies with
                   | [] => None
                   | _ :: _ => nth_error proxies (i mod List.length proxies)
                   end)]
           | None => []
           end
       | None => []
       end)
    (seq 0 (List.length accounts)).

(** The calls the loop body makes at index [i], as the code picks the
    proxy. *)
Definition body_calls (proxies : list string) (i : nat) (account : Account.t)
    : list Request :=
  match credentials account with
  | Some (email, password) => [call email password (proxy_for proxies i)]
  | None => []
  end.

(** The calls of the loop for [count] indices from [from] on. *)
Definition loop_calls (accounts : list Account.t) (proxies : list string)
    (from count : nat) : list Request :=
  flat_map
    (fun i =>
       match nth_error accounts i with
       | Some account => body_calls proxies i account
       | None => []
       end)
    (seq from count).

(** Awaited timers and log entries among the steps of a probed run. *)
Definition probe_waits {A} (tr : list (Probe.Step A)) : nat :=
  List.length
    (filter (fun st => match st with Probe.Waited _ => true | _ => false end) tr).

Definition probe_entries {A} (tr : list (Probe.Step A)) : nat :=
  List.length
    (filter (fun st => match st with Probe.Logged _ _ => true | _ => false end)
       tr).

(** The text of a file of credential lines. *)
Definition account_line (credential : string * string) : string :=
  fst credential ++ ":" ++ snd credential.

Definition lines_text (lines : list string) : string :=
  Js.join (String JsString.LF EmptyString) lines.

(** A first code unit that survives [trim] and does not start a comment. *)
Definition opens_line (s : string) : bool :=
  match s with
  | String c _ => negb (JsString.isWhiteSpace c) && negb (Ascii.eqb c "#")
  | EmptyString => false
  end.

(** An event other than reading a file. *)
Definition no_read (ev : Event) : Prop :=
  match ev with
  | ReadFile _ => False
  | _ => True
  end.

(** The hours and minutes [main] shows for a wait of [timeUntilNextRun]
    milliseconds. *)
Definition hoursUntilNextRun (timeUntilNextRun : Q) : Q :=
  Math_floor (timeUntilNextRun / (1000 * 60 * 60)).

Definition minutesUntilNextRun (timeUntilNextRun : Q) : Q :=
  Math_floor (js_rem timeUntilNextRun (1000 * 60 * 60) / (1000 * 60)).

(** A line that the loaders keep as it is: it opens well, does not end in
    white space and holds no line feed. *)
Definition tidy_line (line : string) : bool :=
  opens_line line
  && String.eqb (JsString.trimEnd line) line
  && negb (JsString.contains JsString.LF line).

(** A pair of credentials that can be written as [email:password] on a
    line of its own and read back. *)
Definition tidy_credential (credential : string * string) : bool :=
  opens_line (fst credential)
  && JsString.truthy (snd credential)
  && String.eqb (JsString.trimEnd (snd credential)) (snd credential)
  && negb (JsString.contains ":" (fst credential))
  && negb (JsString.contains ":" (snd credential))
  && negb (JsString.contains JsString.LF (fst credential))
  && negb (JsString.contains JsString.LF (snd credential)).

(** ** The plainer variant, [index.js]

    Its loaders are those above; its [proxyFetch] makes one attempt and
    throws plain errors, its workflow reports every failed claim alike, and
    its [main] has no recovery and waits a fixed day between passes. *)

Section IndexJs.
Variable h : Host.

Definition proxyFetch_plain (url method : string) (payloadData : Value)
    (headers : list (string * string)) (proxy : option string)
    : Task h JSON :=
  try_catch
    (options <- (fun s => (fetch_options h url method payloadData headers proxy, s)) ;;
     response <- await_fetch h options ;;
     if negb (Response.ok response) then
       throw (Error ("HTTP error! Status: "
                     ++ num h (inject_Z (Response.status response))))
     else fun s => (settle (Response.json response), s))
    "message"
    (fun error => throw (Error ("Request failed: " ++ message error))).

(** The claim request of [index.js]. *)
Definition claim_request_plain (headers : list (string * string))
    (proxy : option string) (id : Value) : Task h JSON :=
  idText <- template h id ;;
  proxyFetch_plain (earnUrl idText) "GET" (Some JNull) headers proxy.

(** The inner [try { ... } catch (checkinError) { ... }] of [index.js]. *)
Definition checkin_step_plain (email : string)
    (headers : list (string * string)) (proxy : option string) (id : Value)
    : Task h unit :=
  try_catch
    (checkin <- claim_request_plain headers proxy id ;;
     report_checkin h email checkin)
    "message"
    (fun checkinError =>
       log h Log.error
         (Log.tagged email ("Check-in failed: " ++ message checkinError))).

Definition loginAndCheckIn_plain (email password : string)
    (proxy : option string) : Task h unit :=
  log h Log.info (Log.tagged email "Attempting login") ;;
  try_catch
    (let signInPayload :=
       JObj [("email", JStr email); ("password", JStr password)] in
     signIn <- proxyFetch_plain signinUrl "POST" (Some signInPayload)
                 headersTemplate proxy ;;
     if Js.truthy (Js.and_get signIn "accessToken") then
       token <- template h (Js.get "accessToken" signIn) ;;
       let headers :=
         List.app headersTemplate [("Authorization", "Bearer " ++ token)] in
       log h Log.info
         (Log.tagged email "Login succeeded! Fetching user details...") ;;
       user <- proxyFetch_plain usersUrl "GET" (Some JNull) headers proxy ;;
       let source := if Js.truthyJ user then user else JObj [] in
       let id := Js.get "id" source in
       let dipTokenBalance := Js.get "dipTokenBalance" source in
       if Js.truthy id then
         idText <- template h id ;;
         balance <- template h dipTokenBalance ;;
         log h Log.info (Log.tagged email
           ("User id: " ++ idText ++ " | Current points: " ++ balance)) ;;
         log h Log.info (Log.tagged email "Attempting daily check-in...") ;;
         checkin_step_plain email headers proxy id
       else ret tt
     else
       log h Log.error (Log.tagged email "Login failed"))
    "message"
    (fun error =>
       log h Log.error
         (Log.tagged email ("Error during process: " ++ message error))).

(** [main] of [index.js] once the two lists are loaded; each pass of the
    loop uses one unit of [fuel]. *)
Definition startup_plain (fuel : nat) (accounts : list Account.t)
    (proxies : list string) : Task h Progress :=
  if (List.length accounts =? 0)%nat then
    log h Log.error (Log.plain "No accounts found in data.txt") ;;
    ret Finished
  else
    (if (List.length proxies =? 0)%nat then
       log h Log.warn (Log.plain
         "No proxies found in proxy.txt, will proceed without proxies")
     else
       log h Log.info (Log.plain
         ("Loaded " ++ num h (inject_Z (Z.of_nat (List.length proxies)))
          ++ " proxies"))) ;;
    log h Log.info (Log.plain
      ("Loaded " ++ num h (inject_Z (Z.of_nat (List.length accounts)))
       ++ " accounts")) ;;
    forever h fuel (cycle_plain h loginAndCheckIn_plain accounts proxies).

(** [main] of [index.js]. *)
Definition main_plain (fuel : nat) : Task h Progress :=
  accounts <- loadAccounts h ;;
  proxies <- loadProxies h ;;
  startup_plain fuel accounts proxies.

End IndexJs.

(** ** A scripted host that refuses some proxies *)

Module Strict.

(** As [Scripted.host], but no agent can be built for a proxy URL that
    contains a space. *)
Definition host : Host := {|
  World := Scripted.Script;
  fetch := fetch Scripted.host;
  fs_readFile := fs_readFile Scripted.host;
  timer := timer Scripted.host;
  Math_random := Math_random Scripted.host;
  HttpsProxyAgent proxyUrl :=
    if JsString.contains " " proxyUrl then Some "Invalid URL" else None;
  JSON_stringify := JSON_stringify Scripted.host;
  render := Scripted.digits;
  nearest_double := nearest_double Scripted.host;
  Date := Q;
  new_Date := new_Date Scripted.host;
  Date_now := Date_now Scripted.host;
  getDate := getDate Scripted.host;
  setDate := setDate Scripted.host;
  setHours := setHours Scripted.host;
  getTime := getTime Scripted.host;
  toLocaleString := Scripted.digits
|}.

Definition boot (script : list (Settled Response.t))
    (table : string -> Settled string) : State host :=
  Build_State host
    {| Scripted.answers := script; Scripted.files := table |} [].

End Strict.

(** ** A scripted host that rounds as IEEE arithmetic does *)

Module Ieee.

(** [floor (log2 q)] for a positive rational. *)
Definition floor_log2 (q : Q) : Z :=
  let guess := (Z.log2 (Qnum q) - Z.log2 (Z.pos (Qden q)))%Z in
  if Qle_bool (Qpower 2 guess) q then guess else (guess - 1)%Z.

(** Rounding to the nearest whole number, ties to even. *)
Definition round_half_even (q : Q) : Z :=
  let f := Qfloor q in
  match Qcompare (q - inject_Z f) (1 # 2) with
  | Lt => f
  | Gt => (f + 1)%Z
  | Eq => if Z.even f then f else (f + 1)%Z
  end.

(** The double nearest to a rational, ties to even, as IEEE arithmetic
    rounds; a result beyond the largest double, which JavaScript turns into
    [Infinity], is out of reach of the runs on this host. *)
Definition nearest_even (q : Q) : Q :=
  match Qnum q with
  | Z0 => 0
  | _ =>
      let a := Qabs q in
      let e := Z.max (floor_log2 a - 52) (-1074) in
      let m := round_half_even (a / Qpower 2 e) in
      let r := inject_Z m * Qpower 2 e in
      if Qle_bool 0 q then r else - r
  end.

(** As [Scripted.host], with results rounded to the nearest double. *)
Definition host : Host := {|
  World := Scripted.Script;
  fetch := fetch Scripted.host;
  fs_readFile := fs_readFile Scripted.host;
  timer := timer Scripted.host;
  Math_random := Math_random Scripted.host;
  HttpsProxyAgent := HttpsProxyAgent Scripted.host;
  JSON_stringify := JSON_stringify Scripted.host;
  render := Scripted.digits;
  nearest_double := nearest_even;
  Date := Q;
  new_Date := new_Date Scripted.host;
  Date_now := Date_now Scripted.host;
  getDate := getDate Scripted.host;
  setDate := setDate Scripted.host;
  setHours := setHours Scripted.host;
  getTime := getTime Scripted.host;
  toLocaleString := Scripted.digits
|}.

Definition boot (script : list (Settled Response.t))
    (table : string -> Settled string) : State host :=
  Build_State host
    {| Scripted.answers := script; Scripted.files := table |} [].

(** An operation that always throws a plain error. *)
Definition stumble : M (State host) JSON := throw (Error "stumbled").

End Ieee.

(** * Properties *)

(** ** Which results are doubles *)

Lemma odd_part_le (p : positive) : (Number.odd_part p <= p)%positive.
Proof.
  induction p as [p IH|p IH|]; cbn; try lia.
Qed.

Lemma odd_divides_pow2 (p : positive) (e : nat) :
  (Z.pos p~1 | 2 ^ Z.of_nat e)%Z -> False.
Proof.
  induction e as [|e IH]; intros Hd.
  - apply Z.divide_pos_le in Hd; cbn in *; lia.
  - apply IH.
    rewrite Nat2Z.inj_succ, Z.pow_succ_r in Hd by lia.
    apply (Z.gauss _ 2); [exact Hd|].
    apply Z.bezout_1_gcd. exists 1%Z, (- Z.pos p)%Z. lia.
Qed.

Lemma divides_pow2 (p : positive) :
  forall e : nat,
    (Z.pos p | 2 ^ Z.of_nat e)%Z ->
    Number.odd_part p = 1%positive /\ (Z.log2 (Z.pos p) <= Z.of_nat e)%Z.
Proof.
  induction p as [p IH|p IH|]; intros e Hd.
  - destruct (odd_divides_pow2 p e Hd).
  - destruct e as [|e].
    + apply Z.divide_pos_le in Hd; cbn in *; lia.
    + rewrite Nat2Z.inj_succ, Z.pow_succ_r in Hd by lia.
      change (Z.pos p~0) with (2 * Z.pos p)%Z in *.
      apply Z.mul_divide_cancel_l in Hd; [|lia].
      destruct (IH e Hd) as [Ho Hl]. split; [exact Ho|].
      rewrite Z.log2_double by lia. lia.
  - split; [reflexivity|cbn; lia].
Qed.

Lemma is_double_dyadic (q : Q) (m : Z) (e : nat) :
  (e <= 1074)%nat -> (Z.abs m < 2 ^ 53)%Z ->
  q * inject_Z (2 ^ Z.of_nat e) == inject_Z m ->
  Number.is_double q = true.
Proof.
  intros He Hm Hq. unfold Number.is_double. cbv zeta.
  pose proof (Qred_correct q) as Hr.
  pose proof (gcd_Qred q) as Hg.
  set (r := Qred q) in *.
  assert (Hcross : (Qnum r * 2 ^ Z.of_nat e = m * QDen r)%Z).
  { rewrite <- Hr in Hq. unfold Qeq, Qmult, inject_Z in Hq. cbn in Hq.
    rewrite Pos.mul_1_r in Hq. lia. }
  assert (Hdiv : (QDen r | 2 ^ Z.of_nat e)%Z).
  { apply (Z.gauss _ (Qnum r)).
    - exists m. lia.
    - now rewrite Z.gcd_comm. }
  destruct (divides_pow2 (Qden r) e Hdiv) as [Hodd Hlog].
  destruct Hdiv as [c Hc].
  assert (Hpos : (0 < 2 ^ Z.of_nat e)%Z) by (apply Z.pow_pos_nonneg; lia).
  assert (Hcpos : (0 < c)%Z) by nia.
  assert (Hnum : (Qnum r * c = m)%Z) by nia.
  assert (Hle : (Z.abs (Qnum r) <= Z.abs m)%Z) by nia.
  assert (Hbound : forall n, Z.abs (Qnum r) = Z.pos n ->
             Pos.eqb (Number.odd_part (Qden r)) 1
             && (Z.pos (Number.odd_part n) <? 2 ^ 53)%Z
             && (Z.log2 (Z.pos (Qden r)) <=? 1074)%Z
             && (Z.log2 (Z.pos n) <? 1024)%Z = true).
  { intros n Hn. rewrite Hodd. cbn [Pos.eqb andb].
    pose proof (odd_part_le n).
    assert (Z.log2 (Z.pos n) <= Z.log2 (2 ^ 53))%Z
      by (apply Z.log2_le_mono; lia).
    rewrite Z.log2_pow2 in * by lia.
    repeat (apply andb_true_intro; split);
      try apply Z.ltb_lt; try apply Z.leb_le; lia. }
  destruct (Qnum r) as [|n|n]; [reflexivity| |]; now apply Hbound.
Qed.

Lemma power_three_halves (j : nat) :
  Qpower (3 # 2) (Z.of_nat j) * inject_Z (2 ^ Z.of_nat j)
  == inject_Z (3 ^ Z.of_nat j).
Proof.
  destruct j as [|j]; [reflexivity|].
  change (Z.of_nat (Datatypes.S j)) with (Z.pos (Pos.of_succ_nat j)).
  set (p := Pos.of_succ_nat j).
  rewrite Qpower_decomp_pos.
  unfold Qeq, Qmult, inject_Z. cbn [Qnum Qden].
  rewrite Pos.mul_1_r, Z.mul_1_r.
  rewrite Pos2Z.inj_pow. lia.
Qed.

Lemma three_pow_bound (j : nat) :
  (3 ^ Z.of_nat j < 2 ^ 53)%Z -> (j <= 1074)%nat.
Proof.
  intros H.
  assert (Hle : (2 ^ Z.of_nat j <= 3 ^ Z.of_nat j)%Z)
    by (apply Z.pow_le_mono_l; lia).
  assert (Hlt : (2 ^ Z.of_nat j < 2 ^ 53)%Z) by lia.
  apply Z.pow_lt_mono_r_iff in Hlt; lia.
Qed.

Lemma whole_delay_doubles (d : Z) (j : nat) :
  d <> 0%Z ->
  (Z.abs d * 3 ^ Z.of_nat j < 2 ^ 53)%Z ->
  Number.is_double (Qpower (3 # 2) (Z.of_nat j)) = true
  /\ Number.is_double (inject_Z d * Qpower (3 # 2) (Z.of_nat j)) = true.
Proof.
  intros Hd Hlt.
  assert (H3 : (0 < 3 ^ Z.of_nat j)%Z) by (apply Z.pow_pos_nonneg; lia).
  assert (Hpow : (3 ^ Z.of_nat j < 2 ^ 53)%Z) by nia.
  pose proof (three_pow_bound j Hpow) as Hj.
  split.
  - apply (is_double_dyadic _ (3 ^ Z.of_nat j) j Hj); [lia|].
    apply power_three_halves.
  - apply (is_double_dyadic _ (d * 3 ^ Z.of_nat j) j Hj).
    + rewrite Z.abs_mul. lia.
    + rewrite <- Qmult_assoc, power_three_halves.
      unfold Qeq, Qmult, inject_Z. cbn. lia.
Qed.

(** The backoff is exact when the power and the product are doubles. *)
Lemma backoffDelay_of_exact (nearest : Q -> Q) (delay : Q) (attempt : nat) :
  Number.is_double (Qpower (3 # 2) (Z.of_nat attempt - 1)) = true ->
  Number.is_double (delay * Qpower (3 # 2) (Z.of_nat attempt - 1)) = true ->
  backoffDelay_of nearest delay attempt = Probe.backoffDelay delay attempt.
Proof.
  intros Hpow Hprod.
  unfold backoffDelay_of, Math_pow, Number.times, Number.result,
    Probe.backoffDelay.
  now rewrite Hpow, Hprod.
Qed.

(** So it is for a whole base delay [d] and attempt [k] with
    [|d| * 3^(k-1) < 2^53]. *)
Lemma backoffDelay_of_whole (nearest : Q -> Q) (d : Z) (attempt : nat) :
  d <> 0%Z -> (1 <= attempt)%nat ->
  (Z.abs d * 3 ^ (Z.of_nat attempt - 1) < 2 ^ 53)%Z ->
  backoffDelay_of nearest (inject_Z d) attempt
  = Probe.backoffDelay (inject_Z d) attempt.
Proof.
  intros Hd Hk Hlt.
  replace (Z.of_nat attempt - 1)%Z with (Z.of_nat (attempt - 1)) in Hlt by lia.
  destruct (whole_delay_doubles d (attempt - 1) Hd Hlt) as [Hpow Hprod].
  apply backoffDelay_of_exact;
    now replace (Z.of_nat attempt - 1)%Z with (Z.of_nat (attempt - 1)) by lia.
Qed.

(** ** The retry policies *)

Section RetryFacts.
Context {W A : Type} `{Runtime W}.
Import Probe.

Lemma calls_app (x y : list (Step A)) : calls (x ++ y) = (calls x + calls y)%nat.
Proof. unfold calls. now rewrite filter_app, length_app. Qed.

Lemma backoff_last (p : Probe.t W A) retries delay attempt e :
  (attempt <? retries)%nat = false ->
  backoff retries delay attempt e p = (Normal tt, p).
Proof. intros E. unfold backoff. now rewrite E. Qed.

Lemma backoff_wait (p : Probe.t W A) retries delay attempt e :
  (attempt <? retries)%nat = true ->
  exists entry p',
    backoff retries delay attempt e p = (Normal tt, p') /\
    steps p' = (steps p ++ [Logged Log.warn entry;
                            Waited (computed delay attempt)])%list.
Proof.
  intros E. unfold backoff. rewrite E.
  eexists. eexists. split.
  - reflexivity.
  - cbn. now rewrite <- app_assoc.
Qed.

Lemma probed_eq (fn : M W A) (p : Probe.t W A) r w :
  fn (inner p) = (r, w) -> probed fn p = (r, note (Invoked r) p w).
Proof. intros E. unfold probed. now rewrite E. Qed.

End RetryFacts.

Section RetryRuns.
Context {W A : Type} `{Runtime W}.
Import Probe.


Lemma withRetry_loop_run (fn : M W A) retries delay :
  forall m a last (p : Probe.t W A),
    (a + m = Datatypes.S retries)%nat -> (1 <= m)%nat ->
    exists ext,
      steps (snd (withRetry_loop (probed fn) retries delay (seq a m) last p))
      = (steps p ++ ext)%list
      /\ Run retries delay always a ext
           (fst (withRetry_loop (probed fn) retries delay (seq a m) last p)).
Proof.
  induction m as [|m IH]; intros a last p Ha Hm; [lia|].
  cbn [seq withRetry_loop].
  destruct (fn (inner p)) as [[v|e|] w] eqn:Efn;
    rewrite (probed_eq fn p _ _ Efn).
  - exists [Invoked (Normal v)]. split; [reflexivity|constructor].
  - unfold bind. destruct (a <? retries)%nat eqn:Ea.
    + destruct (backoff_wait (note (Invoked (Thrown e)) p w) retries delay a e Ea)
        as (entry & p' & -> & Hp').
      apply Nat.ltb_lt in Ea.
      destruct (IH (Datatypes.S a) (Some e) p') as (ext & Hs & Hr); [lia|lia|].
      exists (Invoked (Thrown e) :: Logged Log.warn entry
              :: Waited (computed delay a) :: ext).
      split.
      * rewrite Hs, Hp'. cbn. now rewrite <- !app_assoc.
      * now apply Run_retry.
    + rewrite backoff_last by exact Ea.
      apply Nat.ltb_ge in Ea.
      assert (m = 0%nat) by lia. subst m.
      assert (a = retries) by lia. subst a.
      exists [Invoked (Thrown e)]. split; [reflexivity|].
      now apply Run_exhausted.
  - exists [Invoked ThrownUndefined].
    destruct (a <? retries)%nat eqn:Ea.
    + split; [reflexivity|constructor].
    + apply Nat.ltb_ge in Ea.
      assert (m = 0%nat) by lia. subst m.
      split; [reflexivity|constructor].
Qed.

Lemma withSelectiveRetry_loop_run (fn : M W A) retries delay :
  forall m a last (p : Probe.t W A),
    (a + m = Datatypes.S retries)%nat -> (1 <= m)%nat ->
    exists ext,
      steps (snd (withSelectiveRetry_loop (probed fn) retries delay
                    (seq a m) last p))
      = (steps p ++ ext)%list
      /\ Run retries delay unflagged a ext
           (fst (withSelectiveRetry_loop (probed fn) retries delay
                   (seq a m) last p)).
Proof.
  induction m as [|m IH]; intros a last p Ha Hm; [lia|].
  cbn [seq withSelectiveRetry_loop].
  destruct (fn (inner p)) as [[v|e|] w] eqn:Efn;
    rewrite (probed_eq fn p _ _ Efn).
  - exists [Invoked (Normal v)]. split; [reflexivity|constructor].
  - destruct (noRetry e) eqn:Eflag.
    { exists [Invoked (Thrown e)]. split; [reflexivity|].
      apply Run_halt. unfold unflagged. now rewrite Eflag. }
    unfold bind. destruct (a <? retries)%nat eqn:Ea.
    + destruct (backoff_wait (note (Invoked (Thrown e)) p w) retries delay a e Ea)
        as (entry & p' & -> & Hp').
      apply Nat.ltb_lt in Ea.
      destruct (IH (Datatypes.S a) (Some e) p') as (ext & Hs & Hr); [lia|lia|].
      exists (Invoked (Thrown e) :: Logged Log.warn entry
              :: Waited (computed delay a) :: ext).
      split.
      * rewrite Hs, Hp'. cbn. now rewrite <- !app_assoc.
      * apply Run_retry; [unfold unflagged; now rewrite Eflag|exact Ea|exact Hr].
    + rewrite backoff_last by exact Ea.
      apply Nat.ltb_ge in Ea.
      assert (m = 0%nat) by lia. subst m.
      assert (a = retries) by lia. subst a.
      exists [Invoked (Thrown e)]. split; [reflexivity|].
      apply Run_exhausted. unfold unflagged. now rewrite Eflag.
  - exists [Invoked ThrownUndefined]. split; [reflexivity|constructor].
Qed.

End RetryRuns.

(** Consequences of the shape of a run. *)

Section RunFacts.
Context {W A : Type} `{Runtime W}.
Import Probe.
Variables (retries : nat) (delay : Q) (retryable : JsError -> bool).

Lemma single_split {T} (x y : T) pre post :
  [x] = (pre ++ y :: post)%list -> pre = [] /\ x = y /\ post = [].
Proof.
  destruct pre as [|z pre]; cbn; intros E.
  - now inversion E.
  - inversion E as [[E1 E2]]. now destruct pre.
Qed.






Lemma Run_halts a (tr : list (Step A)) r :
  Run retries delay retryable a tr r ->
  forall pre e post,
    tr = (pre ++ Invoked (Thrown e) :: post)%list ->
    retryable e = false ->
    post = [] /\ r = Thrown e.
Proof.
  induction 1 as [a v|a r|a e0 He0|e0 He0|a e0 entry tr r He0 Ha HR IH];
    intros pre e post Etr He.
  - apply single_split in Etr as (_ & Ex & _). discriminate.
  - apply single_split in Etr as (_ & Ex & _). discriminate.
  - apply single_split in Etr as (_ & Ex & ->). now inversion Ex; subst.
  - apply single_split in Etr as (_ & Ex & ->). now inversion Ex; subst.
  - destruct pre as [|x1 pre].
    + cbn in Etr. inversion Etr; subst. congruence.
    + cbn in Etr. inversion Etr as [[E1 E2]].
      destruct pre as [|x2 pre]; [discriminate|].
      cbn in E2. inversion E2 as [[E3 E4]].
      destruct pre as [|x3 pre]; [discriminate|].
      cbn in E4. inversion E4 as [[E5 E6]].
      now apply (IH pre e post).
Qed.

End RunFacts.

(** Probing does not change what a policy does: the completion is the same
    and the wrapped state ends as the unwrapped run ends. *)

Section PolicyFacts.
Context {W A : Type} `{Runtime W}.
Import Probe.

Lemma backoff_erasure retries delay attempt e (p : Probe.t W A) :
  fst (backoff retries delay attempt e p) = Normal tt /\
  backoff retries delay attempt e (inner p)
  = (Normal tt, inner (snd (backoff retries delay attempt e p))).
Proof.
  unfold backoff. destruct (attempt <? retries)%nat; now split.
Qed.

Lemma withRetry_loop_erasure (fn : M W A) retries delay attempts :
  forall last (p : Probe.t W A),
    withRetry_loop fn retries delay attempts last (inner p)
    = (fst (withRetry_loop (probed fn) retries delay attempts last p),
       inner (snd (withRetry_loop (probed fn) retries delay attempts last p))).
Proof.
  induction attempts as [|a later IH]; intros last p.
  - now destruct last.
  - cbn [withRetry_loop].
    destruct (fn (inner p)) as [[v|e|] w] eqn:Efn;
      rewrite (probed_eq fn p _ _ Efn).
    + reflexivity.
    + unfold bind.
      destruct (backoff_erasure retries delay a e (note (Invoked (Thrown e)) p w))
        as (E1 & E2).
      cbn [inner note] in E2. rewrite E2.
      destruct (backoff retries delay a e (note (Invoked (Thrown e)) p w))
        as [c p'].
      cbn in E1. subst c. cbn [snd]. apply IH.
    + destruct (a <? retries)%nat; [reflexivity|].
      apply (IH None (note (Invoked ThrownUndefined) p w)).
Qed.

Lemma withSelectiveRetry_loop_erasure (fn : M W A) retries delay attempts :
  forall last (p : Probe.t W A),
    withSelectiveRetry_loop fn retries delay attempts last (inner p)
    = (fst (withSelectiveRetry_loop (probed fn) retries delay attempts last p),
       inner (snd (withSelectiveRetry_loop (probed fn) retries delay
                     attempts last p))).
Proof.
  induction attempts as [|a later IH]; intros last p.
  - now destruct last.
  - cbn [withSelectiveRetry_loop].
    destruct (fn (inner p)) as [[v|e|] w] eqn:Efn;
      rewrite (probed_eq fn p _ _ Efn).
    + reflexivity.
    + destruct (noRetry e); [reflexivity|].
      unfold bind.
      destruct (backoff_erasure retries delay a e (note (Invoked (Thrown e)) p w))
        as (E1 & E2).
      cbn [inner note] in E2. rewrite E2.
      destruct (backoff retries delay a e (note (Invoked (Thrown e)) p w))
        as [c p'].
      cbn in E1. subst c. cbn [snd]. apply IH.
    + reflexivity.
Qed.

(** The probed policies compute what the policies compute. *)
Lemma probe_erasure (fn : M W A) retries delay (w : W) :
  withRetry fn retries delay w
  = (fst (withRetry (probed fn) retries delay (start w)),
     inner (snd (withRetry (probed fn) retries delay (start w))))
  /\ withSelectiveRetry fn retries delay w
     = (fst (withSelectiveRetry (probed fn) retries delay (start w)),
        inner (snd (withSelectiveRetry (probed fn) retries delay (start w)))).
Proof.
  split.
  - apply (withRetry_loop_erasure fn retries delay _ None (start w)).
  - apply (withSelectiveRetry_loop_erasure fn retries delay _ None (start w)).
Qed.



(** C2. Under the selective policy, a call of the operation that throws an
    error flagged [noRetry] is the last step of the run - no warning, no
    wait and no further call follow it, however many attempts remain - and
    the policy fails with that error. *)
Theorem noRetry_halts_policy (fn : M W A) (n : nat) (delay : Q) (w : W)
    (pre post : list (Step A)) (e : JsError) :
  steps (snd (withSelectiveRetry (probed fn) n delay (start w)))
  = (pre ++ Invoked (Thrown e) :: post)%list ->
  noRetry e = true ->
  post = [] /\ fst (withSelectiveRetry (probed fn) n delay (start w)) = Thrown e.
Proof.
  intros Etr He.
  destruct n as [|n].
  - cbn in Etr. now destruct pre.
  - destruct (withSelectiveRetry_loop_run fn (Datatypes.S n) delay
                (Datatypes.S n) 1 None (start w)) as (ext & Hs & HR); [lia|lia|].
    cbn [steps start app] in Hs.
    unfold withSelectiveRetry in *. rewrite Hs in Etr.
    apply (Run_halts _ _ _ _ _ _ HR pre e post Etr).
    unfold unflagged. now rewrite He.
Qed.

End PolicyFacts.



(** The steps of that run: three calls, waits of 2000 and 3000. *)
Example stumble_steps :
  map (fun st => match st with
                 | Probe.Invoked _ => "call"
                 | Probe.Logged _ e => Log.message e
                 | Probe.Waited ms => Scripted.digits ms
                 end)
      (Probe.steps (snd (withRetry (Probe.probed Scripted.stumble) 3 2000
                           (Probe.start (Scripted.boot [] Scripted.no_files)))))
  = ["call"; "Attempt 1 failed. Retrying in 2s... Error: stumbled"; "2000";
     "call"; "Attempt 2 failed. Retrying in 3s... Error: stumbled"; "3000";
     "call"].
Proof. vm_compute. reflexivity. Qed.

Lemma noRetry_halts_policy_witness :
  Probe.steps (snd (withSelectiveRetry (Probe.probed Scripted.refuse) 3 2000
                      (Probe.start (Scripted.boot [] Scripted.no_files))))
  = ([] ++ Probe.Invoked
             (Thrown {| message := "refused"; status := Some 400%Z;
                        noRetry := true |}) :: [])%list
  /\ fst (withSelectiveRetry (Probe.probed Scripted.refuse) 3 2000
            (Probe.start (Scripted.boot [] Scripted.no_files)))
     = Thrown {| message := "refused"; status := Some 400%Z; noRetry := true |}.
Proof.
  split; [reflexivity|].
  apply (noRetry_halts_policy Scripted.refuse 3 2000
           (Scripted.boot [] Scripted.no_files) [] []); reflexivity.
Defined.

(** ** The request executor *)

Lemma prefix_app (needle rest : string) :
  String.prefix needle (needle ++ rest) = true.
Proof.
  induction needle as [|c needle IH]; cbn.
  - now destruct rest.
  - destruct (ascii_dec c c); [exact IH|congruence].
Qed.

Lemma includes_prefix (needle s : string) :
  String.prefix needle s = true -> JsString.includes needle s = true.
Proof. intros E. destruct s; cbn [JsString.includes]; now rewrite E. Qed.

Lemma includes_app (pre needle post : string) :
  JsString.includes needle (pre ++ needle ++ post) = true.
Proof.
  induction pre as [|c pre IH].
  - change ("" ++ needle ++ post) with (needle ++ post).
    apply includes_prefix, prefix_app.
  - cbn [append JsString.includes]. rewrite IH. apply orb_true_r.
Qed.

Section ExecutorFacts.
Variable h : Host.

(** C3. One attempt of the request executor, by what the host answers to
    the request: a response that is not ok gives a failure that carries
    the status and is flagged [noRetry] exactly when the status is 400 and
    the URL contains [/users/earn/]; a rejected [fetch] and a body that
    cannot be read give failures that are not flagged.  Of the URLs the
    workflow uses, exactly the reward-claim ones contain [/users/earn/]. *)
Theorem executeFetch_classification (url method : string)
    (payloadData : Value) (headers : list (string * string))
    (proxy : option string) (s : State h) (request : Request) :
  fetch_options h url method payloadData headers proxy = Normal request ->
  match fetch h request (world s) with
  | (Resolved response, w) =>
      if Response.ok response then
        executeFetch h url method payloadData headers proxy s
        = (match Response.json response with
           | Resolved payload => Normal payload
           | Rejected msg => Thrown (Error ("Request failed: " ++ msg))
           end, sent h s request w)
      else
        Response.status response <> 0%Z ->
        exists e,
          executeFetch h url method payloadData headers proxy s
          = (Thrown e, sent h s request w)
          /\ status e = Some (Response.status response)
          /\ (noRetry e = true <->
              Response.status response = 400%Z
              /\ JsString.includes "/users/earn/" url = true)
  | (Rejected msg, w) =>
      executeFetch h url method payloadData headers proxy s
      = (Thrown (Error ("Request failed: " ++ msg)), sent h s request w)
  end
  /\ (forall id, JsString.includes "/users/earn/" (earnUrl id) = true)
  /\ JsString.includes "/users/earn/" signinUrl = false
  /\ JsString.includes "/users/earn/" usersUrl = false.
Proof.
  intros Hopt. split; [|split; [|split]].
  - unfold executeFetch, try_catch, bind. rewrite Hopt.
    unfold await_fetch.
    destruct (fetch h request (world s)) as [[response|msg] w] eqn:Efetch.
    + cbn [settle]. destruct (Response.ok response) eqn:Eok; cbn [negb].
      * destruct (Response.json response); reflexivity.
      * intros Hst. unfold throw, http_error.
        assert (E0 : (Response.status response =? 0)%Z = false)
          by now apply Z.eqb_neq.
        destruct (JsString.includes "/users/earn/" url) eqn:Einc;
          destruct (Response.status response =? 400)%Z eqn:E400;
          cbn [andb];
          (eexists; split; [reflexivity|]);
          unfold enhance; cbn [message status noRetry truthy_status];
          rewrite E0; cbn [negb]; (split; [reflexivity|]).
        -- apply Z.eqb_eq in E400. tauto.
        -- apply Z.eqb_neq in E400. split; [discriminate|tauto].
        -- split; [discriminate|]. intros [_ ?]. discriminate.
        -- split; [discriminate|]. intros [_ ?]. discriminate.
    + reflexivity.
  - intros id.
    apply (includes_app "https://node.securitylabs.xyz/api/v1" "/users/earn/" id).
  - vm_compute. reflexivity.
  - vm_compute. reflexivity.
Qed.

End ExecutorFacts.

Lemma executeFetch_classification_witness :
  exists e,
    executeFetch Scripted.host (earnUrl "7") "GET" (Some JNull)
      headersTemplate None
      (Scripted.boot [Scripted.answer 400 JNull] Scripted.no_files)
    = (Thrown e,
       sent Scripted.host
         (Scripted.boot [Scripted.answer 400 JNull] Scripted.no_files)
         {| url := earnUrl "7"; method := "GET"; headers := headersTemplate;
            body := None; agent := None |}
         {| Scripted.answers := []; Scripted.files := Scripted.no_files |})
    /\ status e = Some 400%Z
    /\ (noRetry e = true <->
        400%Z = 400%Z /\ JsString.includes "/users/earn/" (earnUrl "7") = true).
Proof.
  destruct (executeFetch_classification Scripted.host (earnUrl "7") "GET"
              (Some JNull) headersTemplate None
              (Scripted.boot [Scripted.answer 400 JNull] Scripted.no_files)
              {| url := earnUrl "7"; method := "GET";
                 headers := headersTemplate; body := None; agent := None |}
              eq_refl) as [Hrun _].
  apply Hrun. discriminate.
Defined.

(** ** What computations add to the trace *)

Section TraceFacts.
Variable h : Host.

Lemma emits_ret {A} (P : Event -> Prop) (a : A) : emits h P (ret a).
Proof. intros s. exists []. cbn. now rewrite app_nil_r. Qed.

Lemma emits_still {A} (P : Event -> Prop) (f : State h -> Completion A) :
  emits h P (fun s => (f s, s)).
Proof. intros s. exists []. cbn. now rewrite app_nil_r. Qed.

Lemma emits_throw {A} (P : Event -> Prop) (e : JsError) :
  emits h P (@throw (State h) A e).
Proof. apply (emits_still P (fun _ => Thrown e)). Qed.

Lemma emits_template (P : Event -> Prop) (v : Value) : emits h P (template h v).
Proof.
  unfold template. destruct (toString h v); [apply emits_ret|apply emits_throw].
Qed.

Lemma emits_log (P : Event -> Prop) level entry :
  P (Logged level entry) -> emits h P (log h level entry).
Proof. intros HP s. exists [Logged level entry]. cbn. auto. Qed.

Lemma emits_sleep (P : Event -> Prop) ms :
  P (Slept ms) -> emits h P (sleep h ms).
Proof. intros HP s. exists [Slept ms]. cbn. auto. Qed.

Lemma emits_random (P : Event -> Prop) : emits h P (random h).
Proof.
  intros s. exists []. unfold random.
  destruct (Math_random h (world s)). cbn. now rewrite app_nil_r.
Qed.

Lemma emits_await_fetch (P : Event -> Prop) request :
  P (Fetched request) -> emits h P (await_fetch h request).
Proof.
  intros HP s. exists [Fetched request]. unfold await_fetch.
  destruct (fetch h request (world s)). cbn. auto.
Qed.

Lemma emits_await_readFile (P : Event -> Prop) path :
  P (ReadFile path) -> emits h P (await_readFile h path).
Proof.
  intros HP s. exists [ReadFile path]. unfold await_readFile.
  destruct (fs_readFile h path (world s)). cbn. auto.
Qed.

Lemma emits_bind {A B} (P : Event -> Prop) (m : Task h A) (k : A -> Task h B) :
  emits h P m -> (forall a, emits h P (k a)) -> emits h P (bind m k).
Proof.
  intros Hm Hk s. unfold bind.
  destruct (Hm s) as (ext1 & E1 & F1).
  destruct (m s) as [[a|e|] s1]; cbn [snd] in *; eauto.
  destruct (Hk a s1) as (ext2 & E2 & F2).
  exists (ext1 ++ ext2)%list. split.
  - now rewrite E2, E1, app_assoc.
  - now apply Forall_app.
Qed.

Lemma emits_try_catch {A} (P : Event -> Prop) (m : Task h A) prop
    (handler : JsError -> Task h A) :
  emits h P m -> (forall e, emits h P (handler e)) ->
  emits h P (try_catch m prop handler).
Proof.
  intros Hm Hk s. unfold try_catch.
  destruct (Hm s) as (ext1 & E1 & F1).
  destruct (m s) as [[a|e|] s1]; cbn [snd] in *; eauto.
  destruct (Hk e s1) as (ext2 & E2 & F2).
  exists (ext1 ++ ext2)%list. split.
  - now rewrite E2, E1, app_assoc.
  - now apply Forall_app.
Qed.

Lemma emits_weaken {A} (P Q : Event -> Prop) (m : Task h A) :
  (forall ev, P ev -> Q ev) -> emits h P m -> emits h Q m.
Proof.
  intros HPQ Hm s. destruct (Hm s) as (ext & E & F).
  exists ext. split; [exact E|]. eapply Forall_impl; eauto.
Qed.

(** The retry policies add only warnings and waits to what the operation
    adds. *)
Section Policies.
Context {A : Type} (P : Event -> Prop) (fn : Task h A).
Hypothesis fn_emits : emits h P fn.
Hypothesis warn_ok : forall msg, P (Logged Log.warn (Log.plain msg)).
Hypothesis wait_ok : forall ms, P (Slept ms).

Lemma emits_backoff retries delay attempt e :
  emits h P (backoff retries delay attempt e).
Proof.
  unfold backoff. destruct (attempt <? retries)%nat.
  - apply emits_bind; [apply (emits_log P), warn_ok|intros _].
    apply (emits_sleep P), wait_ok.
  - apply emits_ret.
Qed.

Lemma emits_withSelectiveRetry_loop retries delay attempts last :
  emits h P (withSelectiveRetry_loop fn retries delay attempts last).
Proof.
  revert last. induction attempts as [|a later IH]; intros last s.
  - exists []. destruct last; cbn; now rewrite app_nil_r.
  - cbn [withSelectiveRetry_loop].
    destruct (fn_emits s) as (ext1 & E1 & F1).
    destruct (fn s) as [[v|e|] s1]; cbn [snd] in *; eauto.
    destruct (noRetry e); [eauto|].
    destruct (emits_bind P (backoff retries delay a e)
                (fun _ => withSelectiveRetry_loop fn retries delay later (Some e))
                (emits_backoff retries delay a e) (fun _ => IH (Some e)) s1)
      as (ext2 & E2 & F2).
    exists (ext1 ++ ext2)%list. split.
    + now rewrite E2, E1, app_assoc.
    + now apply Forall_app.
Qed.

Lemma emits_withRetry_loop retries delay attempts last :
  emits h P (withRetry_loop fn retries delay attempts last).
Proof.
  revert last. induction attempts as [|a later IH]; intros last s.
  - exists []. destruct last; cbn; now rewrite app_nil_r.
  - cbn [withRetry_loop].
    destruct (fn_emits s) as (ext1 & E1 & F1).
    destruct (fn s) as [[v|e|] s1]; cbn [snd] in *; eauto.
    + destruct (emits_bind P (backoff retries delay a e)
                  (fun _ => withRetry_loop fn retries delay later (Some e))
                  (emits_backoff retries delay a e) (fun _ => IH (Some e)) s1)
        as (ext2 & E2 & F2).
      exists (ext1 ++ ext2)%list. split.
      * now rewrite E2, E1, app_assoc.
      * now apply Forall_app.
    + destruct (a <? retries)%nat; [eauto|].
      destruct (IH None s1) as (ext2 & E2 & F2).
      exists (ext1 ++ ext2)%list. split.
      * now rewrite E2, E1, app_assoc.
      * now apply Forall_app.
Qed.

End Policies.

Lemma fetch_options_sends target method payloadData headers proxy request :
  fetch_options h target method payloadData headers proxy = Normal request ->
  url request = target /\ agent request = agent_for proxy.
Proof.
  unfold fetch_options, agent_for.
  destruct proxy as [p|].
  - destruct (JsString.truthy p).
    + destruct (HttpsProxyAgent h ("http://" ++ p)); [discriminate|].
      intros E. inversion E. now split.
    + intros E. inversion E. now split.
  - intros E. inversion E. now split.
Qed.

Lemma emits_executeFetch (P : Event -> Prop) target method payloadData
    headers proxy :
  (forall r, url r = target -> agent r = agent_for proxy -> P (Fetched r)) ->
  emits h P (executeFetch h target method payloadData headers proxy).
Proof.
  intros HP. unfold executeFetch.
  apply emits_try_catch; [|intros e; apply emits_throw].
  intros s. unfold bind.
  destruct (fetch_options h target method payloadData headers proxy)
    as [request| |] eqn:Eopt; try (exists []; cbn; now rewrite app_nil_r).
  destruct (fetch_options_sends _ _ _ _ _ _ Eopt) as [Hu Ha].
  apply (emits_bind P (await_fetch h request)).
  - apply emits_await_fetch. now apply HP.
  - intros response. destruct (negb (Response.ok response)).
    + apply emits_throw.
    + apply (emits_still P (fun _ => settle (Response.json response))).
Qed.

Lemma emits_proxyFetch target method payloadData headers proxy :
  emits h (of_proxyFetch target proxy)
    (proxyFetch h target method payloadData headers proxy).
Proof.
  unfold proxyFetch, withSelectiveRetry.
  apply emits_withSelectiveRetry_loop.
  - apply emits_executeFetch. intros r Hu Ha. now split.
  - reflexivity.
  - exact (fun _ => I).
Qed.

End TraceFacts.

(** ** A profile without identifier *)

Section SilentStop.
Variable h : Host.

Lemma and_get_truthy (v : JSON) (key : string) :
  Js.truthy (Js.get key v) = true -> Js.and_get v key = Js.get key v.
Proof.
  unfold Js.and_get. destruct v; cbn; try discriminate; reflexivity.
Qed.

Lemma no_id_in_source (user : JSON) :
  Js.truthy (Js.get "id" user) = false ->
  Js.truthy (Js.get "id" (if Js.truthyJ user then user else JObj [])) = false.
Proof. intros E. now destruct (Js.truthyJ user). Qed.

Lemma of_proxyFetch_routine email proxy ev :
  of_proxyFetch signinUrl proxy ev \/ of_proxyFetch usersUrl proxy ev ->
  routine email ev.
Proof.
  destruct ev as [[| |] entry|ms|r|path]; cbn; tauto.
Qed.

(** C9. When sign-in answers with an access token (one that has a text to
    send as bearer) and the profile answers with a payload that has no
    identifier, the workflow returns right after the profile request: from
    its start it has added to the trace only the two info entries of normal
    progress, requests to the sign-in and profile URLs (none to the
    reward-claim URL) and the warnings and waits of the retry policy; no
    error entry. *)
Theorem no_identifier_stops_silently (email password : string)
    (proxy : option string) (s s1 s2 : State h) (signIn user : JSON)
    (token : string) :
  proxyFetch h signinUrl "POST"
    (Some (JObj [("email", JStr email); ("password", JStr password)]))
    headersTemplate proxy (logged h Log.info email "Attempting login" s)
  = (Normal signIn, s1) ->
  Js.truthy (Js.get "accessToken" signIn) = true ->
  toString h (Js.get "accessToken" signIn) = Some token ->
  proxyFetch h usersUrl "GET" (Some JNull)
    (List.app headersTemplate [("Authorization", "Bearer " ++ token)])
    proxy
    (logged h Log.info email "Login succeeded! Fetching user details..." s1)
  = (Normal user, s2) ->
  Js.truthy (Js.get "id" user) = false ->
  loginAndCheckIn h email password proxy s = (Normal tt, s2)
  /\ exists ext,
       trace s2 = (trace s ++ ext)%list /\ Forall (routine email) ext.
Proof.
  intros Hsign Htoken Htext Huser Hid. split.
  - unfold loginAndCheckIn, bind, try_catch.
    change (log h Log.info (Log.tagged email "Attempting login") s)
      with (Normal tt, logged h Log.info email "Attempting login" s).
    cbv beta iota.
    rewrite Hsign, (and_get_truthy signIn "accessToken" Htoken), Htoken.
    unfold template. rewrite Htext. unfold ret.
    cbv beta iota.
    change (log h Log.info
              (Log.tagged email "Login succeeded! Fetching user details...") s1)
      with (Normal tt,
            logged h Log.info email "Login succeeded! Fetching user details..." s1).
    cbv beta iota. rewrite Huser. unfold after_profile. cbv zeta.
    now rewrite (no_id_in_source user Hid).
  - destruct (emits_proxyFetch h signinUrl "POST"
                (Some (JObj [("email", JStr email); ("password", JStr password)]))
                headersTemplate proxy
                (logged h Log.info email "Attempting login" s))
      as (ext1 & E1 & F1).
    rewrite Hsign in E1. cbn [snd] in E1.
    destruct (emits_proxyFetch h usersUrl "GET" (Some JNull)
                (List.app headersTemplate
                   [("Authorization", "Bearer " ++ token)])
                proxy
                (logged h Log.info email
                   "Login succeeded! Fetching user details..." s1))
      as (ext2 & E2 & F2).
    rewrite Huser in E2. cbn [snd] in E2.
    exists ([Logged Log.info (Log.tagged email "Attempting login")] ++ ext1
            ++ [Logged Log.info
                  (Log.tagged email "Login succeeded! Fetching user details...")]
            ++ ext2)%list.
    split.
    + rewrite E2. cbn [logged record trace]. rewrite E1.
      cbn [logged record trace]. now rewrite <- !app_assoc.
    + apply Forall_app; split.
      * constructor; [now left|constructor].
      * apply Forall_app; split.
        -- eapply Forall_impl; [|exact F1].
           intros ev Hev. apply of_proxyFetch_routine with (proxy := proxy).
           now left.
        -- apply Forall_app; split.
           ++ constructor; [now right|constructor].
           ++ eapply Forall_impl; [|exact F2].
              intros ev Hev. apply of_proxyFetch_routine with (proxy := proxy).
              now right.
Qed.

End SilentStop.

Lemma no_identifier_stops_silently_witness :
  exists s2,
    loginAndCheckIn Scripted.host "a@x.com" "pw1" None
      (Scripted.boot
         [Scripted.answer 200 (JObj [("accessToken", JStr "t0k")]);
          Scripted.answer 200 (JObj [("dipTokenBalance", JNum 3)])]
         Scripted.no_files)
    = (Normal tt, s2)
    /\ exists ext,
         trace s2 = ([] ++ ext)%list /\ Forall (routine "a@x.com") ext.
Proof.
  eexists.
  eapply (no_identifier_stops_silently Scripted.host "a@x.com" "pw1" None
            (Scripted.boot
               [Scripted.answer 200 (JObj [("accessToken", JStr "t0k")]);
                Scripted.answer 200 (JObj [("dipTokenBalance", JNum 3)])]
               Scripted.no_files)
            _ _ (JObj [("accessToken", JStr "t0k")])
            (JObj [("dipTokenBalance", JNum 3)]) "t0k");
    reflexivity.
Defined.

(** ** Completions *)

Section CompletionFacts.
Variable h : Host.

Lemma returns_defined {A} (m : Task h A) :
  always_returns h m -> never_undefined h m.
Proof. intros Hm s. destruct (Hm s) as (a & E). now rewrite E. Qed.

Lemma returns_ret {A} (a : A) : always_returns h (ret a).
Proof. intros s. now exists a. Qed.

Lemma returns_log level entry : always_returns h (log h level entry).
Proof. intros s. now exists tt. Qed.

Lemma returns_sleep ms : always_returns h (sleep h ms).
Proof. intros s. now exists tt. Qed.

Lemma returns_random : always_returns h (random h).
Proof.
  intros s. unfold random. destruct (Math_random h (world s)) as [r w].
  now exists r.
Qed.

Lemma returns_bind {A B} (m : Task h A) (k : A -> Task h B) :
  always_returns h m -> (forall a, always_returns h (k a)) ->
  always_returns h (bind m k).
Proof.
  intros Hm Hk s. unfold bind. destruct (Hm s) as (a & E).
  destruct (m s) as [c s1]. cbn in E. subst c. apply Hk.
Qed.

Lemma returns_try_catch {A} (m : Task h A) prop (handler : JsError -> Task h A) :
  never_undefined h m -> (forall e, always_returns h (handler e)) ->
  always_returns h (try_catch m prop handler).
Proof.
  intros Hm Hk s. unfold try_catch. specialize (Hm s).
  destruct (m s) as [[a|e|] s1]; cbn in *.
  - now exists a.
  - apply Hk.
  - congruence.
Qed.

Lemma defined_throw {A} (e : JsError) : never_undefined h (@throw (State h) A e).
Proof. intros s. discriminate. Qed.

Lemma defined_template (v : Value) : never_undefined h (template h v).
Proof. intros s. unfold template. destruct (toString h v); discriminate. Qed.

Lemma defined_bind {A B} (m : Task h A) (k : A -> Task h B) :
  never_undefined h m -> (forall a, never_undefined h (k a)) ->
  never_undefined h (bind m k).
Proof.
  intros Hm Hk s. unfold bind. specialize (Hm s).
  destruct (m s) as [[a|e|] s1]; cbn in *.
  - apply Hk.
  - discriminate.
  - congruence.
Qed.

Lemma defined_await_fetch request : never_undefined h (await_fetch h request).
Proof.
  intros s. unfold await_fetch.
  destruct (fetch h request (world s)) as [[r|msg] w]; discriminate.
Qed.

Lemma defined_await_readFile path : never_undefined h (await_readFile h path).
Proof.
  intros s. unfold await_readFile.
  destruct (fs_readFile h path (world s)) as [[r|msg] w]; discriminate.
Qed.

Lemma defined_executeFetch target method payloadData headers proxy :
  never_undefined h (executeFetch h target method payloadData headers proxy).
Proof.
  intros s. unfold executeFetch, try_catch.
  match goal with |- context [bind ?m ?k s] => destruct (bind m k s) as [[a|e|] s1] end;
    discriminate.
Qed.

Lemma defined_withSelectiveRetry_loop {A} (fn : Task h A) retries delay :
  never_undefined h fn ->
  forall attempts last,
    attempts <> [] \/ last <> None ->
    never_undefined h (withSelectiveRetry_loop fn retries delay attempts last).
Proof.
  intros Hfn. induction attempts as [|a later IH]; intros last Hne s.
  - destruct last; [discriminate|]. destruct Hne; congruence.
  - cbn [withSelectiveRetry_loop]. specialize (Hfn s).
    destruct (fn s) as [[v|e|] s1]; cbn in *; try discriminate; try congruence.
    destruct (noRetry e); [discriminate|].
    unfold bind.
    destruct (backoff retries delay a e s1) as [[[]|e'|] s2] eqn:Eb.
    + apply IH. right. discriminate.
    + discriminate.
    + unfold backoff in Eb. destruct (a <? retries)%nat; discriminate.
Qed.

Lemma defined_proxyFetch target method payloadData headers proxy :
  never_undefined h (proxyFetch h target method payloadData headers proxy).
Proof.
  unfold proxyFetch, withSelectiveRetry.
  apply defined_withSelectiveRetry_loop.
  - apply defined_executeFetch.
  - left. discriminate.
Qed.

Lemma withRetry_first_success {A} (fn : Task h A) n delay s a s' :
  fn s = (Normal a, s') ->
  withRetry fn (Datatypes.S n) delay s = (Normal a, s').
Proof. intros E. unfold withRetry. cbn [seq withRetry_loop]. now rewrite E. Qed.

End CompletionFacts.

(** ** The reward-claim step *)

Section WorkflowFacts.
Variable h : Host.

Lemma nonzero_true (q : Q) : ~ q == 0 -> Js.nonzero q = true.
Proof.
  intros Hq. unfold Js.nonzero.
  destruct (Qeq_bool q 0) eqn:E; [|reflexivity].
  apply Qeq_bool_eq in E. contradiction.
Qed.

Lemma nonzero_false (q : Q) : q == 0 -> Js.nonzero q = false.
Proof.
  intros Hq. unfold Js.nonzero. now rewrite (Qeq_eq_bool _ _ Hq).
Qed.

(** [checkin && checkin.tokensToAward] is truthy exactly when the property
    is. *)
Lemma and_get_truthiness (v : JSON) (key : string) :
  Js.truthy (Js.and_get v key) = Js.truthy (Js.get key v).
Proof.
  unfold Js.and_get. destruct (Js.truthyJ v) eqn:E; [reflexivity|].
  cbn [Js.truthy]. rewrite E. destruct v; try reflexivity; discriminate.
Qed.

(** C4. The reward-claim step, by how the claim request ends.  A payload
    whose [tokensToAward] is truthy - a number other than 0 in particular -
    gives one info entry, "Check-in successful! Awarded points: " followed
    by the text of the award (for a number, its rendering) between the
    colour codes; should the award have no text (an object with a
    [toString] property of its own), the conversion throws and the step
    logs a failed check-in.  A payload whose [tokensToAward] is falsy - 0 or
    missing in particular - gives one warn entry, "Check-in not available
    yet.", and nothing else.  A failure with status 400 gives one info
    entry, "Already checked in today" between colour codes.  Any other
    failure gives one error entry, "Check-in failed: " followed by the
    message of the error.  The request never ends otherwise. *)
Theorem checkin_step_outcomes (email : string)
    (headers : list (string * string)) (proxy : option string) (id : Value)
    (s : State h) :
  match toString h id with
  | None =>
      checkin_step h email headers proxy id s
      = (Normal tt,
         logged h Log.error email
           "Check-in failed: Cannot convert object to primitive value" s)
  | Some idText =>
      forall outcome s',
        proxyFetch h (earnUrl idText) "GET" (Some JNull) headers proxy s
        = (outcome, s') ->
        match outcome with
        | Normal payload =>
            let award := Js.get "tokensToAward" payload in
            (Js.truthy award = true ->
             checkin_step h email headers proxy id s
             = (Normal tt,
                match toString h award with
                | Some amount =>
                    logged h Log.info email
                      (JsString.ESC
                       ++ "[38;5;46mCheck-in successful! Awarded points: "
                       ++ amount ++ JsString.ESC ++ "[0m") s'
                | None =>
                    logged h Log.error email
                      "Check-in failed: Cannot convert object to primitive value"
                      s'
                end))
            /\ (forall q,
                   award = Some (JNum q) -> ~ q == 0 ->
                   checkin_step h email headers proxy id s
                   = (Normal tt,
                      logged h Log.info email
                        (JsString.ESC
                         ++ "[38;5;46mCheck-in successful! Awarded points: "
                         ++ num h q ++ JsString.ESC ++ "[0m") s'))
            /\ (Js.truthy award = false ->
                checkin_step h email headers proxy id s
                = (Normal tt,
                   logged h Log.warn email "Check-in not available yet." s'))
            /\ (award = None \/ (exists q, award = Some (JNum q) /\ q == 0) ->
                checkin_step h email headers proxy id s
                = (Normal tt,
                   logged h Log.warn email "Check-in not available yet." s'))
        | Thrown e =>
            (status e = Some 400%Z ->
             checkin_step h email headers proxy id s
             = (Normal tt,
                logged h Log.info email
                  (JsString.ESC ++ "[38;5;220mAlready checked in today"
                   ++ JsString.ESC ++ "[0m") s'))
            /\ (status e <> Some 400%Z ->
                checkin_step h email headers proxy id s
                = (Normal tt,
                   logged h Log.error email
                     ("Check-in failed: " ++ message e) s'))
        | ThrownUndefined => False
        end
  end.
Proof.
  unfold checkin_step, claim_request, template, try_catch, bind.
  destruct (toString h id) as [idText|] eqn:Eid; [|reflexivity].
  intros outcome s' Hrun. unfold ret. rewrite Hrun.
  destruct outcome as [payload|e|].
  - cbv zeta.
    assert (Htrue : Js.truthy (Js.get "tokensToAward" payload) = true ->
              report_checkin h email payload s'
              = match toString h (Js.get "tokensToAward" payload) with
                | Some amount =>
                    (Normal tt, logged h Log.info email (successMsg amount) s')
                | None => (Thrown TypeError_primitive, s')
                end).
    { intros Ht. unfold report_checkin, template, bind.
      rewrite and_get_truthiness, Ht.
      now destruct (toString h (Js.get "tokensToAward" payload)). }
    assert (Hfalse : Js.truthy (Js.get "tokensToAward" payload) = false ->
              report_checkin h email payload s'
              = (Normal tt,
                 logged h Log.warn email "Check-in not available yet." s')).
    { intros Hf. unfold report_checkin. now rewrite and_get_truthiness, Hf. }
    split; [|split; [|split]].
    + intros Ht. rewrite (Htrue Ht).
      now destruct (toString h (Js.get "tokensToAward" payload)).
    + intros q Hget Hq. rewrite Htrue.
      * now rewrite Hget.
      * rewrite Hget. cbn [Js.truthy Js.truthyJ]. now apply nonzero_true.
    + intros Hf. now rewrite (Hfalse Hf).
    + intros Hcase. rewrite Hfalse; [reflexivity|].
      destruct Hcase as [-> | (q & -> & Hq)]; [reflexivity|].
      cbn [Js.truthy Js.truthyJ]. now apply nonzero_false.
  - split.
    + intros Hst. unfold report_checkinError, status_is. now rewrite Hst.
    + intros Hst. unfold report_checkinError, status_is.
      destruct (status e) as [z|]; [|reflexivity].
      destruct (z =? 400)%Z eqn:Ez; [|reflexivity].
      apply Z.eqb_eq in Ez. congruence.
  - apply (defined_proxyFetch h (earnUrl idText) "GET" (Some JNull) headers
             proxy s).
    now rewrite Hrun.
Qed.

End WorkflowFacts.

Lemma checkin_step_outcomes_witness :
  checkin_step Scripted.host "a@x.com" headersTemplate None (Some (JStr "42"))
    (Scripted.boot
       [Scripted.answer 200 (JObj [("tokensToAward", JNum 5)])]
       Scripted.no_files)
  = (Normal tt,
     logged Scripted.host Log.info "a@x.com"
       (JsString.ESC ++ "[38;5;46mCheck-in successful! Awarded points: "
        ++ "5" ++ JsString.ESC ++ "[0m")
       (sent Scripted.host
          (Scripted.boot
             [Scripted.answer 200 (JObj [("tokensToAward", JNum 5)])]
             Scripted.no_files)
          {| url := earnUrl "42"; method := "GET";
             headers := headersTemplate; body := None; agent := None |}
          {| Scripted.answers := []; Scripted.files := Scripted.no_files |})).
Proof.
  destruct (checkin_step_outcomes Scripted.host "a@x.com" headersTemplate None
              (Some (JStr "42"))
              (Scripted.boot
                 [Scripted.answer 200 (JObj [("tokensToAward", JNum 5)])]
                 Scripted.no_files)
              _ _ eq_refl) as (_ & Hnumber & _).
  apply (Hnumber 5); [reflexivity|discriminate].
Defined.

(** ** Loading the lists *)

Ltac returns_step :=
  match goal with
  | |- always_returns _ (bind _ _) => apply returns_bind; [|intros ?]
  | |- always_returns _ (try_catch _ _ _) => apply returns_try_catch; [|intros ?]
  | |- always_returns _ (log _ _ _) => apply returns_log
  | |- always_returns _ (sleep _ _) => apply returns_sleep
  | |- always_returns _ (random _) => apply returns_random
  | |- always_returns _ (ret _) => apply returns_ret
  | |- always_returns _ (if ?c then _ else _) => destruct c
  | |- never_undefined _ (bind _ _) => apply defined_bind; [|intros ?]
  | |- never_undefined _ (await_readFile _ _) => apply defined_await_readFile
  | |- never_undefined _ (await_fetch _ _) => apply defined_await_fetch
  | |- never_undefined _ (proxyFetch _ _ _ _ _ _) => apply defined_proxyFetch
  | |- never_undefined _ (throw _) => apply defined_throw
  | |- never_undefined _ (template _ _) => apply defined_template
  | |- never_undefined _ (if ?c then _ else _) => destruct c
  | |- never_undefined _ _ => apply returns_defined
  end.

Ltac trace_step :=
  match goal with
  | |- emits _ _ (bind _ _) => apply emits_bind; [|intros ?]
  | |- emits _ _ (try_catch _ _ _) => apply emits_try_catch; [|intros ?]
  | |- emits _ _ (log _ _ _) => apply emits_log
  | |- emits _ _ (sleep _ _) => apply emits_sleep
  | |- emits _ _ (random _) => apply emits_random
  | |- emits _ _ (ret _) => apply emits_ret
  | |- emits _ _ (throw _) => apply emits_throw
  | |- emits _ _ (template _ _) => apply emits_template
  | |- emits _ _ (await_readFile _ _) => apply emits_await_readFile
  | |- emits _ _ (if ?c then _ else _) => destruct c
  end.

Section LoadFacts.
Variable h : Host.

Lemma loadAccounts_returns : always_returns h (loadAccounts h).
Proof. unfold loadAccounts. repeat returns_step. Qed.

Lemma loadProxies_returns : always_returns h (loadProxies h).
Proof. unfold loadProxies. repeat returns_step. Qed.

Lemma loadData_attempt_returns : always_returns h (loadData_attempt h).
Proof.
  unfold loadData_attempt.
  apply returns_bind; [apply loadAccounts_returns|intros accounts].
  apply returns_bind; [apply loadProxies_returns|intros proxies].
  apply returns_ret.
Qed.

(** [loadData] is its first attempt: the operation it retries cannot fail. *)
Lemma loadData_single_attempt (s : State h) :
  loadData h s = loadData_attempt h s.
Proof.
  destruct (loadData_attempt_returns s) as (a & E).
  destruct (loadData_attempt h s) as [c s'] eqn:E2. cbn in E. subst c.
  now apply withRetry_first_success.
Qed.

Lemma loadData_returns : always_returns h (loadData h).
Proof.
  intros s. rewrite loadData_single_attempt. apply loadData_attempt_returns.
Qed.

Lemma emits_loadData_attempt : emits h of_load (loadData_attempt h).
Proof.
  unfold loadData_attempt, loadAccounts, loadProxies.
  repeat trace_step; exact I.
Qed.

Lemma emits_loadData : emits h of_load (loadData h).
Proof.
  intros s. rewrite loadData_single_attempt. apply emits_loadData_attempt.
Qed.

(** C5 (what the code does). When reading both files fails, [loadData]
    makes one attempt only: each file is read once, each failure is logged
    as an error, no warning of a retry is logged, no backoff is awaited,
    and the result is a pair of empty lists. *)
Theorem loadData_failure_not_retried (s : State h) (msg1 msg2 : string)
    (w1 w2 : World h) :
  fs_readFile h "data.txt" (world s) = (Rejected msg1, w1) ->
  fs_readFile h "proxy.txt" w1 = (Rejected msg2, w2) ->
  loadData h s
  = (Normal ([], []),
     {| world := w2;
        trace := (trace s ++
                  [ReadFile "data.txt";
                   Logged Log.error
                     (Log.plain ("Error loading accounts: " ++ msg1));
                   ReadFile "proxy.txt";
                   Logged Log.error
                     (Log.plain ("Error loading proxies: " ++ msg2))])%list |}).
Proof.
  intros E1 E2. rewrite loadData_single_attempt.
  unfold loadData_attempt, loadAccounts, loadProxies, bind, try_catch,
    await_readFile.
  rewrite E1. cbn. rewrite E2. cbn.
  unfold ret, record. cbn [world trace].
  rewrite <- !app_assoc. reflexivity.
Qed.

End LoadFacts.

Lemma loadData_failure_not_retried_witness :
  loadData Scripted.host (Scripted.boot [] Scripted.no_files)
  = (Normal ([], []),
     {| world := world (Scripted.boot [] Scripted.no_files);
        trace :=
          [ReadFile "data.txt";
           Logged Log.error (Log.plain
             "Error loading accounts: ENOENT: no such file or directory, open 'data.txt'");
           ReadFile "proxy.txt";
           Logged Log.error (Log.plain
             "Error loading proxies: ENOENT: no such file or directory, open 'proxy.txt'")] |}).
Proof.
  apply (loadData_failure_not_retried Scripted.host
           (Scripted.boot [] Scripted.no_files)
           "ENOENT: no such file or directory, open 'data.txt'"
           "ENOENT: no such file or directory, open 'proxy.txt'"
           (world (Scripted.boot [] Scripted.no_files))
           (world (Scripted.boot [] Scripted.no_files)));
    reflexivity.
Defined.

(** ** Account lines *)

Lemma split_no_separator (sep : ascii) (s : string) :
  JsString.contains sep s = false -> JsString.split sep s = [s].
Proof.
  induction s as [|c rest IH]; cbn; [reflexivity|].
  intros E. apply orb_false_iff in E as [Ec Erest].
  rewrite Ec, (IH Erest). reflexivity.
Qed.

Lemma split_at_separator (sep : ascii) (a b : string) :
  JsString.contains sep a = false ->
  JsString.split sep (a ++ String sep b) = a :: JsString.split sep b.
Proof.
  induction a as [|c rest IH]; cbn.
  - intros _. now rewrite Ascii.eqb_refl.
  - intros E. apply orb_false_iff in E as [Ec Erest].
    rewrite Ec, (IH Erest). reflexivity.
Qed.

Section AccountFacts.
Variable h : Host.

(** C10. A successful read of [data.txt] yields one account per kept line,
    made of the first two pieces of the line split at [:]; so a password
    that contains [:] is cut at its first colon, and a line without colon
    gives an account without password.  The scheduler's loop body does
    nothing at all for an account without password, whatever the workflow. *)
Theorem account_lines :
  (forall (s : State h) data w,
      fs_readFile h "data.txt" (world s) = (Resolved data, w) ->
      loadAccounts h s
      = (Normal (map parse_account (lines_of data)),
         {| world := w; trace := (trace s ++ [ReadFile "data.txt"])%list |}))
  /\ (forall first second rest line,
         JsString.split ":" line = first :: second :: rest ->
         parse_account line
         = {| Account.email := Some first; Account.password := Some second |})
  /\ (forall email password tail,
         JsString.contains ":" email = false ->
         JsString.contains ":" password = false ->
         parse_account (email ++ ":" ++ password ++ ":" ++ tail)
         = {| Account.email := Some email; Account.password := Some password |})
  /\ (forall line,
         JsString.contains ":" line = false ->
         parse_account line
         = {| Account.email := Some line; Account.password := None |})
  /\ (forall workflow accounts proxies i account (s : State h),
         Account.password account = None ->
         visit h workflow accounts proxies i account s = (Normal tt, s)).
Proof.
  repeat split.
  - intros s data w E. unfold loadAccounts, try_catch, bind, await_readFile.
    now rewrite E.
  - intros first second rest line E. unfold parse_account. now rewrite E.
  - intros email password tail He Hp. unfold parse_account.
    change (email ++ ":" ++ password ++ ":" ++ tail)
      with (email ++ String ":" (password ++ String ":" tail)).
    rewrite (split_at_separator ":" email _ He).
    rewrite (split_at_separator ":" password _ Hp). reflexivity.
  - intros line E. unfold parse_account.
    now rewrite (split_no_separator ":" line E).
  - intros workflow accounts proxies i account s E.
    unfold visit, credentials. rewrite E.
    now destruct (Account.email account).
Qed.

End AccountFacts.

Lemma account_lines_witness :
  parse_account "a@x.com:pw:1"
  = {| Account.email := Some "a@x.com"; Account.password := Some "pw" |}
  /\ parse_account "a@x.com"
     = {| Account.email := Some "a@x.com"; Account.password := None |}
  /\ visit Scripted.host (fun _ _ _ => Scripted.stumble ;; ret tt)
       [parse_account "a@x.com"] [] 0 (parse_account "a@x.com")
       (Scripted.boot [] Scripted.no_files)
     = (Normal tt, Scripted.boot [] Scripted.no_files).
Proof.
  destruct (account_lines Scripted.host) as (_ & _ & Hcut & Hnone & Hskip).
  split; [|split].
  - apply (Hcut "a@x.com" "pw" "1"); reflexivity.
  - apply (Hnone "a@x.com"); reflexivity.
  - apply Hskip. reflexivity.
Defined.

(** What the loader makes of a small file. *)
Example loadAccounts_sample :
  map parse_account
    (lines_of
       ("#comment" ++ String JsString.LF
        ("" ++ String JsString.LF
         ("  a@x.com:pw1 " ++ String JsString.LF
          ("b@y.org:p:q" ++ String JsString.LF "c@z.net")))))
  = [ {| Account.email := Some "a@x.com"; Account.password := Some "pw1" |};
      {| Account.email := Some "b@y.org"; Account.password := Some "p" |};
      {| Account.email := Some "c@z.net"; Account.password := None |} ].
Proof. vm_compute. reflexivity. Qed.

(** ** The workflow as the scheduler sees it *)

Section WorkflowTrace.
Variable h : Host.

Lemma of_proxyFetch_via target proxy ev :
  of_proxyFetch target proxy ev -> via (agent_for proxy) ev.
Proof.
  destruct ev as [[| |] entry|ms|r|path]; cbn; tauto.
Qed.

Lemma emits_proxyFetch_via target method payloadData headers proxy :
  emits h (via (agent_for proxy))
    (proxyFetch h target method payloadData headers proxy).
Proof.
  eapply emits_weaken; [|apply emits_proxyFetch].
  apply of_proxyFetch_via.
Qed.

(** Every request of the workflow goes through the proxy it was given. *)
Lemma emits_loginAndCheckIn email password proxy :
  emits h (via (agent_for proxy)) (loginAndCheckIn h email password proxy).
Proof.
  unfold loginAndCheckIn, after_profile, checkin_step, claim_request,
    report_checkin, report_checkinError.
  cbv zeta.
  repeat first [trace_step | apply emits_proxyFetch_via]; exact I.
Qed.

(** The workflow catches every failure. *)
Lemma loginAndCheckIn_returns email password proxy :
  always_returns h (loginAndCheckIn h email password proxy).
Proof.
  unfold loginAndCheckIn, after_profile, checkin_step, claim_request,
    report_checkin, report_checkinError.
  cbv zeta.
  repeat returns_step.
Qed.

End WorkflowTrace.

(** ** The scheduler *)

Section SchedulerFacts.
Variable h : Host.

Lemma proxy_for_in_range (proxies : list string) (i : nat) :
  proxies <> [] ->
  exists p, nth_error proxies (i mod List.length proxies) = Some p
            /\ proxy_for proxies i = Some p.
Proof.
  intros Hne. unfold proxy_for.
  assert (Hlen : (0 < List.length proxies)%nat).
  { destruct proxies; [congruence|cbn; lia]. }
  assert (Hlt : (i mod List.length proxies < List.length proxies)%nat).
  { apply Nat.mod_upper_bound. lia. }
  destruct (nth_error proxies (i mod List.length proxies)) as [p|] eqn:E.
  - exists p. split; [reflexivity|].
    apply Nat.ltb_lt in Hlen. now rewrite Hlen.
  - apply nth_error_None in E. lia.
Qed.

Variable workflow : string -> string -> option string -> Task h unit.

Lemma visit_with_credentials accounts proxies i account email password :
  credentials account = Some (email, password) ->
  visit h workflow accounts proxies i account
  = (try_catch (workflow email password (proxy_for proxies i)) "message"
       (after_failure h accounts i email) ;;
     pause h accounts i).
Proof. intros E. unfold visit. now rewrite E. Qed.

Section Traces.
Variable P : Event -> Prop.
Hypothesis log_ok : forall level entry, P (Logged level entry).
Hypothesis wait_ok : forall ms, P (Slept ms).

Lemma emits_visit accounts proxies i account :
  (forall email password,
      emits h P (workflow email password (proxy_for proxies i))) ->
  emits h P (visit h workflow accounts proxies i account).
Proof.
  intros Hw. unfold visit, after_failure, pause. cbv zeta.
  destruct (credentials account) as [[email password]|]; [|apply emits_ret].
  repeat first [trace_step | apply Hw | apply log_ok | apply wait_ok].
Qed.

Lemma emits_for_accounts accounts proxies pending :
  (forall i email password,
      emits h P (workflow email password (proxy_for proxies i))) ->
  forall i, emits h P (for_accounts h workflow accounts proxies i pending).
Proof.
  intros Hw. induction pending as [|account later IH]; intros i; cbn.
  - apply emits_ret.
  - apply emits_bind; [|intros _; apply IH].
    apply emits_visit. intros email password. apply Hw.
Qed.

Lemma emits_await_next_run : emits h P (await_next_run h).
Proof.
  unfold await_next_run. cbv zeta.
  repeat first [trace_step | apply log_ok | apply wait_ok
                | apply (emits_still h P)].
Qed.

Lemma emits_cycle accounts proxies :
  (forall i email password,
      emits h P (workflow email password (proxy_for proxies i))) ->
  emits h P (cycle h workflow accounts proxies).
Proof.
  intros Hw. unfold cycle.
  apply emits_bind; [apply emits_log, log_ok|intros _].
  apply emits_bind; [now apply emits_for_accounts|intros _].
  apply emits_await_next_run.
Qed.

Lemma emits_forever (pass : Task h unit) :
  emits h P pass -> forall fuel, emits h P (forever h fuel pass).
Proof.
  intros Hp. induction fuel as [|fuel IH]; cbn.
  - apply emits_ret.
  - apply emits_bind; [exact Hp|intros _; exact IH].
Qed.

End Traces.

Hypothesis workflow_defined :
  forall email password proxy,
    never_undefined h (workflow email password proxy).

Lemma visit_returns accounts proxies i account :
  always_returns h (visit h workflow accounts proxies i account).
Proof.
  unfold visit, after_failure, pause. cbv zeta.
  destruct (credentials account) as [[email password]|]; [|apply returns_ret].
  repeat first [apply workflow_defined | returns_step].
Qed.

Lemma for_accounts_returns accounts proxies pending :
  forall i, always_returns h (for_accounts h workflow accounts proxies i pending).
Proof.
  induction pending as [|account later IH]; intros i; cbn.
  - apply returns_ret.
  - apply returns_bind; [apply visit_returns|intros _; apply IH].
Qed.

Lemma returns_read {A} (f : State h -> A) :
  always_returns h (fun s => (Normal (f s), s)).
Proof. intros s. now exists (f s). Qed.

Lemma await_next_run_returns : always_returns h (await_next_run h).
Proof.
  unfold await_next_run. cbv zeta.
  repeat first [returns_step | apply returns_read].
Qed.

Lemma cycle_returns accounts proxies :
  always_returns h (cycle h workflow accounts proxies).
Proof.
  unfold cycle. repeat returns_step.
  - apply for_accounts_returns.
  - apply await_next_run_returns.
Qed.

Lemma forever_running (pass : Task h unit) :
  always_returns h pass ->
  forall fuel s, fst (forever h fuel pass s) = Normal StillRunning.
Proof.
  intros Hp. induction fuel as [|fuel IH]; intros s; cbn; [reflexivity|].
  unfold bind. destruct (Hp s) as (a & E).
  destruct (pass s) as [c s1]. cbn in E. subst c. apply IH.
Qed.

Lemma startup_returns fuel data :
  always_returns h (startup h workflow fuel data).
Proof.
  unfold startup. cbv zeta.
  destruct (List.length (fst data) =? 0)%nat; [repeat returns_step|].
  apply returns_bind; [repeat returns_step|intros _].
  apply returns_bind; [repeat returns_step|intros _].
  intros s. exists StillRunning. apply forever_running, cycle_returns.
Qed.

(** Once the lists are loaded, [main] is the rest of its [try] block. *)
Lemma main_of_loaded load fuel s data s' :
  load s = (Normal data, s') ->
  main_of h load workflow (Datatypes.S fuel) s
  = startup h workflow fuel data s'.
Proof.
  intros E. cbn [main_of]. unfold try_catch, main_try, bind. rewrite E.
  destruct (startup_returns fuel data s') as (a & Ea).
  destruct (startup h workflow fuel data s') as [c s1]. cbn in Ea. now subst c.
Qed.


End SchedulerFacts.

(** *** Which workflow call gets which proxy *)

Section Assignment.
Variable h : Host.

Lemma sends_quiet {A} (m : Task h A) : emits h no_request m -> sends m [].
Proof.
  intros Hm s. destruct (Hm s) as (ext & E & F). exists ext.
  split; [exact E|]. clear E.
  induction F as [|ev ext Hev _ IH]; [reflexivity|].
  destruct ev; cbn in *; try contradiction; exact IH.
Qed.

Lemma sends_bind {A B} (m : Task h A) (k : A -> Task h B) r1 r2 :
  always_returns h m -> sends m r1 -> (forall a, sends (k a) r2) ->
  sends (bind m k) (r1 ++ r2)%list.
Proof.
  intros Hret Hm Hk s. unfold bind.
  destruct (Hm s) as (ext1 & E1 & R1). destruct (Hret s) as (a & Ea).
  destruct (m s) as [c s1]. cbn [fst snd] in *. subst c.
  destruct (Hk a s1) as (ext2 & E2 & R2).
  exists (ext1 ++ ext2)%list. split.
  - now rewrite E2, E1, app_assoc.
  - rewrite <- R1, <- R2. apply flat_map_app.
Qed.

Lemma sends_try_catch {A} (m : Task h A) prop (handler : JsError -> Task h A) r :
  sends m r -> (forall e, sends (handler e) []) ->
  sends (try_catch m prop handler) r.
Proof.
  intros Hm Hk s. unfold try_catch.
  destruct (Hm s) as (ext1 & E1 & R1).
  destruct (m s) as [[a|e|] s1]; cbn [snd] in *; eauto.
  destruct (Hk e s1) as (ext2 & E2 & R2).
  exists (ext1 ++ ext2)%list. split.
  - now rewrite E2, E1, app_assoc.
  - rewrite <- R1, <- (app_nil_r (requests_of ext1)), <- R2.
    apply flat_map_app.
Qed.

Lemma sends_telltale email password proxy :
  sends (telltale h email password proxy) [call email password proxy].
Proof.
  intros s. exists [Fetched (call email password proxy)].
  unfold telltale, bind, await_fetch.
  destruct (fetch h (call email password proxy) (world s)) as [[r|msg] w];
    now split.
Qed.

Lemma defined_telltale email password proxy :
  never_undefined h (telltale h email password proxy).
Proof. unfold telltale. repeat returns_step. Qed.

Lemma quiet_pause accounts i : emits h no_request (pause h accounts i).
Proof. unfold pause. cbv zeta. repeat trace_step; exact I. Qed.

Lemma pause_returns accounts i : always_returns h (pause h accounts i).
Proof. unfold pause. cbv zeta. repeat returns_step. Qed.

Lemma sends_visit accounts proxies i account :
  sends (visit h (telltale h) accounts proxies i account)
    (body_calls proxies i account).
Proof.
  unfold visit, body_calls. cbv zeta.
  destruct (credentials account) as [[email password]|];
    [|apply sends_quiet, emits_ret].
  change [call email password (proxy_for proxies i)]
    with ([call email password (proxy_for proxies i)] ++ [])%list.
  apply sends_bind.
  - apply returns_try_catch; [apply defined_telltale|].
    intros e. unfold after_failure. cbv zeta. repeat returns_step.
  - apply sends_try_catch; [apply sends_telltale|].
    intros e. apply sends_quiet. unfold after_failure. cbv zeta.
    repeat trace_step; exact I.
  - intros _. apply sends_quiet, quiet_pause.
Qed.

Lemma sends_visit_plain accounts proxies i account :
  sends (visit_plain h (telltale h) accounts proxies i account)
    (body_calls proxies i account).
Proof.
  unfold visit_plain, body_calls. cbv zeta.
  destruct (credentials account) as [[email password]|];
    [|apply sends_quiet, emits_ret].
  change [call email password (proxy_for proxies i)]
    with ([call email password (proxy_for proxies i)] ++ [])%list.
  apply sends_bind.
  - apply returns_try_catch; [apply defined_telltale|].
    intros e. repeat returns_step.
  - apply sends_try_catch; [apply sends_telltale|].
    intros e. apply sends_quiet. repeat trace_step; exact I.
  - intros _. apply sends_quiet, quiet_pause.
Qed.

Lemma visit_plain_telltale_returns accounts proxies i account :
  always_returns h (visit_plain h (telltale h) accounts proxies i account).
Proof.
  unfold visit_plain. cbv zeta.
  destruct (credentials account) as [[email password]|]; [|apply returns_ret].
  apply returns_bind; [|intros _; apply pause_returns].
  apply returns_try_catch; [apply defined_telltale|].
  intros e. repeat returns_step.
Qed.

(** The proxy of index [i], spelled out. *)
Lemma proxy_for_spelled (proxies : list string) (i : nat) :
  proxy_for proxies i
  = match proxies with
    | [] => None
    | _ :: _ => nth_error proxies (i mod List.length proxies)
    end.
Proof. unfold proxy_for. now destruct proxies. Qed.

Lemma loop_calls_step done account later proxies :
  loop_calls (done ++ account :: later) proxies (List.length done)
    (Datatypes.S (List.length later))
  = (body_calls proxies (List.length done) account
     ++ loop_calls ((done ++ [account]) ++ later) proxies
          (List.length (done ++ [account])) (List.length later))%list.
Proof.
  unfold loop_calls. cbn [seq flat_map].
  rewrite nth_error_app2, Nat.sub_diag by lia. cbn [nth_error].
  rewrite <- app_assoc. cbn [app].
  rewrite length_app. cbn [List.length]. now rewrite Nat.add_1_r.
Qed.

Lemma sends_for_accounts proxies pending :
  forall done,
    sends (for_accounts h (telltale h) (done ++ pending) proxies
             (List.length done) pending)
      (loop_calls (done ++ pending) proxies (List.length done)
         (List.length pending)).
Proof.
  induction pending as [|account later IH]; intros done.
  - apply sends_quiet, emits_ret.
  - cbn [for_accounts List.length]. rewrite loop_calls_step.
    apply sends_bind.
    + apply visit_returns. intros e p x. apply defined_telltale.
    + apply sends_visit.
    + intros _. specialize (IH (done ++ [account])%list).
      rewrite <- app_assoc in IH. cbn [app] in IH.
      rewrite <- app_assoc. cbn [app].
      replace (Datatypes.S (List.length done))
        with (List.length (done ++ [account]))
        by (rewrite length_app; cbn; lia).
      exact IH.
Qed.

Lemma sends_for_accounts_plain proxies pending :
  forall done,
    sends (for_accounts_plain h (telltale h) (done ++ pending) proxies
             (List.length done) pending)
      (loop_calls (done ++ pending) proxies (List.length done)
         (List.length pending)).
Proof.
  induction pending as [|account later IH]; intros done.
  - apply sends_quiet, emits_ret.
  - cbn [for_accounts_plain List.length]. rewrite loop_calls_step.
    apply sends_bind.
    + apply visit_plain_telltale_returns.
    + apply sends_visit_plain.
    + intros _. specialize (IH (done ++ [account])%list).
      rewrite <- app_assoc in IH. cbn [app] in IH.
      rewrite <- app_assoc. cbn [app].
      replace (Datatypes.S (List.length done))
        with (List.length (done ++ [account]))
        by (rewrite length_app; cbn; lia).
      exact IH.
Qed.

Lemma loop_calls_assigned accounts proxies :
  loop_calls accounts proxies 0 (List.length accounts)
  = assigned accounts proxies.
Proof.
  unfold loop_calls, assigned. apply flat_map_ext. intros i.
  destruct (nth_error accounts i) as [account|]; [|reflexivity].
  unfold body_calls. now rewrite proxy_for_spelled.
Qed.

Lemma sends_cycle accounts proxies :
  sends (cycle h (telltale h) accounts proxies) (assigned accounts proxies).
Proof.
  unfold cycle.
  replace (assigned accounts proxies)
    with ([] ++ assigned accounts proxies ++ [])%list
    by (cbn; now rewrite app_nil_r).
  apply sends_bind; [apply returns_log| |intros _].
  { apply sends_quiet, emits_log. exact I. }
  apply sends_bind.
  - apply for_accounts_returns. intros e p x. apply defined_telltale.
  - rewrite <- loop_calls_assigned.
    apply (sends_for_accounts proxies accounts []).
  - intros _. apply sends_quiet, emits_await_next_run; intros; exact I.
Qed.

Lemma for_accounts_plain_telltale_returns accounts proxies pending :
  forall i,
    always_returns h
      (for_accounts_plain h (telltale h) accounts proxies i pending).
Proof.
  induction pending as [|account later IH]; intros i; cbn.
  - apply returns_ret.
  - apply returns_bind; [apply visit_plain_telltale_returns|intros _; apply IH].
Qed.

Lemma sends_cycle_plain accounts proxies :
  sends (cycle_plain h (telltale h) accounts proxies)
    (assigned accounts proxies).
Proof.
  unfold cycle_plain.
  replace (assigned accounts proxies)
    with ([] ++ assigned accounts proxies ++ [])%list
    by (cbn; now rewrite app_nil_r).
  apply sends_bind; [apply returns_log| |intros _].
  { apply sends_quiet, emits_log. exact I. }
  apply sends_bind.
  - apply for_accounts_plain_telltale_returns.
  - rewrite <- loop_calls_assigned.
    apply (sends_for_accounts_plain proxies accounts []).
  - intros _. apply sends_quiet. repeat trace_step; exact I.
Qed.

End Assignment.

(** C6. With a non-empty proxy list the proxy of index [i] is
    [proxies[i mod proxies.length]], and with an empty list it is none; for
    two proxies and five accounts the proxies are p0, p1, p0, p1, p0.  One
    pass of the scheduler's loop (of either source file), run with a
    workflow that only tells how it was called, calls it once for each
    account that has both credentials, in the order of the list, and the
    account at index [i] with exactly that proxy.  With the program's own
    workflow, every request made for the account at index [i] uses the
    agent of that proxy. *)
Theorem proxy_rotation (h : Host) :
  (forall proxies i,
      proxies <> [] ->
      exists p, nth_error proxies (i mod List.length proxies) = Some p
                /\ proxy_for proxies i = Some p)
  /\ (forall i, proxy_for [] i = None)
  /\ (forall p0 p1,
         map (proxy_for [p0; p1]) (seq 0 5)
         = [Some p0; Some p1; Some p0; Some p1; Some p0])
  /\ (forall accounts proxies,
         sends (cycle h (telltale h) accounts proxies)
           (assigned accounts proxies))
  /\ (forall accounts proxies,
         sends (cycle_plain h (telltale h) accounts proxies)
           (assigned accounts proxies))
  /\ (forall accounts proxies i account,
         emits h (via (agent_for (proxy_for proxies i)))
           (visit h (loginAndCheckIn h) accounts proxies i account)).
Proof.
  split; [|split; [|split; [|split; [|split]]]].
  - intros proxies i. apply proxy_for_in_range.
  - reflexivity.
  - reflexivity.
  - apply sends_cycle.
  - apply sends_cycle_plain.
  - intros accounts proxies i account.
    apply emits_visit; try (intros; exact I).
    intros email password. apply emits_loginAndCheckIn.
Qed.

Lemma proxy_rotation_witness :
  (exists p, nth_error ["p0:8080"; "p1:8080"] (4 mod 2) = Some p
             /\ proxy_for ["p0:8080"; "p1:8080"] 4 = Some p)
  /\ exists ext,
       trace (snd (cycle Scripted.host (telltale Scripted.host)
                     (map parse_account ["a:1"; "b:2"; "c:3"; "d:4"; "e:5"])
                     ["p0"; "p1"] (Scripted.boot [] Scripted.no_files)))
       = ([] ++ ext)%list
       /\ requests_of ext
          = [call "a" "1" (Some "p0"); call "b" "2" (Some "p1");
             call "c" "3" (Some "p0"); call "d" "4" (Some "p1");
             call "e" "5" (Some "p0")].
Proof.
  destruct (proxy_rotation Scripted.host) as (Hrot & _ & _ & Hcycle & _).
  split.
  - apply (Hrot ["p0:8080"; "p1:8080"] 4%nat). discriminate.
  - apply (Hcycle (map parse_account ["a:1"; "b:2"; "c:3"; "d:4"; "e:5"])
             ["p0"; "p1"] (Scripted.boot [] Scripted.no_files)).
Defined.

(** The agents of the requests of one pass over five accounts with two
    proxies, on a host where every request fails: three attempts each. *)
Example rotation_on_the_wire :
  let accounts :=
    map parse_account ["a:1"; "b:2"; "c:3"; "d:4"; "e:5"] in
  flat_map (fun ev => match ev with
                      | Fetched r => [agent r]
                      | _ => []
                      end)
    (trace (snd (for_accounts Scripted.host (loginAndCheckIn Scripted.host)
                   accounts ["p0"; "p1"] 0 accounts
                   (Scripted.boot [] Scripted.no_files))))
  = [Some "http://p0"; Some "http://p0"; Some "http://p0";
     Some "http://p1"; Some "http://p1"; Some "http://p1";
     Some "http://p0"; Some "http://p0"; Some "http://p0";
     Some "http://p1"; Some "http://p1"; Some "http://p1";
     Some "http://p0"; Some "http://p0"; Some "http://p0"].
Proof. vm_compute. reflexivity. Qed.



(** C8. When the [try] block of [main] throws an error - from loading the
    lists or out of the loop - [main] logs it as critical, logs the restart,
    waits 60000 ms and runs [main] again from the state reached, which
    begins with loading the lists anew; the error does not end [main]. *)
Theorem main_recovers (h : Host)
    (load : Task h (list Account.t * list string))
    (workflow : string -> string -> option string -> Task h unit)
    (fuel : nat) (s s' : State h) (e : JsError) :
  main_try h load workflow fuel s = (Thrown e, s') ->
  main_of h load workflow (Datatypes.S fuel) s
  = main_of h load workflow fuel (snd (recover h e s'))
  /\ snd (recover h e s')
     = {| world := timer h 60000 (world s');
          trace := (trace s'
                    ++ [Logged Log.error (Log.plain
                          ("Critical error in main process: " ++ message e));
                        Logged Log.info (Log.plain
                          "Restarting main process in 60 seconds...");
                        Slept 60000])%list |}
  /\ (forall fuel' s'',
         main_of h load workflow (Datatypes.S fuel') s''
         = try_catch (data <- load ;; startup h workflow fuel' data) "message"
             (fun mainError =>
                recover h mainError ;; main_of h load workflow fuel') s'').
Proof.
  intros E. split; [|split].
  - cbn [main_of]. unfold try_catch at 1. rewrite E. reflexivity.
  - unfold recover, bind, log, sleep, effect. cbn.
    unfold record. cbn [world trace]. now rewrite <- !app_assoc.
  - reflexivity.
Qed.

Lemma main_recovers_witness :
  main_of Scripted.host Scripted.broken_load (fun _ _ _ => ret tt) 1
    (Scripted.boot [] Scripted.no_files)
  = (Normal StillRunning,
     snd (recover Scripted.host (Error "lists unavailable")
            (Scripted.boot [] Scripted.no_files))).
Proof.
  destruct (main_recovers Scripted.host Scripted.broken_load
              (fun _ _ _ => ret tt) 0
              (Scripted.boot [] Scripted.no_files)
              (Scripted.boot [] Scripted.no_files)
              (Error "lists unavailable") eq_refl) as (Hrestart & _).
  exact Hrestart.
Defined.

(** ** The program on the scripted host *)

(** A request that keeps failing with status 500 is sent three times, with
    waits of 2000 and 3000 ms. *)
Example proxyFetch_retries :
  Scripted.story
    (proxyFetch Scripted.host usersUrl "GET" (Some JNull) headersTemplate None
       (Scripted.boot
          [Scripted.answer 500 JNull; Scripted.answer 500 JNull;
           Scripted.answer 500 JNull; Scripted.answer 200 JNull]
          Scripted.no_files))
  = ["GET https://node.securitylabs.xyz/api/v1/users";
     "Attempt 1 failed. Retrying in 2s... Error: Request failed: HTTP error! Status: 500";
     "sleep 2000";
     "GET https://node.securitylabs.xyz/api/v1/users";
     "Attempt 2 failed. Retrying in 3s... Error: Request failed: HTTP error! Status: 500";
     "sleep 3000";
     "GET https://node.securitylabs.xyz/api/v1/users"].
Proof. vm_compute. reflexivity. Qed.

(** A reward claim answered with status 400 is sent once. *)
Example claim_400_not_retried :
  Scripted.story
    (proxyFetch Scripted.host (earnUrl "7") "GET" (Some JNull) headersTemplate
       None
       (Scripted.boot [Scripted.answer 400 JNull; Scripted.answer 200 JNull]
          Scripted.no_files))
  = ["GET https://node.securitylabs.xyz/api/v1/users/earn/7"].
Proof. vm_compute. reflexivity. Qed.

(** With both files missing, [main] reads each once and stops. *)
Example main_without_files :
  main Scripted.host 3 (Scripted.boot [] Scripted.no_files)
  = (Normal Finished,
     snd (main Scripted.host 3 (Scripted.boot [] Scripted.no_files)))
  /\ Scripted.story (main Scripted.host 3 (Scripted.boot [] Scripted.no_files))
     = ["read data.txt";
        "Error loading accounts: ENOENT: no such file or directory, open 'data.txt'";
        "read proxy.txt";
        "Error loading proxies: ENOENT: no such file or directory, open 'proxy.txt'";
        "No accounts found in data.txt"].
Proof. split; vm_compute; reflexivity. Qed.

(** One account, no proxy file, a service that answers sign-in, profile and
    an award of 5 points: one pass of the loop. *)
Example main_one_pass :
  Scripted.story
    (main Scripted.host 2
       (Scripted.boot
          [Scripted.answer 200 (JObj [("accessToken", JStr "t0k")]);
           Scripted.answer 200
             (JObj [("id", JNum 7); ("dipTokenBalance", JNum 3)]);
           Scripted.answer 200 (JObj [("tokensToAward", JNum 5)])]
          Scripted.one_account))
  = ["read data.txt"; "read proxy.txt";
     "Error loading proxies: ENOENT: no such file or directory, open 'proxy.txt'";
     "No proxies found in proxy.txt, will proceed without proxies";
     "Loaded 1 accounts";
     startingMsg;
     "Attempting login";
     "POST https://node.securitylabs.xyz/api/v1/auth/signin-user";
     "Login succeeded! Fetching user details...";
     "GET https://node.securitylabs.xyz/api/v1/users";
     "User id: 7 | Current points: 3";
     "Attempting daily check-in...";
     "GET https://node.securitylabs.xyz/api/v1/users/earn/7";
     successMsg "5";
     JsString.ESC ++ "[38;5;51m======== All accounts processed ========"
       ++ JsString.ESC ++ "[0m";
     "Next run scheduled at: 1 (in 0h 0m)";
     "sleep 1"].
Proof. vm_compute. reflexivity. Qed.

(** * Further properties *)

(** ** More on the retry policies *)

Section MoreRunFacts.
Context {W A : Type} `{Runtime W}.
Import Probe.
Variables (retries : nat) (delay : Q) (retryable : JsError -> bool).

Lemma Run_success a (tr : list (Step A)) r :
  Run retries delay retryable a tr r ->
  forall pre v post,
    tr = (pre ++ Invoked (Normal v) :: post)%list ->
    post = [] /\ r = Normal v.
Proof.
  induction 1 as [a v0|a r|a e0 He0|e0 He0|a e0 entry tr r He0 Ha HR IH];
    intros pre v post Etr.
  - apply single_split in Etr as (_ & Ex & ->). now inversion Ex; subst.
  - apply single_split in Etr as (_ & Ex & _). discriminate.
  - apply single_split in Etr as (_ & Ex & _). discriminate.
  - apply single_split in Etr as (_ & Ex & _). discriminate.
  - destruct pre as [|x1 pre]; [discriminate|].
    cbn in Etr. inversion Etr as [[E1 E2]].
    destruct pre as [|x2 pre]; [discriminate|].
    cbn in E2. inversion E2 as [[E3 E4]].
    destruct pre as [|x3 pre]; [discriminate|].
    cbn in E4. inversion E4 as [[E5 E6]].
    now apply (IH pre v post).
Qed.

Lemma Run_ends_with_call a (tr : list (Step A)) r :
  Run retries delay retryable a tr r ->
  exists pre outcome, tr = (pre ++ [Invoked outcome])%list.
Proof.
  induction 1 as [a v0|a r|a e0 He0|e0 He0|a e0 entry tr r He0 Ha HR IH].
  - now exists [], (Normal v0).
  - now exists [], ThrownUndefined.
  - now exists [], (Thrown e0).
  - now exists [], (Thrown e0).
  - destruct IH as (pre & o & ->).
    now exists (Invoked (Thrown e0) :: Logged Log.warn entry
                :: Waited (computed delay a) :: pre), o.
Qed.

Lemma Run_counts a (tr : list (Step A)) r :
  Run retries delay retryable a tr r ->
  calls tr = Datatypes.S (probe_waits tr)
  /\ probe_entries tr = probe_waits tr.
Proof.
  induction 1 as [a v0|a r|a e0 He0|e0 He0|a e0 entry tr r He0 Ha HR IH];
    try (split; reflexivity).
  destruct IH as [IH1 IH2].
  change (calls (Invoked (Thrown e0) :: Logged Log.warn entry
                 :: Waited (computed delay a) :: tr))
    with (Datatypes.S (calls tr)).
  change (probe_waits (Invoked (Thrown e0) :: Logged Log.warn entry
                       :: Waited (computed delay a) :: tr))
    with (Datatypes.S (probe_waits tr)).
  change (probe_entries (Invoked (Thrown e0) :: Logged Log.warn entry
                         :: Waited (computed delay a) :: tr))
    with (Datatypes.S (probe_entries tr)).
  split; congruence.
Qed.

End MoreRunFacts.

Section MorePolicyFacts.
Context {W A : Type} `{Runtime W}.
Import Probe.

Lemma withRetry_run (fn : M W A) n delay (w : W) :
  (1 <= n)%nat ->
  Run n delay always 1
    (steps (snd (withRetry (probed fn) n delay (start w))))
    (fst (withRetry (probed fn) n delay (start w))).
Proof.
  intros Hn.
  destruct (withRetry_loop_run fn n delay n 1 None (start w)) as (ext & Hs & HR);
    [lia|lia|].
  unfold withRetry. cbn [steps start app] in Hs. now rewrite Hs.
Qed.

Lemma withSelectiveRetry_run (fn : M W A) n delay (w : W) :
  (1 <= n)%nat ->
  Run n delay unflagged 1
    (steps (snd (withSelectiveRetry (probed fn) n delay (start w))))
    (fst (withSelectiveRetry (probed fn) n delay (start w))).
Proof.
  intros Hn.
  destruct (withSelectiveRetry_loop_run fn n delay n 1 None (start w))
    as (ext & Hs & HR); [lia|lia|].
  unfold withSelectiveRetry. cbn [steps start app] in Hs. now rewrite Hs.
Qed.

(** X1. Under either retry policy, a call of the operation that returns a
    value is the last step of the run: nothing is logged or awaited after
    it, the operation is not called again, and the policy returns that
    value. *)
Theorem success_ends_policy (fn : M W A) (n : nat) (delay : Q) (w : W)
    (pre post : list (Step A)) (v : A) :
  (steps (snd (withRetry (probed fn) n delay (start w)))
   = (pre ++ Invoked (Normal v) :: post)%list ->
   post = [] /\ fst (withRetry (probed fn) n delay (start w)) = Normal v)
  /\ (steps (snd (withSelectiveRetry (probed fn) n delay (start w)))
      = (pre ++ Invoked (Normal v) :: post)%list ->
      post = []
      /\ fst (withSelectiveRetry (probed fn) n delay (start w)) = Normal v).
Proof.
  destruct n as [|n].
  - split; intros Etr; cbn in Etr; now destruct pre.
  - split; intros Etr.
    + eapply Run_success; [apply withRetry_run; lia|exact Etr].
    + eapply Run_success; [apply withSelectiveRetry_run; lia|exact Etr].
Qed.

(** X2. A run of either retry policy with at least one attempt ends with a
    call of the operation - the policy never waits after its last attempt -
    and it holds one warning and one wait less than calls. *)
Theorem policy_waits_between_calls (fn : M W A) (n : nat) (delay : Q) (w : W) :
  (1 <= n)%nat ->
  (exists pre outcome,
      steps (snd (withRetry (probed fn) n delay (start w)))
      = (pre ++ [Invoked outcome])%list)
  /\ calls (steps (snd (withRetry (probed fn) n delay (start w))))
     = Datatypes.S
         (probe_waits (steps (snd (withRetry (probed fn) n delay (start w)))))
  /\ probe_entries (steps (snd (withRetry (probed fn) n delay (start w))))
     = probe_waits (steps (snd (withRetry (probed fn) n delay (start w))))
  /\ (exists pre outcome,
         steps (snd (withSelectiveRetry (probed fn) n delay (start w)))
         = (pre ++ [Invoked outcome])%list)
  /\ calls (steps (snd (withSelectiveRetry (probed fn) n delay (start w))))
     = Datatypes.S
         (probe_waits
            (steps (snd (withSelectiveRetry (probed fn) n delay (start w)))))
  /\ probe_entries
       (steps (snd (withSelectiveRetry (probed fn) n delay (start w))))
     = probe_waits
         (steps (snd (withSelectiveRetry (probed fn) n delay (start w)))).
Proof.
  intros Hn.
  pose proof (withRetry_run fn n delay w Hn) as HR.
  pose proof (withSelectiveRetry_run fn n delay w Hn) as HS.
  destruct (Run_counts _ _ _ _ _ _ HR) as [C1 C2].
  destruct (Run_counts _ _ _ _ _ _ HS) as [C3 C4].
  repeat split; try assumption.
  - exact (Run_ends_with_call _ _ _ _ _ _ HR).
  - exact (Run_ends_with_call _ _ _ _ _ _ HS).
Qed.

End MorePolicyFacts.

Lemma success_ends_policy_witness :
  fst (withSelectiveRetry
         (Probe.probed
            (executeFetch Scripted.host usersUrl "GET" (Some JNull)
               headersTemplate None))
         3 2000
         (Probe.start
            (Scripted.boot
               [Scripted.answer 503 JNull; Scripted.answer 200 (JStr "fine");
                Scripted.answer 200 (JStr "unused")]
               Scripted.no_files)))
  = Normal (JStr "fine").
Proof.
  destruct (success_ends_policy
              (executeFetch Scripted.host usersUrl "GET" (Some JNull)
                 headersTemplate None)
              3 2000
              (Scripted.boot
                 [Scripted.answer 503 JNull; Scripted.answer 200 (JStr "fine");
                  Scripted.answer 200 (JStr "unused")]
                 Scripted.no_files)
              (firstn 3
                 (Probe.steps
                    (snd (withSelectiveRetry
                            (Probe.probed
                               (executeFetch Scripted.host usersUrl "GET"
                                  (Some JNull) headersTemplate None))
                            3 2000
                            (Probe.start
                               (Scripted.boot
                                  [Scripted.answer 503 JNull;
                                   Scripted.answer 200 (JStr "fine");
                                   Scripted.answer 200 (JStr "unused")]
                                  Scripted.no_files))))))
              [] (JStr "fine")) as [_ Hsel].
  apply Hsel. reflexivity.
Defined.

Lemma policy_waits_between_calls_witness :
  Probe.calls
    (Probe.steps
       (snd (withRetry (Probe.probed Scripted.stumble) 4 3000
               (Probe.start (Scripted.boot [] Scripted.no_files)))))
  = Datatypes.S
      (probe_waits
         (Probe.steps
            (snd (withRetry (Probe.probed Scripted.stumble) 4 3000
                    (Probe.start (Scripted.boot [] Scripted.no_files)))))).
Proof.
  destruct (policy_waits_between_calls Scripted.stumble 4 3000
              (Scripted.boot [] Scripted.no_files)) as (_ & Hcount & _);
    [lia|].
  exact Hcount.
Defined.

(** ** The budget of a network call *)

Lemma requests_of_app x y :
  requests_of (x ++ y) = (requests_of x ++ requests_of y)%list.
Proof. apply flat_map_app. Qed.

Lemma waits_of_app x y : waits_of (x ++ y) = (waits_of x ++ waits_of y)%list.
Proof. apply flat_map_app. Qed.

Lemma reads_of_app x y : reads_of (x ++ y) = (reads_of x ++ reads_of y)%list.
Proof. apply flat_map_app. Qed.

Section Budget.
Variable h : Host.
Context {A : Type} (fn : Task h A) (P : Request -> Prop).

(** Each call of the operation sends at most one request, of the kind [P],
    and awaits no timer. *)
Hypothesis fn_one :
  forall s, exists evs,
    trace (snd (fn s)) = (trace s ++ evs)%list
    /\ waits_of evs = []
    /\ (List.length (requests_of evs) <= 1)%nat
    /\ Forall P (requests_of evs).

Lemma backoff_trace retries delay attempt e (s : State h) :
  (attempt <? retries)%nat = true ->
  exists entry,
    backoff retries delay attempt e s
    = (Normal tt,
       {| world := timer h (backoffDelay_of (nearest_double h) delay attempt) (world s);
          trace := (trace s ++ [Logged Log.warn entry;
                                Slept (backoffDelay_of (nearest_double h) delay attempt)])%list |}).
Proof.
  intros E. unfold backoff. rewrite E. eexists.
  unfold bind, effect. cbn. unfold record. cbn [world trace].
  now rewrite <- app_assoc.
Qed.

Lemma selective_loop_budget retries delay :
  forall m a last (s : State h),
    (a + m = Datatypes.S retries)%nat ->
    exists ext k,
      trace (snd (withSelectiveRetry_loop fn retries delay (seq a m) last s))
      = (trace s ++ ext)%list
      /\ (k <= m)%nat /\ ((1 <= m)%nat -> (1 <= k)%nat)
      /\ (List.length (requests_of ext) <= k)%nat
      /\ Forall P (requests_of ext)
      /\ waits_of ext = map (backoffDelay_of (nearest_double h) delay) (seq a (k - 1)).
Proof.
  induction m as [|m IH]; intros a last s Ha.
  - exists [], 0%nat. destruct last; cbn; rewrite app_nil_r;
      repeat split; auto; lia.
  - cbn [seq withSelectiveRetry_loop].
    destruct (fn_one s) as (evs & Etr & Hw & Hr & HP).
    assert (Hone : forall c s1,
               fn s = (c, s1) ->
               exists ext k,
                 trace s1 = (trace s ++ ext)%list
                 /\ (k <= Datatypes.S m)%nat
                 /\ ((1 <= Datatypes.S m)%nat -> (1 <= k)%nat)
                 /\ (List.length (requests_of ext) <= k)%nat
                 /\ Forall P (requests_of ext)
                 /\ waits_of ext = map (backoffDelay_of (nearest_double h) delay) (seq a (k - 1))).
    { intros c s1 E. rewrite E in Etr. cbn [snd] in Etr.
      exists evs, 1%nat. repeat split; auto; lia. }
    destruct (fn s) as [[v|e|] s1] eqn:Efn; cbn [snd] in *.
    + now apply (Hone (Normal v)).
    + destruct (noRetry e); [now apply (Hone (Thrown e))|].
      unfold bind. destruct (a <? retries)%nat eqn:Ea.
      * destruct (backoff_trace retries delay a e s1 Ea) as (entry & ->).
        apply Nat.ltb_lt in Ea.
        match goal with
        | |- context [withSelectiveRetry_loop fn retries delay _ _ ?s2] =>
            destruct (IH (Datatypes.S a) (Some e) s2) as
              (ext & k & E2 & Hk & Hk1 & Hreq & HP2 & Hwaits); [lia|]
        end.
        cbn [trace] in E2.
        exists (evs ++ [Logged Log.warn entry;
                        Slept (backoffDelay_of (nearest_double h) delay a)] ++ ext)%list,
               (Datatypes.S k).
        assert (1 <= k)%nat by (apply Hk1; lia).
        split; [|split; [|split; [|split; [|split]]]].
        -- rewrite E2, Etr. now rewrite <- !app_assoc.
        -- lia.
        -- lia.
        -- rewrite !requests_of_app, !length_app. cbn. lia.
        -- rewrite !requests_of_app. cbn. now apply Forall_app.
        -- rewrite !waits_of_app, Hw, Hwaits. cbn [waits_of flat_map app].
           destruct k as [|k]; [lia|].
           cbn [Nat.sub seq map]. now rewrite Nat.sub_0_r.
      * unfold backoff. rewrite Ea. unfold ret.
        apply Nat.ltb_ge in Ea. assert (m = 0%nat) by lia. subst m.
        cbn [seq withSelectiveRetry_loop throw_value snd].
        exists evs, 1%nat. repeat split; auto; lia.
    + now apply (Hone ThrownUndefined).
Qed.

End Budget.

Section RequestFacts.
Variable h : Host.

Lemma executeFetch_events target method payloadData headers proxy (s : State h) :
  exists evs,
    trace (snd (executeFetch h target method payloadData headers proxy s))
    = (trace s ++ evs)%list
    /\ (evs = []
        \/ exists request,
             fetch_options h target method payloadData headers proxy
             = Normal request
             /\ evs = [Fetched request]).
Proof.
  unfold executeFetch, try_catch, bind.
  destruct (fetch_options h target method payloadData headers proxy)
    as [request|e|] eqn:Eopt.
  - exists [Fetched request]. split; [|right; eauto].
    unfold await_fetch.
    destruct (fetch h request (world s)) as [[response|msg] w]; cbn [settle].
    + destruct (Response.ok response); cbn [negb].
      * now destruct (Response.json response).
      * reflexivity.
    + reflexivity.
  - exists []. split; [cbn; now rewrite app_nil_r|now left].
  - exists []. split; [cbn; now rewrite app_nil_r|now left].
Qed.

Lemma Qle_total_cases (k : nat) :
  (1 <= k <= 3)%nat ->
  total (map (Probe.backoffDelay 2000) (seq 1 (k - 1))) <= 5000.
Proof.
  intros Hk.
  assert (k = 1 \/ k = 2 \/ k = 3)%nat as [-> | [-> | ->]] by lia;
    vm_compute; discriminate.
Qed.

(** The waits of the program's network calls are exact. *)
Lemma proxyFetch_waits_exact (k : nat) :
  (k <= 3)%nat ->
  map (backoffDelay_of (nearest_double h) 2000) (seq 1 (k - 1))
  = map (Probe.backoffDelay 2000) (seq 1 (k - 1)).
Proof.
  intros Hk. apply map_ext_in. intros attempt Hin.
  apply in_seq in Hin.
  apply (backoffDelay_of_whole _ 2000 attempt); [discriminate|lia|].
  assert (attempt = 1 \/ attempt = 2)%nat as [-> | ->] by lia; reflexivity.
Qed.

Lemma proxyFetch_attempts (target method : string) (payloadData : Value)
    (headers : list (string * string)) (proxy : option string) (s : State h) :
  exists ext k,
    trace (snd (proxyFetch h target method payloadData headers proxy s))
    = (trace s ++ ext)%list
    /\ (1 <= k <= 3)%nat
    /\ (List.length (requests_of ext) <= k)%nat
    /\ Forall (fun request =>
                 fetch_options h target method payloadData headers proxy
                 = Normal request) (requests_of ext)
    /\ waits_of ext = map (Probe.backoffDelay 2000) (seq 1 (k - 1))
    /\ total (waits_of ext) <= 5000.
Proof.
  destruct (selective_loop_budget h
              (executeFetch h target method payloadData headers proxy)
              (fun request =>
                 fetch_options h target method payloadData headers proxy
                 = Normal request))
    with (retries := 3%nat) (delay := 2000) (m := 3%nat) (a := 1%nat)
         (last := @None JsError) (s := s)
    as (ext & k & Etr & Hk & Hk1 & Hreq & HP & Hw).
  - intros s0.
    destruct (executeFetch_events target method payloadData headers proxy s0)
      as (evs & E & [-> | (request & Eopt & ->)]).
    + exists []. repeat split; auto.
    + exists [Fetched request]. repeat split; auto. cbn. auto.
  - reflexivity.
  - exists ext, k.
    assert (1 <= k)%nat by (apply Hk1; lia).
    rewrite proxyFetch_waits_exact in Hw by exact Hk.
    repeat split; auto.
    rewrite Hw. apply Qle_total_cases. lia.
Qed.

(** X3. Whatever the host answers, one [proxyFetch] makes [k] attempts for
    some [k] between 1 and 3: it sends at most [k] requests, each the same
    request built from its arguments, and between attempts it waits
    [2000 * 1.5^0] and then [2000 * 1.5^1] ms, never more than 5000 ms in
    all. *)
Theorem proxyFetch_budget (target method : string) (payloadData : Value)
    (headers : list (string * string)) (proxy : option string) (s : State h) :
  exists ext k,
    trace (snd (proxyFetch h target method payloadData headers proxy s))
    = (trace s ++ ext)%list
    /\ (1 <= k <= 3)%nat
    /\ (List.length (requests_of ext) <= k)%nat
    /\ Forall (fun request =>
                 fetch_options h target method payloadData headers proxy
                 = Normal request) (requests_of ext)
    /\ waits_of ext = map (Probe.backoffDelay 2000) (seq 1 (k - 1))
    /\ total (waits_of ext) <= 5000.
Proof. apply proxyFetch_attempts. Qed.

End RequestFacts.

(** The budget on a host where every request fails: three requests. *)
Example proxyFetch_budget_spent :
  List.length
    (requests_of
       (trace (snd (proxyFetch Scripted.host usersUrl "GET" (Some JNull)
                      headersTemplate None
                      (Scripted.boot [] Scripted.no_files)))))
  = 3%nat.
Proof. vm_compute. reflexivity. Qed.

(** ** The errors of a network call *)

Section ErrorFacts.
Variable h : Host.

Lemma selective_loop_throws {A} (fn : Task h A) (P : JsError -> Prop)
    retries delay :
  (forall s e, fst (fn s) = Thrown e -> P e) ->
  never_undefined h fn ->
  forall attempts last,
    (forall e, last = Some e -> P e) ->
    forall s e,
      fst (withSelectiveRetry_loop fn retries delay attempts last s) = Thrown e ->
      P e.
Proof.
  intros Hfn Hdef. induction attempts as [|a later IH]; intros last Hlast s e.
  - destruct last as [e0|]; cbn; [|discriminate].
    intros E. inversion E; subst. now apply Hlast.
  - cbn [withSelectiveRetry_loop].
    specialize (Hfn s). specialize (Hdef s).
    destruct (fn s) as [[v|e0|] s1]; cbn [fst] in *.
    + discriminate.
    + destruct (noRetry e0).
      * cbn. intros E. inversion E; subst. now apply Hfn.
      * unfold bind.
        destruct (backoff retries delay a e0 s1) as [[[]|e1|] s2] eqn:Eb.
        -- apply IH. intros e1 E1. inversion E1; subst. now apply Hfn.
        -- unfold backoff in Eb. destruct (a <? retries)%nat; discriminate.
        -- unfold backoff in Eb. destruct (a <? retries)%nat; discriminate.
    + congruence.
Qed.

Lemma executeFetch_throws target method payloadData headers proxy
    (s : State h) e :
  fst (executeFetch h target method payloadData headers proxy s) = Thrown e ->
  (exists msg, message e = "Request failed: " ++ msg)
  /\ (noRetry e = true ->
      status e = Some 400%Z
      /\ JsString.includes "/users/earn/" target = true).
Proof.
  unfold executeFetch, try_catch, bind.
  destruct (fetch_options h target method payloadData headers proxy)
    as [request|e0|] eqn:Eopt.
  - unfold await_fetch.
    destruct (fetch h request (world s)) as [[response|msg] w]; cbn [settle].
    + destruct (Response.ok response); cbn [negb].
      * destruct (Response.json response); cbn; [discriminate|].
        intros E. inversion E; subst. cbn. split; [eauto|discriminate].
      * cbn. intros E. inversion E; subst. split; [cbn; eauto|].
        unfold enhance, http_error.
        destruct (JsString.includes "/users/earn/" target);
          destruct (Response.status response =? 400)%Z eqn:E400;
          cbn; try discriminate.
        apply Z.eqb_eq in E400. rewrite E400. cbn. auto.
    + cbn. intros E. inversion E; subst. cbn. split; [eauto|discriminate].
  - unfold fetch_options in Eopt.
    destruct proxy as [p|]; [|discriminate].
    destruct (JsString.truthy p); [|discriminate].
    destruct (HttpsProxyAgent h ("http://" ++ p)); [|discriminate].
    inversion Eopt; subst. cbn. intros E. inversion E; subst. cbn.
    split; [eauto|discriminate].
  - unfold fetch_options in Eopt.
    destruct proxy as [p|]; [|discriminate].
    destruct (JsString.truthy p); [|discriminate].
    destruct (HttpsProxyAgent h ("http://" ++ p)); discriminate.
Qed.

(** X4. [proxyFetch] never throws [undefined], and every error it throws
    is an [Error] whose message starts with "Request failed: "; if the
    error is flagged [noRetry], its status is 400 and the URL contains
    [/users/earn/]. *)
Theorem proxyFetch_errors (target method : string) (payloadData : Value)
    (headers : list (string * string)) (proxy : option string) (s : State h) :
  fst (proxyFetch h target method payloadData headers proxy s)
  <> ThrownUndefined
  /\ forall e,
       fst (proxyFetch h target method payloadData headers proxy s) = Thrown e ->
       (exists msg, message e = "Request failed: " ++ msg)
       /\ (noRetry e = true ->
           status e = Some 400%Z
           /\ JsString.includes "/users/earn/" target = true).
Proof.
  split; [apply defined_proxyFetch|].
  intros e. unfold proxyFetch, withSelectiveRetry.
  apply (selective_loop_throws
           (executeFetch h target method payloadData headers proxy)
           (fun e =>
              (exists msg, message e = "Request failed: " ++ msg)
              /\ (noRetry e = true ->
                  status e = Some 400%Z
                  /\ JsString.includes "/users/earn/" target = true))).
  - intros s0 e0. apply executeFetch_throws.
  - apply defined_executeFetch.
  - discriminate.
Qed.

Lemma executeFetch_without_agent target method payloadData headers p msg
    (s : State h) :
  JsString.truthy p = true ->
  HttpsProxyAgent h ("http://" ++ p) = Some msg ->
  executeFetch h target method payloadData headers (Some p) s
  = (Thrown (Error ("Request failed: " ++ msg)), s).
Proof.
  intros Hp Hagent. unfold executeFetch, try_catch, bind, fetch_options.
  now rewrite Hp, Hagent.
Qed.

(** X5. When no agent can be built for the proxy, [proxyFetch] sends no
    request at all: it makes its three attempts, waits between them as
    usual, and fails with the constructor's message behind
    "Request failed: ". *)
Theorem proxyFetch_without_agent (target method : string)
    (payloadData : Value) (headers : list (string * string))
    (p msg : string) (s : State h) :
  JsString.truthy p = true ->
  HttpsProxyAgent h ("http://" ++ p) = Some msg ->
  fst (proxyFetch h target method payloadData headers (Some p) s)
  = Thrown (Error ("Request failed: " ++ msg))
  /\ exists ext,
       trace (snd (proxyFetch h target method payloadData headers (Some p) s))
       = (trace s ++ ext)%list
       /\ requests_of ext = []
       /\ waits_of ext
          = [Probe.backoffDelay 2000 1; Probe.backoffDelay 2000 2].
Proof.
  intros Hp Hagent.
  assert (Hrun : exists s' ext,
             proxyFetch h target method payloadData headers (Some p) s
             = (Thrown (Error ("Request failed: " ++ msg)), s')
             /\ trace s' = (trace s ++ ext)%list
             /\ requests_of ext = []
             /\ waits_of ext
                = [Probe.backoffDelay 2000 1; Probe.backoffDelay 2000 2]).
  { unfold proxyFetch, withSelectiveRetry.
    cbn [seq withSelectiveRetry_loop].
    rewrite (executeFetch_without_agent _ _ _ _ _ _ s Hp Hagent).
    cbn [noRetry Error]. unfold bind at 1.
    destruct (backoff_trace h 3 2000 1 (Error ("Request failed: " ++ msg)) s
                eq_refl) as (entry1 & ->).
    match goal with
    | |- context [executeFetch h _ _ _ _ _ ?s1] =>
        rewrite (executeFetch_without_agent target method payloadData headers
                   p msg s1 Hp Hagent)
    end.
    cbn [noRetry Error]. unfold bind at 1.
    match goal with
    | |- context [backoff 3 2000 2 ?e ?s1] =>
        destruct (backoff_trace h 3 2000 2 e s1 eq_refl) as (entry2 & ->)
    end.
    match goal with
    | |- context [executeFetch h _ _ _ _ _ ?s1] =>
        rewrite (executeFetch_without_agent target method payloadData headers
                   p msg s1 Hp Hagent)
    end.
    cbn [noRetry Error]. unfold bind, backoff. cbn [Nat.ltb Nat.leb].
    cbn [ret throw_value].
    eexists.
    exists [Logged Log.warn entry1; Slept (Probe.backoffDelay 2000 1);
            Logged Log.warn entry2; Slept (Probe.backoffDelay 2000 2)].
    split; [reflexivity|]. cbn [trace].
    split; [now rewrite <- app_assoc|now split]. }
  destruct Hrun as (s' & ext & -> & Etr & Hreq & Hw).
  split; [reflexivity|]. now exists ext.
Qed.

End ErrorFacts.

Lemma proxyFetch_errors_witness :
  fst (proxyFetch Scripted.host (earnUrl "7") "GET" (Some JNull)
         headersTemplate None
         (Scripted.boot [Scripted.answer 400 JNull] Scripted.no_files))
  <> ThrownUndefined
  /\ (exists msg,
         "Request failed: HTTP error! Status: 400" = "Request failed: " ++ msg)
  /\ (true = true ->
      Some 400%Z = Some 400%Z
      /\ JsString.includes "/users/earn/" (earnUrl "7") = true).
Proof.
  destruct (proxyFetch_errors Scripted.host (earnUrl "7") "GET" (Some JNull)
              headersTemplate None
              (Scripted.boot [Scripted.answer 400 JNull] Scripted.no_files))
    as [Hdefined Herrors].
  split; [exact Hdefined|].
  apply (Herrors {| message := "Request failed: HTTP error! Status: 400";
                    status := Some 400%Z; noRetry := true |}).
  reflexivity.
Defined.

Lemma proxyFetch_without_agent_witness :
  fst (proxyFetch Strict.host usersUrl "GET" (Some JNull) headersTemplate
         (Some "bad proxy:8080") (Strict.boot [] Scripted.no_files))
  = Thrown (Error "Request failed: Invalid URL")
  /\ exists ext,
       trace (snd (proxyFetch Strict.host usersUrl "GET" (Some JNull)
                     headersTemplate (Some "bad proxy:8080")
                     (Strict.boot [] Scripted.no_files)))
       = ([] ++ ext)%list
       /\ requests_of ext = []
       /\ waits_of ext
          = [Probe.backoffDelay 2000 1; Probe.backoffDelay 2000 2].
Proof.
  apply (proxyFetch_without_agent Strict.host usersUrl "GET" (Some JNull)
           headersTemplate "bad proxy:8080" "Invalid URL"
           (Strict.boot [] Scripted.no_files));
    reflexivity.
Defined.

(** ** More on the loaders *)

Lemma trimEnd_idem (s : string) :
  JsString.trimEnd (JsString.trimEnd s) = JsString.trimEnd s.
Proof.
  induction s as [|c r IH]; [reflexivity|].
  cbn [JsString.trimEnd].
  destruct (JsString.trimEnd r) as [|d k] eqn:Ek.
  - destruct (JsString.isWhiteSpace c) eqn:Ec; [reflexivity|].
    cbn. now rewrite Ec.
  - cbn [JsString.trimEnd]. cbn [JsString.trimEnd] in IH.
    destruct (JsString.trimEnd k);
      destruct (JsString.isWhiteSpace d); try discriminate;
      now rewrite IH.
Qed.

Lemma trimStart_opens (s : string) c r :
  JsString.trimStart s = String c r -> JsString.isWhiteSpace c = false.
Proof.
  induction s as [|d t IH]; cbn; [discriminate|].
  destruct (JsString.isWhiteSpace d) eqn:Ed; [exact IH|].
  intros E. inversion E; subst. exact Ed.
Qed.

Lemma trimEnd_keeps_head c r :
  JsString.isWhiteSpace c = false ->
  exists k, JsString.trimEnd (String c r) = String c k.
Proof.
  intros Ec. cbn [JsString.trimEnd].
  destruct (JsString.trimEnd r); [rewrite Ec|]; eauto.
Qed.

Lemma trim_idem (s : string) : JsString.trim (JsString.trim s) = JsString.trim s.
Proof.
  unfold JsString.trim.
  destruct (JsString.trimStart s) as [|c r] eqn:E; [reflexivity|].
  pose proof (trimStart_opens s c r E) as Ec.
  destruct (trimEnd_keeps_head c r Ec) as (k & Ek).
  rewrite Ek at 1. cbn [JsString.trimStart]. rewrite Ec, <- Ek.
  apply trimEnd_idem.
Qed.

(** X6. Every line the loaders keep is trimmed, is not empty and does not
    start with [#]. *)
Theorem lines_of_kept (data line : string) :
  In line (lines_of data) ->
  JsString.trim line = line
  /\ line <> EmptyString
  /\ JsString.startsWith "#" line = false.
Proof.
  unfold lines_of. intros Hin. apply filter_In in Hin as [Hin Hkept].
  apply in_map_iff in Hin as (raw & <- & _).
  unfold kept_line in Hkept. apply andb_true_iff in Hkept as [Ht Hc].
  split; [apply trim_idem|split].
  - intros E. rewrite E in Ht. discriminate.
  - now apply negb_true_iff in Hc.
Qed.

Lemma lines_of_kept_witness :
  JsString.trim "10.0.0.1:3128" = "10.0.0.1:3128"
  /\ "10.0.0.1:3128" <> EmptyString
  /\ JsString.startsWith "#" "10.0.0.1:3128" = false.
Proof.
  apply (lines_of_kept
           ("# proxies" ++ String JsString.LF "  10.0.0.1:3128  ")
           "10.0.0.1:3128").
  vm_compute. now left.
Defined.

Lemma contains_app (c : ascii) (a b : string) :
  JsString.contains c (a ++ b) = JsString.contains c a || JsString.contains c b.
Proof.
  induction a as [|d a IH]; cbn; [reflexivity|].
  now rewrite IH, orb_assoc.
Qed.

Lemma split_lines_text (lines : list string) :
  lines <> [] ->
  (forall l, In l lines -> JsString.contains JsString.LF l = false) ->
  JsString.split JsString.LF (lines_text lines) = lines.
Proof.
  unfold lines_text.
  induction lines as [|l rest IH]; intros Hne Hclean; [congruence|].
  destruct rest as [|l2 rest].
  - cbn [Js.join]. apply split_no_separator, Hclean. now left.
  - change (Js.join (String JsString.LF "") (l :: l2 :: rest))
      with (l ++ String JsString.LF
                   (Js.join (String JsString.LF "") (l2 :: rest))).
    rewrite split_at_separator by (apply Hclean; now left).
    rewrite IH; [reflexivity|discriminate|].
    intros l0 Hin. apply Hclean. now right.
Qed.

Lemma tidy_line_spec (line : string) :
  tidy_line line = true ->
  JsString.contains JsString.LF line = false
  /\ JsString.trim line = line
  /\ kept_line line = true.
Proof.
  unfold tidy_line. intros E.
  apply andb_true_iff in E as [E Hlf].
  apply andb_true_iff in E as [Hopen Hend].
  apply negb_true_iff in Hlf. apply String.eqb_eq in Hend.
  split; [exact Hlf|].
  destruct line as [|c r]; [discriminate|].
  cbn [opens_line] in Hopen. apply andb_true_iff in Hopen as [Hws Hhash].
  apply negb_true_iff in Hws. apply negb_true_iff in Hhash.
  split.
  - unfold JsString.trim. cbn [JsString.trimStart]. now rewrite Hws.
  - unfold kept_line, JsString.startsWith.
    cbn [JsString.truthy andb String.prefix].
    destruct (ascii_dec "#" c) as [<-|Hne]; [|reflexivity].
    rewrite Ascii.eqb_refl in Hhash. discriminate.
Qed.

Lemma lines_of_text (lines : list string) :
  Forall (fun l => tidy_line l = true) lines ->
  lines_of (lines_text lines) = lines.
Proof.
  intros Htidy. unfold lines_of.
  destruct lines as [|l rest]; [reflexivity|].
  rewrite split_lines_text; [|discriminate|].
  - assert (Hmap : map JsString.trim (l :: rest) = l :: rest).
    { rewrite <- (map_id (l :: rest)) at 2. apply map_ext_in.
      intros x Hx. rewrite Forall_forall in Htidy.
      now destruct (tidy_line_spec x (Htidy x Hx)) as (_ & ? & _). }
    rewrite Hmap.
    apply forallb_filter_id. apply forallb_forall.
    intros x Hx. rewrite Forall_forall in Htidy.
    now destruct (tidy_line_spec x (Htidy x Hx)) as (_ & _ & ?).
  - intros x Hx. rewrite Forall_forall in Htidy.
    now destruct (tidy_line_spec x (Htidy x Hx)) as (? & _ & _).
Qed.

Lemma trimEnd_app (x p : string) :
  p <> EmptyString -> JsString.trimEnd p = p ->
  JsString.trimEnd (x ++ p) = x ++ p.
Proof.
  intros Hne Hp. induction x as [|c x IH]; [exact Hp|].
  cbn [append JsString.trimEnd]. rewrite IH.
  destruct (x ++ p) eqn:E; [|reflexivity].
  destruct x; [cbn in E; congruence|discriminate].
Qed.

Lemma string_app_assoc (a b c : string) : (a ++ b) ++ c = a ++ b ++ c.
Proof. induction a as [|x a IH]; cbn; [reflexivity|now rewrite IH]. Qed.

Lemma tidy_credential_line (credential : string * string) :
  tidy_credential credential = true ->
  tidy_line (account_line credential) = true
  /\ parse_account (account_line credential)
     = {| Account.email := Some (fst credential);
          Account.password := Some (snd credential) |}
  /\ credentials (parse_account (account_line credential)) = Some credential.
Proof.
  destruct credential as [e p]. unfold tidy_credential, account_line.
  cbn [fst snd]. intros E.
  repeat match goal with
         | H : _ && _ = true |- _ => apply andb_true_iff in H as [? ?]
         end.
  repeat match goal with
         | H : negb _ = true |- _ => apply negb_true_iff in H
         end.
  match goal with H : String.eqb _ _ = true |- _ => apply String.eqb_eq in H end.
  assert (Hp : p <> EmptyString) by (destruct p; [discriminate|discriminate]).
  assert (Hparse : parse_account (e ++ ":" ++ p)
                   = {| Account.email := Some e; Account.password := Some p |}).
  { unfold parse_account.
    change (e ++ ":" ++ p) with (e ++ String ":" p).
    rewrite split_at_separator by assumption.
    now rewrite split_no_separator by assumption. }
  split; [|split].
  - assert (Hopen : opens_line (e ++ ":" ++ p) = true).
    { destruct e as [|c e]; [discriminate|]. assumption. }
    assert (Hend : JsString.trimEnd (e ++ ":" ++ p) = e ++ ":" ++ p).
    { rewrite <- (string_app_assoc e ":" p). now apply trimEnd_app. }
    assert (Hlf : JsString.contains JsString.LF (e ++ ":" ++ p) = false).
    { rewrite !contains_app.
      repeat match goal with
             | H : JsString.contains JsString.LF _ = false |- _ => rewrite H
             end.
      reflexivity. }
    unfold tidy_line. rewrite Hopen, Hend, Hlf, String.eqb_refl. reflexivity.
  - exact Hparse.
  - rewrite Hparse. unfold credentials. cbn [Account.email Account.password].
    destruct e; [discriminate|]. destruct p; [congruence|]. reflexivity.
Qed.

Lemma split_not_nil (sep : ascii) (s : string) : JsString.split sep s <> [].
Proof.
  induction s as [|c r IH]; cbn; [discriminate|].
  destruct (Ascii.eqb c sep); [discriminate|].
  destruct (JsString.split sep r); [congruence|discriminate].
Qed.

Lemma split_single (sep : ascii) (s a : string) :
  JsString.split sep s = [a] -> s = a /\ JsString.contains sep a = false.
Proof.
  revert a. induction s as [|c r IH]; cbn; intros a E.
  - inversion E. now split.
  - destruct (Ascii.eqb c sep) eqn:Ec.
    + inversion E as [[E1 E2]]. now destruct (split_not_nil sep r).
    + destruct (JsString.split sep r) as [|piece pieces] eqn:Er;
        [now destruct (split_not_nil sep r)|].
      inversion E; subst. destruct (IH piece eq_refl) as [-> Hc].
      split; [reflexivity|]. cbn. now rewrite Ec, Hc.
Qed.

Lemma split_cons (sep : ascii) (s a b : string) rest :
  JsString.split sep s = a :: b :: rest ->
  exists s', s = a ++ String sep s'
             /\ JsString.split sep s' = b :: rest
             /\ JsString.contains sep a = false.
Proof.
  revert a. induction s as [|c r IH]; cbn; intros a E; [discriminate|].
  destruct (Ascii.eqb c sep) eqn:Ec.
  - inversion E as [[E1 E2]]. apply Ascii.eqb_eq in Ec. subst c.
    exists r. now repeat split.
  - destruct (JsString.split sep r) as [|piece pieces] eqn:Er;
      [discriminate|].
    inversion E; subst.
    destruct (IH piece eq_refl) as (s' & -> & Hs' & Hc).
    exists s'. repeat split; auto. cbn. now rewrite Ec, Hc.
Qed.

Section MoreLoadFacts.
Variable h : Host.

(** X7. A proxy file made of tidy lines (no white space at either end, no
    [#] in front, not empty), one per line, is loaded as exactly those
    lines, in order. *)
Theorem loadProxies_reads_back (lines : list string) (s : State h)
    (w : World h) :
  Forall (fun l => tidy_line l = true) lines ->
  fs_readFile h "proxy.txt" (world s) = (Resolved (lines_text lines), w) ->
  loadProxies h s
  = (Normal lines,
     {| world := w; trace := (trace s ++ [ReadFile "proxy.txt"])%list |}).
Proof.
  intros Htidy E. unfold loadProxies, try_catch, bind, await_readFile.
  rewrite E. cbn [settle]. unfold ret. now rewrite lines_of_text.
Qed.

(** X8. A credential file with one [email:password] per line, where
    neither part holds a colon or a line feed, the email starts with
    neither white space nor [#] and the password is not empty and does not
    end in white space, is loaded as exactly those accounts, in order, and
    each of them has its credentials for the scheduler. *)
Theorem loadAccounts_reads_back (pairs : list (string * string))
    (s : State h) (w : World h) :
  Forall (fun c => tidy_credential c = true) pairs ->
  fs_readFile h "data.txt" (world s)
  = (Resolved (lines_text (map account_line pairs)), w) ->
  exists accounts,
    loadAccounts h s
    = (Normal accounts,
       {| world := w; trace := (trace s ++ [ReadFile "data.txt"])%list |})
    /\ accounts
       = map (fun c => {| Account.email := Some (fst c);
                          Account.password := Some (snd c) |}) pairs
    /\ map credentials accounts = map Some pairs.
Proof.
  intros Htidy E. eexists. split; [|split].
  - unfold loadAccounts, try_catch, bind, await_readFile.
    rewrite E. cbn [settle]. unfold ret.
    rewrite lines_of_text; [reflexivity|].
    apply Forall_map. eapply Forall_impl; [|exact Htidy].
    intros c Hc. now destruct (tidy_credential_line c Hc).
  - rewrite map_map. apply map_ext_in. intros c Hc.
    rewrite Forall_forall in Htidy.
    now destruct (tidy_credential_line c (Htidy c Hc)) as (_ & ? & _).
  - rewrite !map_map. apply map_ext_in. intros c Hc.
    rewrite Forall_forall in Htidy.
    now destruct (tidy_credential_line c (Htidy c Hc)) as (_ & _ & ?).
Qed.

Lemma loadData_reads (s : State h) :
  exists accounts proxies ext,
    fst (loadData h s) = Normal (accounts, proxies)
    /\ trace (snd (loadData h s)) = (trace s ++ ext)%list
    /\ reads_of ext = ["data.txt"; "proxy.txt"]
    /\ requests_of ext = []
    /\ waits_of ext = [].
Proof.
  rewrite loadData_single_attempt.
  unfold loadData_attempt, loadAccounts, loadProxies, bind, try_catch,
    await_readFile.
  destruct (fs_readFile h "data.txt" (world s)) as [[data1|msg1] w1];
    cbn [settle ret log effect world trace logger State_Runtime record];
    destruct (fs_readFile h "proxy.txt" w1) as [[data2|msg2] w2];
    cbn [settle ret log effect world trace logger State_Runtime record fst snd];
    do 2 eexists.
  - exists [ReadFile "data.txt"; ReadFile "proxy.txt"].
    repeat split. now rewrite <- app_assoc.
  - exists [ReadFile "data.txt"; ReadFile "proxy.txt";
            Logged Log.error
              (Log.plain ("Error loading proxies: " ++ message (Error msg2)))].
    repeat split. now rewrite <- !app_assoc.
  - exists [ReadFile "data.txt";
            Logged Log.error
              (Log.plain ("Error loading accounts: " ++ message (Error msg1)));
            ReadFile "proxy.txt"].
    repeat split. now rewrite <- !app_assoc.
  - exists [ReadFile "data.txt";
            Logged Log.error
              (Log.plain ("Error loading accounts: " ++ message (Error msg1)));
            ReadFile "proxy.txt";
            Logged Log.error
              (Log.plain ("Error loading proxies: " ++ message (Error msg2)))].
    repeat split. now rewrite <- !app_assoc.
Qed.

(** X9. [loadData] always returns a pair of lists and never throws; in
    doing so it reads [data.txt] and then [proxy.txt], each once, sends no
    request and awaits no timer. *)
Theorem loadData_reads_once (s : State h) :
  exists accounts proxies ext,
    fst (loadData h s) = Normal (accounts, proxies)
    /\ trace (snd (loadData h s)) = (trace s ++ ext)%list
    /\ reads_of ext = ["data.txt"; "proxy.txt"]
    /\ requests_of ext = []
    /\ waits_of ext = [].
Proof. apply loadData_reads. Qed.

End MoreLoadFacts.

(** X10. An account the scheduler processes comes from a line that starts
    with its email, a colon and its password, followed by nothing or by
    another colon; neither part is empty and neither holds a colon. *)
Theorem processed_account_fields (line email password : string) :
  credentials (parse_account line) = Some (email, password) ->
  email <> EmptyString /\ password <> EmptyString
  /\ JsString.contains ":" email = false
  /\ JsString.contains ":" password = false
  /\ exists tail,
       line = email ++ ":" ++ password ++ tail
       /\ (tail = EmptyString \/ exists t, tail = String ":" t).
Proof.
  unfold credentials, parse_account. cbn [Account.email Account.password].
  destruct (JsString.split ":" line) as [|a [|b rest]] eqn:Esplit;
    cbn [nth_error]; try discriminate.
  destruct (JsString.truthy a) eqn:Ea; [|discriminate].
  destruct (JsString.truthy b) eqn:Eb; [|discriminate].
  cbn [andb]. intros E. inversion E; subst.
  destruct (split_cons ":" line email password rest Esplit)
    as (s' & -> & Hs' & Hce).
  split; [intros ->; discriminate|].
  split; [intros ->; discriminate|].
  split; [exact Hce|].
  destruct rest as [|c rest].
  - destruct (split_single ":" s' password Hs') as [-> Hcp].
    split; [exact Hcp|].
    exists EmptyString. split; [|now left].
    change (email ++ ":" ++ password ++ "") with (email ++ String ":" (password ++ "")).
    f_equal. f_equal. clear. induction password; cbn; congruence.
  - destruct (split_cons ":" s' password c rest Hs') as (t & -> & _ & Hcp).
    split; [exact Hcp|].
    exists (String ":" t). split; [reflexivity|right; eauto].
Qed.

Lemma loadProxies_reads_back_witness :
  loadProxies Scripted.host
    (Scripted.boot []
       (fun _ => Resolved (lines_text ["10.0.0.1:3128"; "u:p@proxy.example:8080"])))
  = (Normal ["10.0.0.1:3128"; "u:p@proxy.example:8080"],
     {| world :=
          world (Scripted.boot []
                   (fun _ => Resolved
                      (lines_text ["10.0.0.1:3128"; "u:p@proxy.example:8080"])));
        trace := ([] ++ [ReadFile "proxy.txt"])%list |}).
Proof.
  apply (loadProxies_reads_back Scripted.host
           ["10.0.0.1:3128"; "u:p@proxy.example:8080"]).
  - repeat constructor.
  - reflexivity.
Defined.

Lemma loadAccounts_reads_back_witness :
  exists accounts,
    loadAccounts Scripted.host
      (Scripted.boot []
         (fun _ => Resolved
            (lines_text (map account_line [("a@x.com", "pw 1"); ("b@y.org", "s3cret")]))))
    = (Normal accounts,
       {| world :=
            world (Scripted.boot []
                     (fun _ => Resolved
                        (lines_text
                           (map account_line
                              [("a@x.com", "pw 1"); ("b@y.org", "s3cret")]))));
          trace := ([] ++ [ReadFile "data.txt"])%list |})
    /\ accounts
       = map (fun c => {| Account.email := Some (fst c);
                          Account.password := Some (snd c) |})
           [("a@x.com", "pw 1"); ("b@y.org", "s3cret")]
    /\ map credentials accounts
       = map Some [("a@x.com", "pw 1"); ("b@y.org", "s3cret")].
Proof.
  apply (loadAccounts_reads_back Scripted.host
           [("a@x.com", "pw 1"); ("b@y.org", "s3cret")]).
  - repeat constructor.
  - reflexivity.
Defined.

Lemma processed_account_fields_witness :
  "a@x.com" <> EmptyString /\ "pw" <> EmptyString
  /\ JsString.contains ":" "a@x.com" = false
  /\ JsString.contains ":" "pw" = false
  /\ exists tail,
       "a@x.com:pw:extra" = "a@x.com" ++ ":" ++ "pw" ++ tail
       /\ (tail = EmptyString \/ exists t, tail = String ":" t).
Proof.
  apply (processed_account_fields "a@x.com:pw:extra" "a@x.com" "pw").
  reflexivity.
Defined.

(** ** More on the workflow *)

Section MoreWorkflowFacts.
Variable h : Host.

(** X11. The workflow never throws: whatever the host answers, it returns
    normally. *)
Theorem workflow_never_throws (email password : string)
    (proxy : option string) (s : State h) :
  fst (loginAndCheckIn h email password proxy s) = Normal tt.
Proof.
  destruct (loginAndCheckIn_returns h email password proxy s) as ([] & E).
  exact E.
Qed.

(** X12. When sign-in answers with a payload that holds no access token,
    the workflow logs "Login failed" as an error and returns in that
    state: it sends no further request. *)
Theorem login_without_token (email password : string) (proxy : option string)
    (s s1 : State h) (signIn : JSON) :
  proxyFetch h signinUrl "POST"
    (Some (JObj [("email", JStr email); ("password", JStr password)]))
    headersTemplate proxy (logged h Log.info email "Attempting login" s)
  = (Normal signIn, s1) ->
  Js.truthy (Js.get "accessToken" signIn) = false ->
  loginAndCheckIn h email password proxy s
  = (Normal tt, logged h Log.error email "Login failed" s1).
Proof.
  intros Hsign Htoken.
  unfold loginAndCheckIn, bind, try_catch.
  change (log h Log.info (Log.tagged email "Attempting login") s)
    with (Normal tt, logged h Log.info email "Attempting login" s).
  cbv beta iota. rewrite Hsign.
  assert (E : Js.truthy (Js.and_get signIn "accessToken") = false).
  { unfold Js.and_get. destruct (Js.truthyJ signIn) eqn:Et; [exact Htoken|].
    cbn. exact Et. }
  rewrite E. reflexivity.
Qed.

(** X13. The four ways the workflow fails before the claim step.  When the
    sign-in request fails for good, when the access token has no text to
    send (an object with a [toString] property of its own), when the
    profile request fails for good, and when the identifier or the balance
    of the profile has no text, the workflow logs one error entry, "Error
    during process: " followed by the message of the failure, and returns
    in that state: no further request is sent and the reward is not
    claimed. *)
Theorem workflow_reports_failure (email password : string)
    (proxy : option string) (s s1 s2 : State h) (signIn user : JSON)
    (token : string) (e : JsError) :
  (proxyFetch h signinUrl "POST"
     (Some (JObj [("email", JStr email); ("password", JStr password)]))
     headersTemplate proxy (logged h Log.info email "Attempting login" s)
   = (Thrown e, s1) ->
   loginAndCheckIn h email password proxy s
   = (Normal tt,
      logged h Log.error email ("Error during process: " ++ message e) s1))
  /\ (proxyFetch h signinUrl "POST"
        (Some (JObj [("email", JStr email); ("password", JStr password)]))
        headersTemplate proxy (logged h Log.info email "Attempting login" s)
      = (Normal signIn, s1) ->
      Js.truthy (Js.get "accessToken" signIn) = true ->
      (toString h (Js.get "accessToken" signIn) = None ->
       loginAndCheckIn h email password proxy s
       = (Normal tt,
          logged h Log.error email
            "Error during process: Cannot convert object to primitive value"
            s1))
      /\ (toString h (Js.get "accessToken" signIn) = Some token ->
          (proxyFetch h usersUrl "GET" (Some JNull)
             (List.app headersTemplate [("Authorization", "Bearer " ++ token)])
             proxy
             (logged h Log.info email
                "Login succeeded! Fetching user details..." s1)
           = (Thrown e, s2) ->
           loginAndCheckIn h email password proxy s
           = (Normal tt,
              logged h Log.error email
                ("Error during process: " ++ message e) s2))
          /\ (proxyFetch h usersUrl "GET" (Some JNull)
                (List.app headersTemplate
                   [("Authorization", "Bearer " ++ token)])
                proxy
                (logged h Log.info email
                   "Login succeeded! Fetching user details..." s1)
              = (Normal user, s2) ->
              Js.truthy (Js.get "id" user) = true ->
              toString h (Js.get "id" user) = None
              \/ toString h (Js.get "dipTokenBalance" user) = None ->
              loginAndCheckIn h email password proxy s
              = (Normal tt,
                 logged h Log.error email
                   "Error during process: Cannot convert object to primitive value"
                   s2)))).
Proof.
  assert (Hstart : forall c s',
            proxyFetch h signinUrl "POST"
              (Some (JObj [("email", JStr email); ("password", JStr password)]))
              headersTemplate proxy
              (logged h Log.info email "Attempting login" s)
            = (c, s') ->
            loginAndCheckIn h email password proxy s
            = try_catch
                (fun s0 =>
                   match c with
                   | Normal signIn =>
                       (if Js.truthy (Js.and_get signIn "accessToken") then
                          token <- template h (Js.get "accessToken" signIn) ;;
                          log h Log.info
                            (Log.tagged email
                               "Login succeeded! Fetching user details...") ;;
                          user <- proxyFetch h usersUrl "GET" (Some JNull)
                                    (List.app headersTemplate
                                       [("Authorization", "Bearer " ++ token)])
                                    proxy ;;
                          after_profile h email
                            (List.app headersTemplate
                               [("Authorization", "Bearer " ++ token)])
                            proxy user
                        else log h Log.error (Log.tagged email "Login failed"))
                         s0
                   | Thrown e => (Thrown e, s0)
                   | ThrownUndefined => (ThrownUndefined, s0)
                   end)
                "message"
                (fun error =>
                   log h Log.error
                     (Log.tagged email
                        ("Error during process: " ++ message error))) s').
  { intros c s' Hrun. unfold loginAndCheckIn, bind at 1, try_catch.
    change (log h Log.info (Log.tagged email "Attempting login") s)
      with (Normal tt, logged h Log.info email "Attempting login" s).
    cbv beta iota. unfold bind at 1. rewrite Hrun.
    destruct c; reflexivity. }
  split; [|intros Hsign Htoken; split; [|intros Htext; split]].
  - intros Hsign. now rewrite (Hstart _ _ Hsign).
  - intros Htext. rewrite (Hstart _ _ Hsign).
    unfold try_catch. rewrite (and_get_truthy signIn "accessToken" Htoken), Htoken.
    unfold bind at 1, template. now rewrite Htext.
  - intros Huser. rewrite (Hstart _ _ Hsign).
    unfold try_catch. rewrite (and_get_truthy signIn "accessToken" Htoken), Htoken.
    unfold bind, template. rewrite Htext. unfold ret.
    change (log h Log.info
              (Log.tagged email "Login succeeded! Fetching user details...") s1)
      with (Normal tt,
            logged h Log.info email "Login succeeded! Fetching user details..." s1).
    cbv beta iota. now rewrite Huser.
  - intros Huser Hid Hnone. rewrite (Hstart _ _ Hsign).
    unfold try_catch. rewrite (and_get_truthy signIn "accessToken" Htoken), Htoken.
    unfold bind at 1, template at 1. rewrite Htext. unfold ret at 1.
    unfold bind at 1.
    change (log h Log.info
              (Log.tagged email "Login succeeded! Fetching user details...") s1)
      with (Normal tt,
            logged h Log.info email "Login succeeded! Fetching user details..." s1).
    cbv beta iota. unfold bind at 1. rewrite Huser.
    assert (Hobj : Js.truthyJ user = true).
    { destruct user; cbn in Hid; try discriminate; reflexivity. }
    unfold after_profile. cbv zeta. rewrite Hobj, Hid.
    unfold bind at 1, template at 1.
    destruct (toString h (Js.get "id" user)) as [idText|] eqn:Eid;
      [|reflexivity].
    unfold ret at 1. unfold bind at 1, template at 1.
    destruct Hnone as [Hnone|Hnone]; [discriminate|].
    now rewrite Hnone.
Qed.

End MoreWorkflowFacts.

Lemma login_without_token_witness :
  exists s1,
    loginAndCheckIn Scripted.host "a@x.com" "pw1" None
      (Scripted.boot [Scripted.answer 200 (JObj [("error", JStr "nope")])]
         Scripted.no_files)
    = (Normal tt, logged Scripted.host Log.error "a@x.com" "Login failed" s1).
Proof.
  eexists.
  eapply (login_without_token Scripted.host "a@x.com" "pw1" None
            (Scripted.boot [Scripted.answer 200 (JObj [("error", JStr "nope")])]
               Scripted.no_files));
    reflexivity.
Defined.

Lemma workflow_reports_failure_witness :
  (exists s1,
      loginAndCheckIn Scripted.host "a@x.com" "pw1" None
        (Scripted.boot [] Scripted.no_files)
      = (Normal tt,
         logged Scripted.host Log.error "a@x.com"
           ("Error during process: "
            ++ message (Error "Request failed: socket hang up")) s1))
  /\ exists s1,
       loginAndCheckIn Scripted.host "a@x.com" "pw1" None
         (Scripted.boot
            [Scripted.answer 200
               (JObj [("accessToken", JObj [("toString", JNum 1)])])]
            Scripted.no_files)
       = (Normal tt,
          logged Scripted.host Log.error "a@x.com"
            "Error during process: Cannot convert object to primitive value"
            s1).
Proof.
  split; eexists.
  - destruct (workflow_reports_failure Scripted.host "a@x.com" "pw1" None
                (Scripted.boot [] Scripted.no_files)
                (snd (proxyFetch Scripted.host signinUrl "POST"
                        (Some (JObj [("email", JStr "a@x.com");
                                     ("password", JStr "pw1")]))
                        headersTemplate None
                        (logged Scripted.host Log.info "a@x.com"
                           "Attempting login"
                           (Scripted.boot [] Scripted.no_files))))
                (Scripted.boot [] Scripted.no_files) JNull JNull ""
                (Error "Request failed: socket hang up")) as [Hsign _].
    apply Hsign. reflexivity.
  - destruct (workflow_reports_failure Scripted.host "a@x.com" "pw1" None
                (Scripted.boot
                   [Scripted.answer 200
                      (JObj [("accessToken", JObj [("toString", JNum 1)])])]
                   Scripted.no_files)
                (snd (proxyFetch Scripted.host signinUrl "POST"
                        (Some (JObj [("email", JStr "a@x.com");
                                     ("password", JStr "pw1")]))
                        headersTemplate None
                        (logged Scripted.host Log.info "a@x.com"
                           "Attempting login"
                           (Scripted.boot
                              [Scripted.answer 200
                                 (JObj [("accessToken",
                                         JObj [("toString", JNum 1)])])]
                              Scripted.no_files))))
                (Scripted.boot [] Scripted.no_files)
                (JObj [("accessToken", JObj [("toString", JNum 1)])])
                JNull "" (Error "")) as [_ Htoken].
    destruct Htoken as [Hnone _]; [reflexivity|reflexivity|].
    apply Hnone. reflexivity.
Defined.

(** ** More on the scheduler *)


Section MoreSchedulerFacts.
Variable h : Host.


End MoreSchedulerFacts.


Lemma floor_bounds (x : Q) :
  inject_Z (Qfloor x) <= x /\ x < inject_Z (Qfloor x) + 1.
Proof.
  split; [apply Qfloor_le|].
  pose proof (Qlt_floor x) as Hlt. rewrite inject_Z_plus in Hlt. exact Hlt.
Qed.

Lemma floor_nonneg (x : Q) : 0 <= x -> (0 <= Qfloor x)%Z.
Proof. intros Hx. change 0%Z with (Qfloor 0). now apply Qfloor_resp_le. Qed.

Lemma floor_below (x : Q) (n : Z) : x < inject_Z n -> (Qfloor x < n)%Z.
Proof.
  intros Hx. rewrite Zlt_Qlt.
  apply Qle_lt_trans with x; [apply Qfloor_le|exact Hx].
Qed.

(** X15. For a wait of [t >= 0] milliseconds until the next run, the hours
    and minutes [main] shows are whole numbers, the minutes from 0 to 59,
    and they are [t] rounded down to the minute. *)
Theorem next_run_display (t : Q) :
  0 <= t ->
  exists hh mm : Z,
    hoursUntilNextRun t = inject_Z hh
    /\ minutesUntilNextRun t = inject_Z mm
    /\ (0 <= hh)%Z /\ (0 <= mm <= 59)%Z
    /\ inject_Z hh * 3600000 + inject_Z mm * 60000 <= t
    /\ t < inject_Z hh * 3600000 + inject_Z mm * 60000 + 60000.
Proof.
  intros Ht.
  unfold hoursUntilNextRun, minutesUntilNextRun, js_rem, Math_floor.
  cbv zeta.
  set (q := t / (1000 * 60 * 60)).
  assert (Hq : t == q * 3600000) by (unfold q; field).
  assert (Hq0 : 0 <= q) by lra.
  assert (Hb : Qle_bool 0 q = true) by now apply Qle_bool_iff.
  rewrite Hb.
  destruct (floor_bounds q) as [F1 F2].
  pose proof (floor_nonneg q Hq0) as Hh.
  set (hh := Qfloor q) in *.
  set (p := (t - 1000 * 60 * 60 * inject_Z hh) / (1000 * 60)).
  assert (Hp : t - 3600000 * inject_Z hh == p * 60000) by (unfold p; field).
  assert (Hp0 : 0 <= p) by lra.
  assert (Hp60 : p < inject_Z 60).
  { change (inject_Z 60) with 60. lra. }
  destruct (floor_bounds p) as [G1 G2].
  pose proof (floor_nonneg p Hp0) as Hm.
  pose proof (floor_below p 60 Hp60) as Hm60.
  exists hh, (Qfloor p).
  repeat split; try lia; lra.
Qed.

Lemma next_run_display_witness :
  exists hh mm : Z,
    hoursUntilNextRun 5025000 = inject_Z hh
    /\ minutesUntilNextRun 5025000 = inject_Z mm
    /\ (0 <= hh)%Z /\ (0 <= mm <= 59)%Z
    /\ inject_Z hh * 3600000 + inject_Z mm * 60000 <= 5025000
    /\ 5025000 < inject_Z hh * 3600000 + inject_Z mm * 60000 + 60000.
Proof. apply (next_run_display 5025000). discriminate. Defined.

(** The display for 1 h 23 min 45 s. *)
Example next_run_display_sample :
  hoursUntilNextRun 5025000 == 1 /\ minutesUntilNextRun 5025000 == 23.
Proof. split; vm_compute; reflexivity. Qed.

Section NextRun.
Variable h : Host.


End NextRun.


Lemma reads_of_no_read (ext : list Event) : Forall no_read ext -> reads_of ext = [].
Proof.
  induction 1 as [|ev ext Hev _ IH]; [reflexivity|].
  destruct ev; cbn in *; try exact IH. contradiction.
Qed.

Lemma via_no_read (a : option string) (ev : Event) : via a ev -> no_read ev.
Proof. destruct ev; cbn; auto. Qed.

Section RunFacts2.
Variable h : Host.
Variable workflow : string -> string -> option string -> Task h unit.

Lemma emits_startup (P : Event -> Prop) fuel data :
  (forall level entry, P (Logged level entry)) ->
  (forall ms, P (Slept ms)) ->
  (forall i email password,
      emits h P (workflow email password (proxy_for (snd data) i))) ->
  emits h P (startup h workflow fuel data).
Proof.
  intros Hlog Hwait Hw. unfold startup. cbv zeta.
  repeat first [trace_step | apply Hlog].
  apply emits_forever. now apply emits_cycle.
Qed.

(** X17. When the workflow of an account throws an error, the loop body
    catches it: it logs "Process failed: " with the message of the error,
    then - unless the account is the last - warns of an extra cooldown and
    waits 10000 ms, and goes on with the usual pause between accounts. *)
Theorem visit_after_failure (accounts : list Account.t)
    (proxies : list string) (i : nat) (account : Account.t)
    (email password : string) (s s1 : State h) (e : JsError) :
  credentials account = Some (email, password) ->
  workflow email password (proxy_for proxies i) s = (Thrown e, s1) ->
  visit h workflow accounts proxies i account s
  = pause h accounts i
      (if (i <? List.length accounts - 1)%nat then
         {| world := timer h 10000 (world s1);
            trace :=
              (trace s1
               ++ [Logged Log.error
                     (Log.tagged email ("Process failed: " ++ message e));
                   Logged Log.warn (Log.plain
                     ("Adding extra cooldown of " ++ num h (10000 / 1000)
                      ++ "s after failure..."));
                   Slept 10000])%list |}
       else
         record (Logged Log.error
                   (Log.tagged email ("Process failed: " ++ message e))) s1).
Proof.
  intros Hc Hw. unfold visit. rewrite Hc.
  unfold bind at 1. unfold try_catch. rewrite Hw.
  unfold after_failure, bind.
  change (log h Log.error (Log.tagged email ("Process failed: " ++ message e)) s1)
    with (Normal tt,
          record (Logged Log.error
                    (Log.tagged email ("Process failed: " ++ message e))) s1).
  cbv beta iota.
  destruct (i <? List.length accounts - 1)%nat; [|reflexivity].
  cbv zeta. unfold log, sleep, effect.
  cbn [logger setTimeout State_Runtime]. unfold record. cbn [world trace].
  now rewrite <- !app_assoc.
Qed.

End RunFacts2.

Lemma visit_after_failure_witness :
  visit Scripted.host (fun _ _ _ => throw (Error "no luck"))
    [parse_account "a:1"; parse_account "b:2"] [] 0 (parse_account "a:1")
    (Scripted.boot [] Scripted.no_files)
  = pause Scripted.host [parse_account "a:1"; parse_account "b:2"] 0
      {| world := world (Scripted.boot [] Scripted.no_files);
         trace :=
           [Logged Log.error (Log.tagged "a" "Process failed: no luck");
            Logged Log.warn (Log.plain
              "Adding extra cooldown of 10s after failure...");
            Slept 10000] |}.
Proof.
  apply (visit_after_failure Scripted.host (fun _ _ _ => throw (Error "no luck"))
           [parse_account "a:1"; parse_account "b:2"] [] 0%nat
           (parse_account "a:1") "a" "1"
           (Scripted.boot [] Scripted.no_files)
           (Scripted.boot [] Scripted.no_files) (Error "no luck"));
    reflexivity.
Defined.

Section MainFacts.
Variable h : Host.

Lemma loginAndCheckIn_defined email password proxy :
  never_undefined h (loginAndCheckIn h email password proxy).
Proof. apply returns_defined, loginAndCheckIn_returns. Qed.

Lemma emits_loginAndCheckIn_no_read email password proxy :
  emits h no_read (loginAndCheckIn h email password proxy).
Proof.
  eapply emits_weaken; [|apply emits_loginAndCheckIn].
  apply via_no_read.
Qed.

(** X18. With the program's own loader and workflow, [main] never throws
    and never restarts: it returns only when no account was loaded, and
    otherwise keeps running however long it is followed; in all that time
    it reads [data.txt] and [proxy.txt] once each, at the start. *)
Theorem main_runs_on (fuel : nat) (s : State h) :
  exists accounts proxies ext,
    fst (loadData h s) = Normal (accounts, proxies)
    /\ fst (main h (Datatypes.S fuel) s)
       = Normal (match accounts with
                 | [] => Finished
                 | _ :: _ => StillRunning
                 end)
    /\ trace (snd (main h (Datatypes.S fuel) s)) = (trace s ++ ext)%list
    /\ reads_of ext = ["data.txt"; "proxy.txt"].
Proof.
  destruct (loadData_reads h s)
    as (accounts & proxies & ext0 & Eload & Etr0 & Hreads & _ & _).
  destruct (loadData h s) as [c s'] eqn:El. cbn [fst snd] in *. subst c.
  unfold main.
  rewrite (main_of_loaded h (loginAndCheckIn h) loginAndCheckIn_defined
             (loadData h) fuel s (accounts, proxies) s' El).
  destruct (emits_startup h (loginAndCheckIn h) no_read fuel (accounts, proxies))
    with (s := s') as (ext1 & Etr1 & Hext1).
  { intros; exact I. }
  { intros; exact I. }
  { intros i email password. apply emits_loginAndCheckIn_no_read. }
  exists accounts, proxies, (ext0 ++ ext1)%list.
  split; [reflexivity|split; [|split]].
  - unfold startup. cbn [fst snd].
    destruct accounts as [|account accounts]; [reflexivity|].
    cbn [List.length Nat.eqb].
    destruct (List.length proxies =? 0)%nat;
      unfold bind, log, effect; cbv beta iota;
      apply forever_running, cycle_returns, loginAndCheckIn_defined.
  - rewrite Etr1, Etr0. now rewrite app_assoc.
  - rewrite reads_of_app, Hreads, (reads_of_no_read ext1 Hext1).
    reflexivity.
Qed.

End MainFacts.

(** ** The plainer variant *)

Section IndexJsFacts.
Variable h : Host.

Lemma proxyFetch_plain_as_executeFetch (target method : string)
    (payloadData : Value) (headers : list (string * string))
    (proxy : option string) (s : State h) :
  snd (proxyFetch_plain h target method payloadData headers proxy s)
  = snd (executeFetch h target method payloadData headers proxy s)
  /\ fst (proxyFetch_plain h target method payloadData headers proxy s)
     = match fst (executeFetch h target method payloadData headers proxy s) with
       | Normal payload => Normal payload
       | Thrown e => Thrown (Error (message e))
       | ThrownUndefined => ThrownUndefined
       end.
Proof.
  unfold proxyFetch_plain, executeFetch, try_catch, bind.
  destruct (fetch_options h target method payloadData headers proxy)
    as [request|e|]; cbn [fst snd]; try (split; reflexivity).
  unfold await_fetch.
  destruct (fetch h request (world s)) as [[response|msg] w]; cbn [settle];
    try (split; reflexivity).
  destruct (Response.ok response); cbn [negb].
  - destruct (Response.json response); split; reflexivity.
  - split; [reflexivity|]. cbn [throw fst]. unfold http_error.
    destruct (JsString.includes "/users/earn/" target
              && (Response.status response =? 400)%Z); reflexivity.
Qed.

(** X19. The single attempt of the retrying executor and [proxyFetch] of
    [index.js] do the same to the host and the trace and return the same
    payload; where the former throws an error, the latter throws a plain
    error with the same message, without status or [noRetry] flag. *)
Theorem proxyFetch_plain_agrees (target method : string) (payloadData : Value)
    (headers : list (string * string)) (proxy : option string) (s : State h) :
  snd (proxyFetch_plain h target method payloadData headers proxy s)
  = snd (executeFetch h target method payloadData headers proxy s)
  /\ fst (proxyFetch_plain h target method payloadData headers proxy s)
     = match fst (executeFetch h target method payloadData headers proxy s) with
       | Normal payload => Normal payload
       | Thrown e => Thrown (Error (message e))
       | ThrownUndefined => ThrownUndefined
       end.
Proof. apply proxyFetch_plain_as_executeFetch. Qed.

Lemma proxyFetch_plain_throws target method payloadData headers proxy
    (s : State h) e :
  fst (proxyFetch_plain h target method payloadData headers proxy s) = Thrown e ->
  status e = None /\ noRetry e = false.
Proof.
  destruct (proxyFetch_plain_as_executeFetch target method payloadData headers proxy s)
    as [_ ->].
  destruct (fst (executeFetch h target method payloadData headers proxy s));
    try discriminate.
  intros E. inversion E. now split.
Qed.

Lemma defined_proxyFetch_plain target method payloadData headers proxy :
  never_undefined h (proxyFetch_plain h target method payloadData headers proxy).
Proof.
  intros s.
  destruct (proxyFetch_plain_as_executeFetch target method payloadData headers proxy s)
    as [_ ->].
  pose proof (defined_executeFetch h target method payloadData headers proxy s).
  destruct (fst (executeFetch h target method payloadData headers proxy s));
    congruence.
Qed.

Lemma emits_proxyFetch_plain (P : Event -> Prop) target method payloadData
    headers proxy :
  (forall r, P (Fetched r)) ->
  emits h P (proxyFetch_plain h target method payloadData headers proxy).
Proof.
  intros HP s.
  destruct (emits_executeFetch h P target method payloadData headers proxy
              (fun r _ _ => HP r) s) as (ext & E & F).
  exists ext.
  destruct (proxyFetch_plain_as_executeFetch target method payloadData headers proxy s)
    as [-> _].
  now split.
Qed.

(** X20. The workflow of [index.js] never throws either, and it reports
    every failed claim in the same way: one error entry, "Check-in
    failed: " with the message; the failure carries no status, so a
    status of 400 is not told apart. *)
Theorem workflow_plain_reports (email password : string)
    (proxy : option string) (headers : list (string * string)) (id : Value)
    (s s1 : State h) (e : JsError) :
  fst (loginAndCheckIn_plain h email password proxy s) = Normal tt
  /\ (claim_request_plain h headers proxy id s = (Thrown e, s1) ->
      checkin_step_plain h email headers proxy id s
      = (Normal tt,
         logged h Log.error email ("Check-in failed: " ++ message e) s1)
      /\ status e = None /\ noRetry e = false).
Proof.
  split.
  - assert (Hret : always_returns h (loginAndCheckIn_plain h email password proxy)).
    { unfold loginAndCheckIn_plain, checkin_step_plain, claim_request_plain,
        report_checkin.
      cbv zeta.
      repeat first [apply defined_proxyFetch_plain | returns_step]. }
    destruct (Hret s) as ([] & E). exact E.
  - intros E. split.
    + unfold checkin_step_plain, try_catch, bind. now rewrite E.
    + unfold claim_request_plain, bind, template in E.
      destruct (toString h id) as [idText|].
      * apply (proxyFetch_plain_throws (earnUrl idText) "GET"
                 (Some JNull) headers proxy s e).
        unfold ret in E. now rewrite E.
      * inversion E. now split.
Qed.

Lemma loginAndCheckIn_plain_returns email password proxy :
  always_returns h (loginAndCheckIn_plain h email password proxy).
Proof.
  unfold loginAndCheckIn_plain, checkin_step_plain, claim_request_plain,
    report_checkin.
  cbv zeta.
  repeat first [apply defined_proxyFetch_plain | returns_step].
Qed.

Lemma emits_loginAndCheckIn_plain email password proxy :
  emits h no_read (loginAndCheckIn_plain h email password proxy).
Proof.
  unfold loginAndCheckIn_plain, checkin_step_plain, claim_request_plain,
    report_checkin.
  cbv zeta.
  repeat first [trace_step
               | apply emits_proxyFetch_plain; intros; exact I];
    exact I.
Qed.

Lemma visit_plain_returns accounts proxies i account :
  always_returns h
    (visit_plain h (loginAndCheckIn_plain h) accounts proxies i account).
Proof.
  unfold visit_plain, pause. cbv zeta.
  destruct (credentials account) as [[email password]|]; [|apply returns_ret].
  repeat first [apply returns_defined, loginAndCheckIn_plain_returns
               | returns_step].
Qed.

Lemma emits_visit_plain accounts proxies i account :
  emits h no_read
    (visit_plain h (loginAndCheckIn_plain h) accounts proxies i account).
Proof.
  unfold visit_plain, pause. cbv zeta.
  destruct (credentials account) as [[email password]|]; [|apply emits_ret].
  repeat first [trace_step | apply emits_loginAndCheckIn_plain]; exact I.
Qed.

Lemma for_accounts_plain_returns accounts proxies pending :
  forall i, always_returns h (for_accounts_plain h (loginAndCheckIn_plain h) accounts proxies i pending).
Proof.
  induction pending as [|account later IH]; intros i; cbn.
  - apply returns_ret.
  - apply returns_bind; [apply visit_plain_returns|intros _; apply IH].
Qed.

Lemma emits_for_accounts_plain accounts proxies pending :
  forall i, emits h no_read (for_accounts_plain h (loginAndCheckIn_plain h) accounts proxies i pending).
Proof.
  induction pending as [|account later IH]; intros i; cbn.
  - apply emits_ret.
  - apply emits_bind; [apply emits_visit_plain|intros _; apply IH].
Qed.

Lemma cycle_plain_returns accounts proxies :
  always_returns h (cycle_plain h (loginAndCheckIn_plain h) accounts proxies).
Proof.
  unfold cycle_plain.
  repeat first [apply for_accounts_plain_returns | returns_step].
Qed.

Lemma emits_cycle_plain accounts proxies :
  emits h no_read (cycle_plain h (loginAndCheckIn_plain h) accounts proxies).
Proof.
  unfold cycle_plain.
  repeat first [apply emits_for_accounts_plain | trace_step]; exact I.
Qed.

(** X21. [main] of [index.js] never throws; it returns only when no
    account was loaded and otherwise keeps running; it reads [data.txt]
    and [proxy.txt] once each, at the start. *)
Theorem main_plain_runs_on (fuel : nat) (s : State h) :
  exists accounts ext,
    fst (loadAccounts h s) = Normal accounts
    /\ fst (main_plain h fuel s)
       = Normal (match accounts with
                 | [] => Finished
                 | _ :: _ => StillRunning
                 end)
    /\ trace (snd (main_plain h fuel s)) = (trace s ++ ext)%list
    /\ reads_of ext = ["data.txt"; "proxy.txt"].
Proof.
  destruct (loadAccounts_returns h s) as (accounts & Ea).
  destruct (loadAccounts h s) as [c1 s1] eqn:E1. cbn in Ea. subst c1.
  destruct (loadProxies_returns h s1) as (proxies & Ep).
  destruct (loadProxies h s1) as [c2 s2] eqn:E2. cbn in Ep. subst c2.
  assert (Hmain : main_plain h fuel s = startup_plain h fuel accounts proxies s2).
  { unfold main_plain, bind. now rewrite E1, E2. }
  destruct (loadData_reads h s)
    as (accounts' & proxies' & ext0 & _ & Etr0 & Hreads & _ & _).
  rewrite loadData_single_attempt in Etr0.
  unfold loadData_attempt, bind in Etr0. rewrite E1, E2 in Etr0.
  cbn [snd ret] in Etr0.
  assert (Hrest : emits h no_read (startup_plain h fuel accounts proxies)).
  { unfold startup_plain. repeat first [trace_step | exact I].
    all: apply emits_forever, emits_cycle_plain. }
  destruct (Hrest s2) as (ext1 & Etr1 & Hext1).
  exists accounts, (ext0 ++ ext1)%list. rewrite Hmain.
  split; [reflexivity|split; [|split]].
  - unfold startup_plain.
    destruct accounts as [|account accounts]; [reflexivity|].
    cbn [List.length Nat.eqb].
    destruct (List.length proxies =? 0)%nat;
      unfold bind, log, effect; cbv beta iota;
      apply forever_running, cycle_plain_returns.
  - rewrite Etr1, Etr0. now rewrite app_assoc.
  - rewrite reads_of_app, Hreads, (reads_of_no_read ext1 Hext1).
    reflexivity.
Qed.

End IndexJsFacts.

Lemma workflow_plain_reports_witness :
  exists s1,
    checkin_step_plain Scripted.host "a@x.com" headersTemplate None
      (Some (JNum 7))
      (Scripted.boot [Scripted.answer 400 JNull] Scripted.no_files)
    = (Normal tt,
       logged Scripted.host Log.error "a@x.com"
         ("Check-in failed: "
          ++ message (Error "Request failed: HTTP error! Status: 400")) s1)
    /\ status (Error "Request failed: HTTP error! Status: 400") = None
    /\ noRetry (Error "Request failed: HTTP error! Status: 400") = false.
Proof.
  eexists.
  destruct (workflow_plain_reports Scripted.host "a@x.com" "pw1" None
              headersTemplate (Some (JNum 7))
              (Scripted.boot [Scripted.answer 400 JNull] Scripted.no_files)
              (snd (proxyFetch_plain Scripted.host (earnUrl "7") "GET"
                      (Some JNull) headersTemplate None
                      (Scripted.boot [Scripted.answer 400 JNull]
                         Scripted.no_files)))
              (Error "Request failed: HTTP error! Status: 400"))
    as [_ Hclaim].
  apply Hclaim. reflexivity.
Defined.

(** ** The claim request *)

Section ClaimFacts.
Variable h : Host.

Lemma fetch_options_fields target method0 payloadData headers0 proxy request :
  fetch_options h target method0 payloadData headers0 proxy = Normal request ->
  url request = target /\ method request = method0
  /\ headers request = headers0 /\ agent request = agent_for proxy.
Proof.
  unfold fetch_options, agent_for.
  destruct proxy as [p|].
  - destruct (JsString.truthy p).
    + destruct (HttpsProxyAgent h ("http://" ++ p)); [discriminate|].
      intros E. inversion E. now repeat split.
    + intros E. inversion E. now repeat split.
  - intros E. inversion E. now repeat split.
Qed.

Lemma emits_executeFetch_exact (P : Event -> Prop) target method payloadData
    headers proxy :
  (forall r,
      fetch_options h target method payloadData headers proxy = Normal r ->
      P (Fetched r)) ->
  emits h P (executeFetch h target method payloadData headers proxy).
Proof.
  intros HP s.
  destruct (executeFetch_events h target method payloadData headers proxy s)
    as (evs & E & [-> | (request & Eopt & ->)]).
  - exists []. now split.
  - exists [Fetched request]. split; [exact E|]. constructor; auto.
Qed.

Lemma requests_of_Forall (P : Request -> Prop) (ext : list Event) :
  Forall (fun ev => match ev with Fetched r => P r | _ => True end) ext ->
  Forall P (requests_of ext).
Proof.
  induction 1 as [|ev ext Hev _ IH]; [constructor|].
  destruct ev; cbn; auto.
Qed.

Lemma checkin_step_returns email headers proxy id :
  always_returns h (checkin_step h email headers proxy id).
Proof.
  unfold checkin_step, claim_request, report_checkin, report_checkinError.
  repeat returns_step.
Qed.

(** X22. When sign-in answers with an access token and the profile with an
    identifier, and token, identifier and balance each have a text, the
    workflow logs the identifier and the balance, announces the check-in
    and goes on to the claim step; every request of that step is a GET to
    the reward-claim URL of that identifier and carries the headers of the
    template followed by [Authorization: Bearer] and the token. *)
Theorem workflow_claims_for_profile (email password : string)
    (proxy : option string) (s s1 s2 : State h) (signIn user : JSON)
    (token idText balance : string) :
  proxyFetch h signinUrl "POST"
    (Some (JObj [("email", JStr email); ("password", JStr password)]))
    headersTemplate proxy (logged h Log.info email "Attempting login" s)
  = (Normal signIn, s1) ->
  Js.truthy (Js.get "accessToken" signIn) = true ->
  toString h (Js.get "accessToken" signIn) = Some token ->
  proxyFetch h usersUrl "GET" (Some JNull)
    (List.app headersTemplate [("Authorization", "Bearer " ++ token)])
    proxy
    (logged h Log.info email "Login succeeded! Fetching user details..." s1)
  = (Normal user, s2) ->
  Js.truthy (Js.get "id" user) = true ->
  toString h (Js.get "id" user) = Some idText ->
  toString h (Js.get "dipTokenBalance" user) = Some balance ->
  let authorized :=
    List.app headersTemplate [("Authorization", "Bearer " ++ token)] in
  let s3 :=
    logged h Log.info email "Attempting daily check-in..."
      (logged h Log.info email
         ("User id: " ++ idText ++ " | Current points: " ++ balance) s2) in
  loginAndCheckIn h email password proxy s
  = checkin_step h email authorized proxy (Js.get "id" user) s3
  /\ exists ext,
       trace (snd (loginAndCheckIn h email password proxy s))
       = (trace s3 ++ ext)%list
       /\ Forall (fun r =>
                    url r = earnUrl idText
                    /\ method r = "GET"
                    /\ headers r = authorized)
            (requests_of ext).
Proof.
  intros Hsign Htoken Htext Huser Hid Hidtext Hbalance authorized s3.
  assert (Hobj : Js.truthyJ user = true).
  { destruct user; cbn in Hid; try discriminate; reflexivity. }
  assert (Hrun : loginAndCheckIn h email password proxy s
                 = checkin_step h email authorized proxy (Js.get "id" user) s3).
  { unfold loginAndCheckIn, bind, try_catch.
    change (log h Log.info (Log.tagged email "Attempting login") s)
      with (Normal tt, logged h Log.info email "Attempting login" s).
    cbv beta iota.
    rewrite Hsign, (and_get_truthy signIn "accessToken" Htoken), Htoken.
    unfold template at 1. rewrite Htext. unfold ret at 1.
    cbv beta iota.
    change (log h Log.info
              (Log.tagged email "Login succeeded! Fetching user details...") s1)
      with (Normal tt,
            logged h Log.info email "Login succeeded! Fetching user details..." s1).
    cbv beta iota. rewrite Huser. unfold after_profile. cbv zeta.
    rewrite Hobj, Hid. unfold bind, template.
    rewrite Hidtext, Hbalance. unfold ret, log, effect. cbv beta iota.
    fold authorized.
    destruct (checkin_step_returns email authorized proxy (Js.get "id" user)
                (logger Log.info (Log.tagged email "Attempting daily check-in...")
                   (logger Log.info
                      (Log.tagged email
                         ("User id: " ++ idText ++ " | Current points: "
                          ++ balance)) s2)))
      as ([] & E).
    unfold s3, logged.
    cbn [logger State_Runtime] in *.
    destruct (checkin_step h email authorized proxy (Js.get "id" user) _)
      as [c s4]. cbn in E. now subst c. }
  split; [exact Hrun|].
  rewrite Hrun.
  assert (Hemit : emits h
            (fun ev =>
               match ev with
               | Fetched r =>
                   url r = earnUrl idText
                   /\ method r = "GET" /\ headers r = authorized
               | _ => True
               end)
            (checkin_step h email authorized proxy (Js.get "id" user))).
  { unfold checkin_step, claim_request, report_checkin, report_checkinError.
    apply emits_try_catch.
    - apply emits_bind.
      + unfold template. rewrite Hidtext. unfold bind, ret.
        unfold proxyFetch, withSelectiveRetry.
        apply emits_withSelectiveRetry_loop; try (intros; exact I).
        apply emits_executeFetch_exact. intros r Hr.
        destruct (fetch_options_fields _ _ _ _ _ _ Hr) as (? & ? & ? & _).
        now repeat split.
      + intros checkin. repeat trace_step; exact I.
    - intros e. repeat trace_step; exact I. }
  destruct (Hemit s3) as (ext & Etr & Hext).
  exists ext. split; [exact Etr|].
  now apply requests_of_Forall.
Qed.

(** X23. When the first answer to the claim request has status 400, the
    claim step sends that one request only - no retry, no wait - and logs
    one info entry, "Already checked in today".  (Should the identifier
    have no text to put in the URL, no request is sent at all and the step
    logs a failed check-in.) *)
Theorem already_claimed_once (email : string)
    (headers : list (string * string)) (proxy : option string) (id : Value)
    (s : State h) (request : Request) (response : Response.t) (w : World h) :
  match toString h id with
  | Some idText =>
      fetch_options h (earnUrl idText) "GET" (Some JNull) headers proxy
      = Normal request ->
      fetch h request (world s) = (Resolved response, w) ->
      Response.status response = 400%Z ->
      checkin_step h email headers proxy id s
      = (Normal tt,
         logged h Log.info email alreadyCheckedMsg (sent h s request w))
  | None =>
      checkin_step h email headers proxy id s
      = (Normal tt,
         logged h Log.error email
           "Check-in failed: Cannot convert object to primitive value" s)
  end.
Proof.
  unfold checkin_step, claim_request, try_catch, bind, template.
  destruct (toString h id) as [idText|]; [|reflexivity].
  intros Hopt Hfetch Hst.
  assert (Hinc : JsString.includes "/users/earn/" (earnUrl idText) = true)
    by apply (includes_app "https://node.securitylabs.xyz/api/v1"
                "/users/earn/" idText).
  assert (Hok : Response.ok response = false).
  { unfold Response.ok. now rewrite Hst. }
  assert (Herr : enhance (http_error h (earnUrl idText) response)
                 = {| message := "Request failed: HTTP error! Status: "
                                 ++ num h (inject_Z 400);
                      status := Some 400%Z; noRetry := true |}).
  { unfold http_error. rewrite Hinc, Hst. reflexivity. }
  assert (Hexec :
            executeFetch h (earnUrl idText) "GET" (Some JNull) headers
              proxy s
            = (Thrown (enhance (http_error h (earnUrl idText) response)),
               sent h s request w)).
  { unfold executeFetch, try_catch, bind. rewrite Hopt.
    unfold await_fetch. rewrite Hfetch. cbn [settle]. now rewrite Hok. }
  unfold ret, proxyFetch, withSelectiveRetry.
  cbn [seq withSelectiveRetry_loop]. rewrite Hexec, Herr.
  cbn [noRetry]. reflexivity.
Qed.

(** X24. When the first answer to a request is a failure that may be
    retried and the second answer is ok with a readable body,
    [proxyFetch] returns that body after one warning and one wait of
    [2000 * 1.5^0] ms; the same request was sent twice. *)
Theorem proxyFetch_recovers (target method : string) (payloadData : Value)
    (headers : list (string * string)) (proxy : option string)
    (s : State h) (request : Request) (first second : Response.t)
    (w1 w2 : World h) (payload : JSON) :
  fetch_options h target method payloadData headers proxy = Normal request ->
  fetch h request (world s) = (Resolved first, w1) ->
  Response.ok first = false ->
  noRetry (http_error h target first) = false ->
  fetch h request (timer h (Probe.backoffDelay 2000 1) w1)
  = (Resolved second, w2) ->
  Response.ok second = true ->
  Response.json second = Resolved payload ->
  exists entry,
    proxyFetch h target method payloadData headers proxy s
    = (Normal payload,
       {| world := w2;
          trace :=
            (trace s
             ++ [Fetched request; Logged Log.warn entry;
                 Slept (Probe.backoffDelay 2000 1); Fetched request])%list |}).
Proof.
  intros Hopt Hf1 Hok1 Hflag Hf2 Hok2 Hjson.
  assert (Hexec1 :
            executeFetch h target method payloadData headers proxy s
            = (Thrown (enhance (http_error h target first)),
               sent h s request w1)).
  { unfold executeFetch, try_catch, bind. rewrite Hopt.
    unfold await_fetch. rewrite Hf1. cbn [settle]. now rewrite Hok1. }
  unfold proxyFetch, withSelectiveRetry.
  cbn [seq withSelectiveRetry_loop]. rewrite Hexec1.
  assert (Hflag' : noRetry (enhance (http_error h target first)) = false).
  { unfold enhance. cbn [noRetry]. now rewrite Hflag. }
  rewrite Hflag'. unfold bind at 1.
  destruct (backoff_trace h 3 2000 1 (enhance (http_error h target first))
              (sent h s request w1) eq_refl) as (entry & ->).
  change (backoffDelay_of (nearest_double h) 2000 1)
    with (Probe.backoffDelay 2000 1).
  exists entry.
  unfold executeFetch, try_catch, bind. rewrite Hopt.
  unfold await_fetch. cbn [world trace sent]. rewrite Hf2. cbn [settle].
  rewrite Hok2. cbn [negb]. rewrite Hjson. cbn [settle].
  now rewrite <- !app_assoc.
Qed.

End ClaimFacts.

Lemma workflow_claims_for_profile_witness :
  exists authorized s3,
    loginAndCheckIn Scripted.host "a@x.com" "pw1" None
      (Scripted.boot
         [Scripted.answer 200 (JObj [("accessToken", JStr "tok")]);
          Scripted.answer 200 (JObj [("id", JStr "7")]);
          Scripted.answer 400 JNull]
         Scripted.no_files)
    = checkin_step Scripted.host "a@x.com" authorized None (Some (JStr "7")) s3.
Proof.
  do 2 eexists.
  eapply (workflow_claims_for_profile Scripted.host "a@x.com" "pw1" None
            (Scripted.boot
               [Scripted.answer 200 (JObj [("accessToken", JStr "tok")]);
                Scripted.answer 200 (JObj [("id", JStr "7")]);
                Scripted.answer 400 JNull]
               Scripted.no_files)
            _ _ (JObj [("accessToken", JStr "tok")]) (JObj [("id", JStr "7")])
            "tok" "7" "undefined");
    reflexivity.
Defined.

Lemma already_claimed_once_witness :
  exists request w,
    checkin_step Scripted.host "a@x.com" headersTemplate None
      (Some (JStr "7"))
      (Scripted.boot [Scripted.answer 400 JNull] Scripted.no_files)
    = (Normal tt,
       logged Scripted.host Log.info "a@x.com" alreadyCheckedMsg
         (sent Scripted.host
            (Scripted.boot [Scripted.answer 400 JNull] Scripted.no_files)
            request w)).
Proof.
  do 2 eexists.
  apply (already_claimed_once Scripted.host "a@x.com" headersTemplate None
           (Some (JStr "7"))
           (Scripted.boot [Scripted.answer 400 JNull] Scripted.no_files)
           {| url := earnUrl "7"; method := "GET"; headers := headersTemplate;
              body := None; agent := None |}
           {| Response.status := 400; Response.json := Resolved JNull |}
           {| Scripted.answers := []; Scripted.files := Scripted.no_files |});
    reflexivity.
Defined.

Lemma proxyFetch_recovers_witness :
  exists entry final,
    proxyFetch Scripted.host usersUrl "GET" (Some JNull) headersTemplate None
      (Scripted.boot
         [Scripted.answer 503 JNull;
          Scripted.answer 200 (JObj [("id", JStr "7")])]
         Scripted.no_files)
    = (Normal (JObj [("id", JStr "7")]), final)
    /\ map Scripted.glimpse (trace final)
       = ["GET " ++ usersUrl; Log.message entry; "sleep 2000";
          "GET " ++ usersUrl].
Proof.
  destruct (proxyFetch_recovers Scripted.host usersUrl "GET" (Some JNull)
              headersTemplate None
              (Scripted.boot
                 [Scripted.answer 503 JNull;
                  Scripted.answer 200 (JObj [("id", JStr "7")])]
                 Scripted.no_files)
              {| url := usersUrl; method := "GET"; headers := headersTemplate;
                 body := None; agent := None |}
              {| Response.status := 503; Response.json := Resolved JNull |}
              {| Response.status := 200;
                 Response.json := Resolved (JObj [("id", JStr "7")]) |}
              {| Scripted.answers :=
                   [Scripted.answer 200 (JObj [("id", JStr "7")])];
                 Scripted.files := Scripted.no_files |}
              {| Scripted.answers := []; Scripted.files := Scripted.no_files |}
              (JObj [("id", JStr "7")])
              eq_refl eq_refl eq_refl eq_refl eq_refl eq_refl eq_refl)
    as (entry & E).
  exists entry. eexists. split; [exact E|reflexivity].
Defined.
